(** * saku-ai-chat: the retrieval-augmented-generation core

    A shallow embedding of [document_processor.py], [chroma_manager.py] and
    [rag_manager.py], and the properties of the ingestion pipeline, the
    vector store wrapper, the threshold gate and the context assembler.

    Conventions of the embedding:
    - a Python [str] is the list of its code points ([pystr]), so that
      [len] is [length] and the Japanese separators count as one character;
    - a Python [int] is a [Z], a Python [float] a primitive binary64 float;
    - a [dict] with string keys is a [gmap string _];
    - code that can raise returns a [result]; code that talks to the
      embedding service or to the collection threads a [World];
    - [print] calls write to the console only and are left out. *)

From Stdlib Require Import ZArith NArith List Ascii String Floats Decimal DecimalZ Sorted.
From stdpp Require Import gmap strings list sorting.

Open Scope Z_scope.
Set Warnings "-clear-no-such-hyp".

(** ** Python values *)

Module Py.

Abbreviation pystr := (list N).

(** Code points of a UTF-8 byte sequence. Only used to write the literals
    of the source in readable form. *)
Fixpoint utf8 (bs : list N) : pystr :=
  match bs with
  | [] => []
  | b0 :: r0 =>
      if (b0 <? 128)%N then b0 :: utf8 r0
      else if (b0 <? 224)%N then
        match r0 with
        | b1 :: r1 => ((b0 - 192) * 64 + (b1 - 128))%N :: utf8 r1
        | _ => []
        end
      else if (b0 <? 240)%N then
        match r0 with
        | b1 :: b2 :: r2 =>
            ((b0 - 224) * 4096 + (b1 - 128) * 64 + (b2 - 128))%N :: utf8 r2
        | _ => []
        end
      else
        match r0 with
        | b1 :: b2 :: b3 :: r3 =>
            ((b0 - 240) * 262144 + (b1 - 128) * 4096
             + (b2 - 128) * 64 + (b3 - 128))%N :: utf8 r3
        | _ => []
        end
  end.

Definition lit (s : string) : pystr :=
  utf8 (map N_of_ascii (list_ascii_of_string s)).

(** [len(s)] *)
Definition len (s : pystr) : Z := Z.of_nat (length s).

(** [str(n)] for an [int]. *)
Fixpoint digits (d : Decimal.uint) : pystr :=
  match d with
  | Decimal.Nil => []
  | Decimal.D0 d => 48%N :: digits d
  | Decimal.D1 d => 49%N :: digits d
  | Decimal.D2 d => 50%N :: digits d
  | Decimal.D3 d => 51%N :: digits d
  | Decimal.D4 d => 52%N :: digits d
  | Decimal.D5 d => 53%N :: digits d
  | Decimal.D6 d => 54%N :: digits d
  | Decimal.D7 d => 55%N :: digits d
  | Decimal.D8 d => 56%N :: digits d
  | Decimal.D9 d => 57%N :: digits d
  end.

Definition str_of_int (z : Z) : pystr :=
  match Z.to_int z with
  | Decimal.Pos d => digits d
  | Decimal.Neg d => 45%N :: digits d
  end.

(** [c.isspace()]: the characters [str.strip()] removes. *)
Definition isspace (c : N) : bool :=
  ((9 <=? c) && (c <=? 13) || (28 <=? c) && (c <=? 32)
   || (c =? 133) || (c =? 160) || (c =? 5760)
   || (8192 <=? c) && (c <=? 8202)
   || (c =? 8232) || (c =? 8233) || (c =? 8239) || (c =? 8287)
   || (c =? 12288))%N.

Fixpoint lstrip (s : pystr) : pystr :=
  match s with
  | [] => []
  | c :: r => if isspace c then lstrip r else s
  end.

Definition rstrip (s : pystr) : pystr := rev (lstrip (rev s)).

(** [s.strip()] *)
Definition strip (s : pystr) : pystr := rstrip (lstrip s).

(** [sep.join(parts)] *)
Fixpoint join (sep : pystr) (parts : list pystr) : pystr :=
  match parts with
  | [] => []
  | [p] => p
  | p :: ps => p ++ sep ++ join sep ps
  end.

(** The exceptions the modelled code can meet; all of them derive from
    Python's [Exception], so [except Exception] catches every one. *)
Inductive exn : Type :=
| KeyError (key : string)
| IndexError
| TypeError
| ValueError (msg : string)
| DuplicateIDError
| ServiceError (code : N).

Inductive result (A : Type) : Type :=
| Ok (a : A)
| Raise (e : exn).
Arguments Ok {A} a.
Arguments Raise {A} e.

Definition bind {A B} (r : result A) (k : A -> result B) : result B :=
  match r with
  | Ok a => k a
  | Raise e => Raise e
  end.

(** [[f(x) for x in xs]] where [f] can raise. *)
Fixpoint traverse {A B} (f : A -> result B) (xs : list A) : result (list B) :=
  match xs with
  | [] => Ok []
  | x :: r =>
      bind (f x) (fun y => bind (traverse f r) (fun ys => Ok (y :: ys)))
  end.

End Py.
Export Py.

#[export] Instance result_ret : MRet result := @Ok.
#[export] Instance result_bind : MBind result := fun A B k r => Py.bind r k.


(** [for x in xs: st = step(st, x)] where the body can raise. *)
Fixpoint for_each {S A} (step : S -> A -> result S) (xs : list A) (st : S)
  : result S :=
  match xs with
  | [] => Ok st
  | x :: r => st' ← step st x; for_each step r st'
  end.

Definition nonempty {A} (l : list A) : bool :=
  match l with [] => false | _ => true end.

(** ** The text splitter of the [langchain_text_splitters] dependency

    [document_processor.py] builds a [RecursiveCharacterTextSplitter] and
    calls its [split_text]. The splitter is a dependency of the repository,
    not part of it; this module follows the dependency's constructor
    ([__init__]) and its [_split_text], [_merge_splits] and
    [_join_docs] under the options the repository leaves at their defaults:
    [length_function = len], [keep_separator = True],
    [is_separator_regex = False], [strip_whitespace = True]. *)

Module TextSplitter.

Record t : Type := {
  _chunk_size : Z;
  _chunk_overlap : Z;
  _separators : list pystr;
}.

(** The constructor validates the two sizes and nothing else;
    [separators or ["\n\n", "\n", " ", ""]] is kept. *)
Definition __init__ (chunk_size chunk_overlap : Z) (separators : list pystr)
  : result t :=
  if chunk_size <=? 0 then Raise (ValueError "chunk_size must be > 0")
  else if chunk_overlap <? 0 then Raise (ValueError "chunk_overlap must be >= 0")
  else if chunk_overlap >? chunk_size then
    Raise (ValueError "Got a larger chunk overlap than chunk size, should be smaller.")
  else Ok {| _chunk_size := chunk_size;
             _chunk_overlap := chunk_overlap;
             _separators :=
               if nonempty separators then separators
               else [[10%N; 10%N]; [10%N]; [32%N]; []] |}.

Fixpoint startswith (p s : pystr) : bool :=
  match p, s with
  | [], _ => true
  | a :: p', b :: s' => (a =? b)%N && startswith p' s'
  | _ :: _, [] => false
  end.

(** [re.search(re.escape(sep), text)] as a truth value. *)
Fixpoint re_search (sep text : pystr) : bool :=
  startswith sep text
  || match text with
     | [] => false
     | _ :: r => re_search sep r
     end.

(** The pieces of [text] between the successive leftmost occurrences of a
    non-empty [sep]: [skip] counts the characters of an occurrence still
    to be passed over, [acc] holds the current piece, reversed. *)
Fixpoint pieces (sep text : pystr) (skip : nat) (acc : pystr) : list pystr :=
  match text with
  | [] => [rev acc]
  | c :: r =>
      match skip with
      | S k => pieces sep r k acc
      | O =>
          if startswith sep text
          then rev acc :: pieces sep r (Nat.pred (length sep)) []
          else pieces sep r O (c :: acc)
      end
  end.

(** [_split_text_with_regex(text, separator, keep_separator=True)]:
    [re.split] with the separator captured yields
    [p0, sep, p1, sep, p2, ...]; each separator is glued to the front of
    the piece that follows it, and empty strings are dropped. With the
    empty separator the text is cut into its characters. *)
Definition _split_text_with_regex (text separator : pystr) : list pystr :=
  let splits :=
    match separator with
    | [] => map (fun c => [c]) text
    | _ :: _ =>
        match pieces separator text O [] with
        | [] => []
        | p0 :: ps => p0 :: map (fun p => separator ++ p) ps
        end
    end in
  filter (fun s => nonempty s = true) splits.

(** [_join_docs]: [None] when nothing but whitespace is left. *)
Definition _join_docs (docs : list pystr) (separator : pystr) : option pystr :=
  let text := strip (join separator docs) in
  match text with
  | [] => None
  | _ => Some text
  end.

(** The [for] loop at the head of [_split_text], which picks the
    separator: the first one that is empty or occurs in the text, with the
    separators after it as [new_separators]; [default] is
    [separators[-1]], used with no [new_separators] when none qualifies. *)
Fixpoint choose_separator (separators : list pystr) (text default : pystr)
  : pystr * list pystr :=
  match separators with
  | [] => (default, [])
  | _s :: rest =>
      match _s with
      | [] => (_s, [])
      | _ :: _ =>
          if re_search _s text then (_s, rest)
          else choose_separator rest text default
      end
  end.

Section Splitter.
Variable self : t.

(** The [while] loop of [_merge_splits], dropping pieces from the front of
    [current_doc]; [current_doc[0]] on an empty list raises. *)
Fixpoint pop_front (separator_len _len : Z) (current_doc : list pystr)
  (total : Z) {struct current_doc} : result (list pystr * Z) :=
  if (total >? _chunk_overlap self)
     || ((total + _len + (if nonempty current_doc then separator_len else 0)
          >? _chunk_size self) && (total >? 0))
  then
    match current_doc with
    | [] => Raise IndexError
    | d0 :: rest =>
        pop_front separator_len _len rest
          (total - (len d0 + (if nonempty rest then separator_len else 0)))
    end
  else Ok (current_doc, total).

(** One iteration of the [for d in splits] loop of [_merge_splits]. *)
Definition merge_step (separator : pystr)
  (st : list pystr * list pystr * Z) (d : pystr)
  : result (list pystr * list pystr * Z) :=
  let '(docs, current_doc, total) := st in
  let separator_len := len separator in
  let _len := len d in
  '(docs, current_doc, total) ←
    (if (total + _len + (if nonempty current_doc then separator_len else 0)
         >? _chunk_size self) && nonempty current_doc
     then
       let docs :=
         match _join_docs current_doc separator with
         | Some doc => docs ++ [doc]
         | None => docs
         end in
       '(current_doc, total) ← pop_front separator_len _len current_doc total;
       mret (docs, current_doc, total)
     else mret (docs, current_doc, total));
  let current_doc := current_doc ++ [d] in
  mret (docs, current_doc,
        total + _len
        + (if (1 <? Z.of_nat (length current_doc)) then separator_len else 0)).

Definition _merge_splits (splits : list pystr) (separator : pystr)
  : result (list pystr) :=
  '(docs, current_doc, _) ← for_each (merge_step separator) splits ([], [], 0);
  match _join_docs current_doc separator with
  | Some doc => mret (docs ++ [doc])
  | None => mret docs
  end.

(** One iteration of the [for s in splits] loop of [_split_text];
    [recurse] is [None] when [new_separators] is empty and the recursive
    call on [new_separators] otherwise. *)
Definition split_step (recurse : option (pystr -> result (list pystr)))
  (st : list pystr * list pystr) (s : pystr)
  : result (list pystr * list pystr) :=
  let '(final_chunks, _good_splits) := st in
  if len s <? _chunk_size self then mret (final_chunks, _good_splits ++ [s])
  else
    final_chunks ←
      (if nonempty _good_splits
       then merged_text ← _merge_splits _good_splits [];
            mret (final_chunks ++ merged_text)
       else mret final_chunks);
    match recurse with
    | None => mret (final_chunks ++ [s], [])
    | Some _split_text =>
        other_info ← _split_text s;
        mret (final_chunks ++ other_info, [])
    end.

(** The part of [_split_text] after the separator has been chosen. *)
Definition split_with (separator : pystr)
  (recurse : option (pystr -> result (list pystr))) (text : pystr)
  : result (list pystr) :=
  let splits := _split_text_with_regex text separator in
  '(final_chunks, _good_splits) ← for_each (split_step recurse) splits ([], []);
  if nonempty _good_splits
  then merged_text ← _merge_splits _good_splits [];
       mret (final_chunks ++ merged_text)
  else mret final_chunks.

(** [_split_text(text, separators)]. The function recurses on
    [new_separators], a tail of [separators], so it is written by
    recursion on [separators] with the choice of the separator folded in:
    a separator that is passed over plays no further part, and the loop
    goes on as [_split_text] does on the remaining separators
    ([_split_text_chooses] below states the function in the shape of the
    Python code). [separators[-1]] raises on an empty list. *)
Fixpoint _split_text (separators : list pystr) (text : pystr)
  {struct separators} : result (list pystr) :=
  match separators with
  | [] => Raise IndexError
  | _s :: new_separators =>
      let recurse :=
        match new_separators with
        | [] => None
        | _ :: _ => Some (_split_text new_separators)
        end in
      match _s with
      | [] => split_with [] None text
      | _ :: _ =>
          if re_search _s text then split_with _s recurse text
          else
            match new_separators with
            | [] => split_with _s None text
            | _ :: _ => _split_text new_separators text
            end
      end
  end.

Definition split_text (text : pystr) : result (list pystr) :=
  _split_text (_separators self) text.

End Splitter.
End TextSplitter.

(** ** Documents, chunks and their metadata *)

(** A metadata value: the pipeline stores file names and integers. *)
Inductive MetaValue : Type :=
| MStr (s : pystr)
| MInt (n : Z).

(** [str(v)], as an f-string renders the value. *)
Definition str (v : MetaValue) : pystr :=
  match v with
  | MStr s => s
  | MInt n => str_of_int n
  end.

(** The dict [{"text": ..., "metadata": {...}}] that stands for a page and
    for a chunk alike. *)
Module Doc.
Record t : Type := {
  text : pystr;
  metadata : gmap string MetaValue;
}.
End Doc.

(** [try: body  except Exception: handler] for code without effects. *)
Definition try_except {A} (body : result A) (handler : exn -> result A)
  : result A :=
  match body with
  | Ok a => Ok a
  | Raise e => handler e
  end.

(** [enumerate(xs, start)] *)
Fixpoint enumerate {A} (start : Z) (xs : list A) : list (Z * A) :=
  match xs with
  | [] => []
  | x :: r => (start, x) :: enumerate (start + 1) r
  end.

(** ** document_processor.py *)

(** A document opened by PyMuPDF: what [page.get_text()] gives for each
    page in turn, and what [doc.close()] does. *)
Record PdfDocument : Type := {
  get_text : list (result pystr);
  close : result unit;
}.

Module DocumentProcessor.

Record t : Type := {
  chunk_size : Z;
  chunk_overlap : Z;
  text_splitter : TextSplitter.t;
}.

(** [separators=["\n\n", "\n", "。", "、", " ", ""]] *)
Definition separators : list pystr :=
  [[10%N; 10%N]; [10%N]; lit "。"; lit "、"; lit " "; []].

Definition __init__ (chunk_size chunk_overlap : Z) : result t :=
  text_splitter ← TextSplitter.__init__ chunk_size chunk_overlap separators;
  mret {| chunk_size := chunk_size;
          chunk_overlap := chunk_overlap;
          text_splitter := text_splitter |}.

(** The object the constructor builds when the splitter accepts the
    sizes. *)
Definition constructed (chunk_size chunk_overlap : Z) : t :=
  {| chunk_size := chunk_size;
     chunk_overlap := chunk_overlap;
     text_splitter :=
       {| TextSplitter._chunk_size := chunk_size;
          TextSplitter._chunk_overlap := chunk_overlap;
          TextSplitter._separators := separators |} |}.

(** [str.splitlines()] *)
Definition is_linebreak (c : N) : bool :=
  ((10 <=? c) && (c <=? 13) || (28 <=? c) && (c <=? 30)
   || (c =? 133) || (c =? 8232) || (c =? 8233))%N.

Fixpoint splitlines_from (s acc : pystr) : list pystr :=
  match s with
  | [] => match acc with [] => [] | _ :: _ => [rev acc] end
  | c :: r =>
      if is_linebreak c then
        rev acc ::
          match r with
          | c' :: r' =>
              if ((c =? 13) && (c' =? 10))%N then splitlines_from r' []
              else splitlines_from r []
          | [] => splitlines_from r []
          end
      else splitlines_from r (c :: acc)
  end.

Definition splitlines (s : pystr) : list pystr := splitlines_from s [].

(** [s.split(sep)] for a non-empty [sep]. *)
Definition split (s sep : pystr) : list pystr :=
  TextSplitter.pieces sep s O [].

Section Extraction.

(** The world outside: [Path(p).name], PyMuPDF's [fitz.open], reading a
    file, and BeautifulSoup (parse, drop [script] and [style],
    [get_text]). *)
Variable path_name : pystr -> pystr.
Variable fitz_open : pystr -> result PdfDocument.
Variable read_file : pystr -> result pystr.
Variable soup_get_text : pystr -> result pystr.

Definition page_metadata (file_name : pystr) (page_num : Z)
  : gmap string MetaValue :=
  <["page" := MInt page_num]> (<["source" := MStr file_name]> ∅).

Definition extract_text_from_pdf (pdf_path : pystr) : result (list Doc.t) :=
  let file_name := path_name pdf_path in
  try_except
    (doc ← fitz_open pdf_path;
     pages ←
       for_each
         (fun pages '(page_num, page) =>
            text ← page;
            if nonempty (strip text)
            then mret (pages ++ [{| Doc.text := text;
                                    Doc.metadata := page_metadata file_name page_num |}])
            else mret pages)
         (enumerate 1 (get_text doc)) [];
     _ ← close doc;
     mret pages)
    (fun e => Ok []).

Definition extract_text_from_html (html_path : pystr) : result (list Doc.t) :=
  let file_name := path_name html_path in
  try_except
    (html_content ← read_file html_path;
     text ← soup_get_text html_content;
     let lines := map strip (splitlines text) in
     let chunks := map strip (concat (map (fun line => split line (lit "  ")) lines)) in
     let text := join [10%N] (filter (fun chunk => nonempty chunk = true) chunks) in
     if nonempty (strip text)
     then mret [{| Doc.text := text;
                   Doc.metadata := page_metadata file_name 1 |}]
     else mret [])
    (fun e => Ok []).

Variable self : t.

(** The inner loop of [split_into_chunks]: one chunk per piece, numbered
    by the running [chunk_index]. *)
Definition add_chunk (page : Doc.t) (st : list Doc.t * Z) (chunk_text : pystr)
  : list Doc.t * Z :=
  let '(chunks, chunk_index) := st in
  (chunks ++ [{| Doc.text := chunk_text;
                 Doc.metadata :=
                   <["chunk_index" := MInt chunk_index]> (Doc.metadata page) |}],
   chunk_index + 1).

Definition split_page (st : list Doc.t * Z) (page : Doc.t)
  : result (list Doc.t * Z) :=
  page_chunks ← TextSplitter.split_text (text_splitter self) (Doc.text page);
  mret (fold_left (add_chunk page) page_chunks st).

Definition split_into_chunks (pages : list Doc.t) : result (list Doc.t) :=
  '(chunks, _) ← for_each split_page pages ([], 0);
  mret chunks.

Definition process_pdf (pdf_path : pystr) : result (list Doc.t) :=
  pages ← extract_text_from_pdf pdf_path;
  if negb (nonempty pages) then mret []
  else split_into_chunks pages.

Definition process_html (html_path : pystr) : result (list Doc.t) :=
  pages ← extract_text_from_html html_path;
  if negb (nonempty pages) then mret []
  else split_into_chunks pages.

End Extraction.
End DocumentProcessor.

(** ** The collection and the embedding service *)

Abbreviation Embedding := (list float).
Abbreviation Metadata := (gmap string MetaValue).

Record VectorRecord : Type := {
  embedding : Embedding;
  document : pystr;
  record_metadata : Metadata;
}.

(** The persisted collection: record id to record. *)
Abbreviation Collection := (gmap pystr VectorRecord).

(** What [collection.query] hands back: one inner list per query
    embedding, or [None] for a column that was not produced. *)
Record QueryResult : Type := {
  documents : option (list (list pystr));
  metadatas : option (list (list Metadata));
  distances : option (list (list float));
}.

(** The calls that leave the process. *)
Inductive Call : Type :=
| EmbedDocuments (texts : list pystr)
| EmbedQuery (query : pystr)
| CollectionAdd (ids : list pystr) (embeddings : list Embedding)
    (documents : list pystr) (metadatas : list Metadata)
| CollectionQuery (query_embedding : Embedding) (n_results : Z)
| CollectionCount.

Record World : Type := {
  collection : Collection;
  calls : list Call;
}.

(** The two collaborators of [ChromaManager]: the embedding model and the
    collection. Each may answer or raise, and may take into account
    everything that happened before. *)
Record Backend : Type := {
  embed_documents : World -> list pystr -> result (list Embedding);
  embed_query : World -> pystr -> result Embedding;
  collection_add :
    World -> list pystr -> list Embedding -> list pystr -> list Metadata ->
    result unit * Collection;
  collection_query : World -> Embedding -> Z -> result QueryResult;
  collection_count : World -> result Z;
}.

(** Code with effects: a result and the world after it. *)
Definition M (A : Type) : Type := World -> result A * World.

#[export] Instance M_ret : MRet M := fun A a w => (Ok a, w).
#[export] Instance M_bind : MBind M := fun A B k m w =>
  match m w with
  | (Ok a, w') => k a w'
  | (Raise e, w') => (Raise e, w')
  end.

Definition lift {A} (r : result A) : M A := fun w => (r, w).

(** [try: body  except Exception: handler] *)
Definition try_catch {A} (body : M A) (handler : exn -> M A) : M A :=
  fun w =>
    match body w with
    | (Ok a, w') => (Ok a, w')
    | (Raise e, w') => handler e w'
    end.

Definition record (c : Call) (w : World) : World :=
  {| collection := collection w; calls := calls w ++ [c] |}.

(** ** The [add] of the Chroma collection

    [chroma_manager.py] writes with [collection.add]. As the dependency
    documents it, [add] refuses an empty batch, a batch whose columns
    differ in length and a batch that repeats an id, and it leaves alone a
    record whose id the collection already holds: that record is neither
    replaced nor doubled. (Replacing is what [collection.upsert] does.) *)

Module Chroma.

Definition add_record (c : Collection) (r : pystr * VectorRecord) : Collection :=
  match c !! r.1 with
  | Some _ => c
  | None => <[r.1 := r.2]> c
  end.

Definition make_records (ids : list pystr) (embeddings : list Embedding)
  (documents : list pystr) (metadatas : list Metadata)
  : list (pystr * VectorRecord) :=
  zip ids
    (zip_with (fun e dm => {| embedding := e; document := dm.1;
                              record_metadata := dm.2 |})
       embeddings (zip documents metadatas)).

Definition add (c : Collection) (ids : list pystr) (embeddings : list Embedding)
  (documents : list pystr) (metadatas : list Metadata)
  : result unit * Collection :=
  if negb (nonempty ids) then (Raise (ValueError "Expected IDs to be a non-empty list"), c)
  else if negb ((length embeddings =? length ids)%nat
                && (length documents =? length ids)%nat
                && (length metadatas =? length ids)%nat)
  then (Raise (ValueError "Unequal lengths"), c)
  else if negb (bool_decide (NoDup ids))
  then (Raise DuplicateIDError, c)
  else (Ok tt, fold_left add_record (make_records ids embeddings documents metadatas) c).

(** A backend whose collection is this one; the other collaborators are
    left open. *)
Definition backend
  (embed_documents : World -> list pystr -> result (list Embedding))
  (embed_query : World -> pystr -> result Embedding)
  (collection_query : World -> Embedding -> Z -> result QueryResult)
  : Backend :=
  Build_Backend embed_documents embed_query (fun w => add (collection w))
    collection_query (fun w => Ok (Z.of_nat (size (collection w)))).

End Chroma.

(** ** chroma_manager.py *)

Module SearchResult.
Record t : Type := {
  text : pystr;
  metadata : Metadata;
  distance : float;
}.
End SearchResult.

Module ChromaManager.
Section WithBackend.
Variable B : Backend.

(** [self.embeddings.embed_documents(texts)] *)
Definition call_embed_documents (texts : list pystr) : M (list Embedding) :=
  fun w => (embed_documents B w texts, record (EmbedDocuments texts) w).

(** [self.embeddings.embed_query(query)] *)
Definition call_embed_query (query : pystr) : M Embedding :=
  fun w => (embed_query B w query, record (EmbedQuery query) w).

(** [self.collection.add(ids=..., embeddings=..., documents=..., metadatas=...)] *)
Definition call_collection_add (ids : list pystr) (embeddings : list Embedding)
  (documents : list pystr) (metadatas : list Metadata) : M unit :=
  fun w =>
    let '(r, c) := collection_add B w ids embeddings documents metadatas in
    (r, {| collection := c;
           calls := calls w ++ [CollectionAdd ids embeddings documents metadatas] |}).

(** [self.collection.query(query_embeddings=[e], n_results=n, include=[...])] *)
Definition call_collection_query (query_embedding : Embedding) (n_results : Z)
  : M QueryResult :=
  fun w => (collection_query B w query_embedding n_results,
            record (CollectionQuery query_embedding n_results) w).

(** [self.collection.count()] *)
Definition call_collection_count : M Z :=
  fun w => (collection_count B w, record CollectionCount w).

(** [d[key]] on a metadata dict. *)
Definition getitem (d : Metadata) (key : string) : result MetaValue :=
  match d !! key with
  | Some v => Ok v
  | None => Raise (KeyError key)
  end.

(** [f"{chunk['metadata']['source']}_{chunk['metadata']['page']}_{chunk['metadata']['chunk_index']}"] *)
Definition chunk_id (chunk : Doc.t) : result pystr :=
  source ← getitem (Doc.metadata chunk) "source";
  page ← getitem (Doc.metadata chunk) "page";
  chunk_index ← getitem (Doc.metadata chunk) "chunk_index";
  mret (str source ++ lit "_" ++ str page ++ lit "_" ++ str chunk_index).

(** The last [print] of the [try] block reads [self.collection.count()]. *)
Definition add_documents (chunks : list Doc.t) : M bool :=
  if negb (nonempty chunks) then mret false
  else
    try_catch
      (let texts := map Doc.text chunks in
       let metadatas := map Doc.metadata chunks in
       ids ← lift (traverse chunk_id chunks);
       embeddings ← call_embed_documents texts;
       _ ← call_collection_add ids embeddings texts metadatas;
       _ ← call_collection_count;
       mret true)
      (fun e => mret false).

(** [xs[i]] on a list, [xs] possibly [None]. *)
Definition index {A} (xs : option (list A)) (i : nat) : result A :=
  match xs with
  | None => Raise TypeError
  | Some l =>
      match l !! i with
      | Some x => Ok x
      | None => Raise IndexError
      end
  end.

(** [results[column][0][i]] *)
Definition cell {A} (column : option (list (list A))) (i : nat) : result A :=
  row ← index column 0;
  index (Some row) i.

Definition format_results (results : QueryResult)
  : result (list SearchResult.t) :=
  match documents results with
  | Some (row0 :: _) =>
      if nonempty row0 then
        for_each
          (fun formatted_results i =>
             text ← cell (documents results) i;
             metadata ← cell (metadatas results) i;
             distance ← cell (distances results) i;
             mret (formatted_results ++
                   [{| SearchResult.text := text;
                       SearchResult.metadata := metadata;
                       SearchResult.distance := distance |}]))
          (seq 0 (length row0)) []
      else mret []
  | _ => mret []
  end.

Definition search (query : pystr) (n_results : Z) : M (list SearchResult.t) :=
  try_catch
    (query_embedding ← call_embed_query query;
     results ← call_collection_query query_embedding n_results;
     lift (format_results results))
    (fun e => mret []).

Definition search_with_threshold (query : pystr) (threshold : float)
  (n_results : Z) : M (list SearchResult.t * bool) :=
  results ← search query n_results;
  match results with
  | [] => mret ([], false)
  | r0 :: _ =>
      let best_distance := SearchResult.distance r0 in
      if PrimFloat.leb best_distance threshold
      then mret (results, true)
      else mret ([], false)
  end.

End WithBackend.
End ChromaManager.

(** ** rag_manager.py *)

Module RAGManager.

Record t : Type := {
  documents_dir : pystr;
  threshold : float;
  document_processor : DocumentProcessor.t;
}.

(** The dict returned by [get_rag_response_data]. *)
Record ResponseData : Type := {
  use_rag : bool;
  context : pystr;
  prompt : pystr;
  search_results : list SearchResult.t;
}.

(** [d.get(key, default)] followed by the f-string's [str]. *)
Definition get_str (d : Metadata) (key : string) (default : pystr) : pystr :=
  match d !! key with
  | Some v => str v
  | None => default
  end.

(** [f"【参照資料{i}】({source} / ページ{page})\n{text}"] *)
Definition context_part (i : Z) (result : SearchResult.t) : pystr :=
  let source := get_str (SearchResult.metadata result) "source" (lit "不明") in
  let page := get_str (SearchResult.metadata result) "page" (lit "?") in
  let text := SearchResult.text result in
  lit "【参照資料" ++ str_of_int i ++ lit "】(" ++ source ++ lit " / ページ"
  ++ page ++ lit ")" ++ [10%N] ++ text.

Definition build_rag_context (search_results : list SearchResult.t) : pystr :=
  if negb (nonempty search_results) then []
  else
    let context_parts :=
      fold_left
        (fun context_parts '(i, result) => context_parts ++ [context_part i result])
        (enumerate 1 search_results) [] in
    join [10%N; 10%N] context_parts.

Definition build_rag_prompt (user_question context : pystr) : pystr :=
  lit "以下の参照資料に基づいて、ユーザーの質問に回答してください。    " ++ [10%N]
  ++ [10%N]
  ++ lit "【重要なルール】" ++ [10%N]
  ++ lit "1. NSC業務フローに基づき、またはネットサービスセンターのローカルルールによると、という接頭語を付けて回答してください" ++ [10%N]
  ++ lit "2. 参照資料に書かれている情報のみを使用してください" ++ [10%N]
  ++ lit "3. 参照資料にない情報は「資料に記載がありません」と伝えてください" ++ [10%N]
  ++ lit "4. 具体的なコード名やルール名がある場合は、それを明記してください" ++ [10%N]
  ++ [10%N]
  ++ lit "===== 参照資料 =====" ++ [10%N]
  ++ context ++ [10%N]
  ++ lit "====================" ++ [10%N]
  ++ [10%N]
  ++ lit "ユーザーの質問: " ++ user_question ++ [10%N]
  ++ [10%N]
  ++ lit "上記の参照資料に基づいて回答してください:".

Section WithBackend.
Variable B : Backend.
Variable self : t.

(** [query(user_question, n_results=3)] *)
Definition query (user_question : pystr) (n_results : Z)
  : M (list SearchResult.t * bool) :=
  ChromaManager.search_with_threshold B user_question (threshold self) n_results.

Definition get_rag_response_data (user_question : pystr) : M ResponseData :=
  '(results, use_rag) ← query user_question 3;
  if negb use_rag then
    mret {| use_rag := false; context := []; prompt := [];
            search_results := [] |}
  else
    let context := build_rag_context results in
    let prompt := build_rag_prompt user_question context in
    mret {| use_rag := true; context := context; prompt := prompt;
            search_results := results |}.

(** [process_and_store_pdf], over the readers of [DocumentProcessor]. *)
Definition process_and_store_pdf
  (path_name : pystr -> pystr)
  (fitz_open : pystr -> result PdfDocument)
  (pdf_path : pystr) : M bool :=
  chunks ← lift (DocumentProcessor.process_pdf path_name fitz_open
                   (document_processor self) pdf_path);
  if negb (nonempty chunks) then mret false
  else ChromaManager.add_documents B chunks.

End WithBackend.
End RAGManager.

(** ** The wording of the specification

    Definitions that follow the specification's sentences, to be compared
    with the code above. *)

Module Spec.

(** The lowest distance of a non-empty result set. *)
Definition lowest_distance (r0 : SearchResult.t) (rest : list SearchResult.t)
  : float :=
  fold_left
    (fun best r =>
       if PrimFloat.ltb (SearchResult.distance r) best
       then SearchResult.distance r else best)
    rest (SearchResult.distance r0).

(** [decide]: empty result set, no grounding; otherwise the lowest
    distance alone decides, and all results are accepted or none. *)
Definition decide (results : list SearchResult.t) (threshold : float)
  : list SearchResult.t * bool :=
  match results with
  | [] => ([], false)
  | r0 :: rest =>
      if PrimFloat.leb (lowest_distance r0 rest) threshold
      then (results, true)
      else ([], false)
  end.

(** Search results come ordered by ascending distance. *)
Definition ascending (results : list SearchResult.t) : Prop :=
  Sorted
    (fun a b => PrimFloat.leb (SearchResult.distance a) (SearchResult.distance b) = true)
    results.

(** ["{source}_{page}_{chunk_index}"] *)
Definition record_id (source page chunk_index : MetaValue) : pystr :=
  str source ++ lit "_" ++ str page ++ lit "_" ++ str chunk_index.

(** A chunk's provenance: the three metadata entries. *)
Definition provenance (chunk : Doc.t) (p : MetaValue * MetaValue * MetaValue)
  : Prop :=
  Doc.metadata chunk !! "source" = Some p.1.1
  /\ Doc.metadata chunk !! "page" = Some p.1.2
  /\ Doc.metadata chunk !! "chunk_index" = Some p.2.

Definition id_of (p : MetaValue * MetaValue * MetaValue) : pystr :=
  record_id p.1.1 p.1.2 p.2.

(** The ids of the batches handed to [collection.add], oldest first. *)
Definition ids_added (cs : list Call) : list (list pystr) :=
  omap (fun c => match c with CollectionAdd ids _ _ _ => Some ids | _ => None end) cs.

(** The numbered block of one search result. *)
Definition block (number : Z) (source page text : pystr) : pystr :=
  lit "【参照資料" ++ str_of_int number ++ lit "】(" ++ source ++ lit " / ページ"
  ++ page ++ lit ")" ++ [10%N] ++ text.


End Spec.

(** ** Concrete collaborators, for examples *)

Module Demo.

Definition near : float := 0.25%float.
Definition far : float := 0.75%float.

Definition meta (source : string) (page : Z) : Metadata :=
  <["page" := MInt page]> (<["source" := MStr (lit source)]> ∅).

(** A collection that answers every query with the same two records, at
    distances [d0] and [d1]. *)
Definition answers (d0 d1 : float) : QueryResult :=
  {| documents := Some [[lit "審査の流れ"; lit "書類不備"]];
     metadatas := Some [[meta "rules.pdf" 3; meta "flow.pdf" 1]];
     distances := Some [[d0; d1]] |}.

Definition backend (d0 d1 : float) : Backend :=
  Chroma.backend
    (fun _ texts => Ok (map (fun _ => [0%float]) texts))
    (fun _ _ => Ok [0%float])
    (fun _ _ _ => Ok (answers d0 d1)).

Definition world0 : World := {| collection := ∅; calls := [] |}.

Definition chunk (source : string) (page chunk_index : Z) (text : string)
  : Doc.t :=
  {| Doc.text := lit text;
     Doc.metadata := <["chunk_index" := MInt chunk_index]> (meta source page) |}.

Definition manager (threshold : float) : RAGManager.t :=
  {| RAGManager.documents_dir := lit "data/documents";
     RAGManager.threshold := threshold;
     RAGManager.document_processor := DocumentProcessor.constructed 500 100 |}.

(** A page of 400 [a], a blank line and 499 [b]. *)
Definition two_paragraphs : Doc.t :=
  {| Doc.text := replicate 400 97%N ++ [10%N; 10%N] ++ replicate 499 98%N;
     Doc.metadata := meta "rules.pdf" 1 |}.

Definition short_page : Doc.t :=
  {| Doc.text := lit "審査の流れ"; Doc.metadata := meta "rules.pdf" 2 |}.

(** A collection that already holds one record under the id of the first
    chunk of page 3 of [rules.pdf]. *)
Definition old_record : VectorRecord :=
  {| embedding := [1%float]; document := lit "old text";
     record_metadata := <["chunk_index" := MInt 0]> (meta "rules.pdf" 3) |}.

Definition world_old : World :=
  {| collection := {[ lit "rules.pdf_3_0" := old_record ]}; calls := [] |}.

(** A PDF of two pages, and a reader that finds it under every path. *)
Definition pdf : PdfDocument :=
  {| get_text := [Ok (lit "審査の流れ"); Ok (lit "書類不備")]; close := Ok tt |}.

Definition fitz_open (path : pystr) : result PdfDocument := Ok pdf.

(** The world after the PDF has been ingested once into the empty
    collection. *)
Definition after_file : World :=
  (RAGManager.process_and_store_pdf (backend near far) (manager 0.5%float)
     (fun p => p) fitz_open (lit "rules.pdf") world0).2.

Definition batch : list Doc.t :=
  [chunk "rules.pdf" 3 0 "審査の流れ"; chunk "rules.pdf" 4 1 "書類不備"].

(** The world after [batch] has been ingested once into the empty
    collection. *)
Definition after_first : World :=
  (ChromaManager.add_documents (backend near far) batch world0).2.

End Demo.

(** ** What the splitter's loops maintain *)

(** A string fits when it is no longer than the chunk size. *)
Definition fits (self : TextSplitter.t) (s : pystr) : Prop :=
  len s <= TextSplitter._chunk_size self.

(** In [_merge_splits]: the emitted documents fit, and [total] is the
    length of [current_doc], which fits too. *)
Definition merge_inv (self : TextSplitter.t)
  (st : list pystr * list pystr * Z) : Prop :=
  Forall (fits self) st.1.1 /\ st.2 = len (concat st.1.2)
  /\ fits self (concat st.1.2).

(** In [_split_text]: the chunks so far fit, and so do the pieces waiting
    to be merged. *)
Definition split_inv (self : TextSplitter.t)
  (st : list pystr * list pystr) : Prop :=
  Forall (fits self) st.1 /\ Forall (fits self) st.2.

(** What a piece that is not shorter than the chunk size becomes: kept
    as it is when no separator is left, split further otherwise. *)
Definition recurse_ok (self : TextSplitter.t)
  (recurse : option (pystr -> result (list pystr))) (s : pystr) : Prop :=
  match recurse with
  | None => fits self s
  | Some f => exists chunks, f s = Ok chunks /\ Forall (fits self) chunks
  end.

(** In [split_into_chunks]: [chunk_index] counts the chunks made so far,
    every chunk fits, and every chunk carries its position as its
    [chunk_index]. *)
Definition chunks_inv (self : DocumentProcessor.t)
  (st : list Doc.t * Z) : Prop :=
  st.2 = Z.of_nat (length st.1)
  /\ Forall (fun c => len (Doc.text c) <= DocumentProcessor.chunk_size self) st.1
  /\ (forall (i : nat) (c : Doc.t),
        st.1 !! i = Some c ->
        Doc.metadata c !! "chunk_index" = Some (MInt (Z.of_nat i))).

(** * The rest of the three files, and their callers *)

(** ** chroma_manager.py: statistics, clearing and deleting *)

(** [a < b] on strings: code point by code point. *)
Fixpoint str_ltb (a b : pystr) : bool :=
  match a, b with
  | _, [] => false
  | [], _ :: _ => true
  | x :: a', y :: b' =>
      if (x <? y)%N then true
      else if (x =? y)%N then str_ltb a' b'
      else false
  end.

(** [not b < a]: the order [sorted] puts strings in. *)
Definition str_le (a b : pystr) : Prop := str_ltb b a = false.

#[export] Instance str_le_dec : RelDecision str_le :=
  fun a b => decide (str_ltb b a = false).

(** [bool(v)] for a metadata value. *)
Definition truthy (v : MetaValue) : bool :=
  match v with
  | MStr s => nonempty s
  | MInt n => negb (n =? 0)
  end.

#[export] Instance MetaValue_eq_dec : EqDecision MetaValue.
Proof. solve_decision. Defined.

#[export] Instance MetaValue_countable : Countable MetaValue :=
  inj_countable'
    (fun v => match v with MStr s => inl s | MInt n => inr n end)
    (fun x => match x with inl s => MStr s | inr n => MInt n end)
    (fun v => match v with MStr _ => eq_refl | MInt _ => eq_refl end).

(** [sorted(xs)]: strings among themselves and integers among themselves
    are put in ascending order by a stable merge on [<]; a string cannot
    be compared with an integer. *)
Definition strings_of (xs : list MetaValue) : option (list pystr) :=
  mapM (fun v => match v with MStr s => Some s | MInt _ => None end) xs.

Definition ints_of (xs : list MetaValue) : option (list Z) :=
  mapM (fun v => match v with MInt n => Some n | MStr _ => None end) xs.

Definition sorted (xs : list MetaValue) : result (list MetaValue) :=
  match strings_of xs, ints_of xs with
  | Some ss, _ =>
      Ok (MStr <$> merge_sort str_le ss)
  | None, Some ns => Ok (MInt <$> merge_sort Z.le ns)
  | None, None => Raise TypeError
  end.

(** The collection and its client beyond [add], [query] and [count]:
    [collection.get(include=["metadatas"])["metadatas"]],
    [collection.delete(where={"source": name})],
    [client.delete_collection(name)] and
    [client.create_collection(name, ...)]. *)
Record Admin : Type := {
  collection_get : World -> result (option (list Metadata));
  collection_delete : World -> pystr -> result unit * Collection;
  client_delete_collection : World -> pystr -> result unit * Collection;
  client_create_collection : World -> pystr -> result unit * Collection;
}.

(** The dict returned by [get_collection_info]. *)
Module CollectionInfo.
Record t : Type := {
  name : pystr;
  chunk_count : Z;
  file_count : Z;
  persist_directory : pystr;
}.
End CollectionInfo.

Module Store.

(** The two settings [ChromaManager] keeps beside its handles. *)
Record t : Type := {
  persist_directory : pystr;
  collection_name : pystr;
}.

Section WithBackend.
Variable B : Backend.
Variable A : Admin.
Variable self : t.

(** [self.collection.get(include=["metadatas"])["metadatas"]]. The list
    [calls] keeps the embedding calls and the collection's [add], [query]
    and [count]; reading the metadata, deleting and clearing are not
    entered in it. *)
Definition call_collection_get : M (option (list Metadata)) :=
  fun w => (collection_get A w, w).

(** A call that may change the collection. *)
Definition call (op : World -> result unit * Collection) : M unit :=
  fun w => let '(r, c) := op w in (r, {| collection := c; calls := calls w |}).

(** The body of the loop that gathers the sources:
    [metadata.get("source")], added to the set when truthy. *)
Definition add_source (sources : gset MetaValue) (metadata : Metadata)
  : gset MetaValue :=
  match metadata !! "source" with
  | Some source => if truthy source then sources ∪ {[source]} else sources
  | None => sources
  end.

Definition gather_sources (metadatas : option (list Metadata)) : gset MetaValue :=
  match metadatas with
  | Some (m :: ms) => fold_left add_source (m :: ms) ∅
  | _ => ∅
  end.

Definition get_unique_sources_count : M Z :=
  try_catch
    (count ← ChromaManager.call_collection_count B;
     if count =? 0 then mret 0
     else
       metadatas ← call_collection_get;
       let sources := gather_sources metadatas in
       mret (Z.of_nat (size sources)))
    (fun e => mret 0).

Definition get_source_list : M (list MetaValue) :=
  try_catch
    (count ← ChromaManager.call_collection_count B;
     if count =? 0 then mret []
     else
       metadatas ← call_collection_get;
       let sources := gather_sources metadatas in
       lift (sorted (elements sources)))
    (fun e => mret []).

(** The dict is built entry by entry; its [count()] is outside any
    [try]. *)
Definition get_collection_info : M CollectionInfo.t :=
  chunk_count ← ChromaManager.call_collection_count B;
  file_count ← get_unique_sources_count;
  mret {| CollectionInfo.name := collection_name self;
          CollectionInfo.chunk_count := chunk_count;
          CollectionInfo.file_count := file_count;
          CollectionInfo.persist_directory := persist_directory self |}.

Definition clear_collection : M bool :=
  try_catch
    (_ ← call (fun w => client_delete_collection A w (collection_name self));
     _ ← call (fun w => client_create_collection A w (collection_name self));
     mret true)
    (fun e => mret false).

Definition delete_by_source (source_name : pystr) : M bool :=
  try_catch
    (_ ← call (fun w => collection_delete A w source_name);
     mret true)
    (fun e => mret false).

End WithBackend.
End Store.

(** ** The rest of the Chroma collection

    As the dependency documents them: [get] returns the metadata of every
    record, [delete] with the filter [{"source": name}] removes the
    records whose [source] is that string and no other, and a collection
    deleted and created again is empty. *)

Module ChromaAdmin.

Definition get (c : Collection) : result (option (list Metadata)) :=
  Ok (Some (record_metadata <$> (map_to_list c).*2)).

Definition delete (c : Collection) (source_name : pystr)
  : result unit * Collection :=
  (Ok tt,
   filter (fun kv => record_metadata kv.2 !! "source" <> Some (MStr source_name)) c).

Definition admin : Admin :=
  Build_Admin (fun w => get (collection w)) (fun w => delete (collection w))
    (fun _ _ => (Ok tt, ∅)) (fun _ _ => (Ok tt, ∅)).

End ChromaAdmin.

(** ** document_processor.py: a whole directory *)

Module Directory.
Section Scan.

(** Beside the readers of [DocumentProcessor]: [Path(p).exists()] and
    [list(Path(p).glob(pattern))], the paths as strings. *)
Variable path_name : pystr -> pystr.
Variable fitz_open : pystr -> result PdfDocument.
Variable read_file : pystr -> result pystr.
Variable soup_get_text : pystr -> result pystr.
Variable path_exists : pystr -> result bool.
Variable glob : pystr -> pystr -> result (list pystr).
Variable self : DocumentProcessor.t.

Definition process_directory (directory_path : pystr) : result (list Doc.t) :=
  found ← path_exists directory_path;
  if negb found then mret []
  else
    pdf_files ← glob directory_path (lit "*.pdf");
    html_files ← glob directory_path (lit "*.html");
    let total_files :=
      Z.of_nat (length pdf_files) + Z.of_nat (length html_files) in
    if total_files =? 0 then mret []
    else
      all_chunks ←
        for_each
          (fun all_chunks pdf_file =>
             chunks ← DocumentProcessor.process_pdf path_name fitz_open self pdf_file;
             mret (all_chunks ++ chunks))
          pdf_files [];
      for_each
        (fun all_chunks html_file =>
           chunks ← DocumentProcessor.process_html path_name read_file
                      soup_get_text self html_file;
           mret (all_chunks ++ chunks))
        html_files all_chunks.

End Scan.
End Directory.

(** ** rag_manager.py: the directory, reloading, status *)

(** [GOOGLE_DRIVE_LINKS] *)
Definition GOOGLE_DRIVE_LINKS : gmap pystr pystr :=
  <[lit "acom_customer_record_rules.pdf" :=
      lit "https://drive.google.com/file/d/1x7v3R6Fqphg96j-VaK6bX26zF3LoW9qi/view?usp=drive_link"]>
  (<[lit "acom_documents_mapping.pdf" :=
      lit "https://drive.google.com/file/d/1x48SomSfB3L0m7v85jotNB1cNQ2e36aE/view?usp=drive_link"]>
  (<[lit "acom_workflow_rag.pdf" :=
      lit "https://drive.google.com/file/d/1nJv48_0QCg6BF-wyXYR0mvjSF5wiITYY/view?usp=drive_link"]>
   ∅)).

(** The dict returned by [get_status]. *)
Module Status.
Record t : Type := {
  documents_dir : pystr;
  collection_info : CollectionInfo.t;
  threshold : float;
}.
End Status.

Module Pipeline.
Section WithBackend.
Variable B : Backend.
Variable A : Admin.
Variable path_name : pystr -> pystr.
Variable fitz_open : pystr -> result PdfDocument.
Variable read_file : pystr -> result pystr.
Variable soup_get_text : pystr -> result pystr.
Variable path_exists : pystr -> result bool.
Variable glob : pystr -> pystr -> result (list pystr).
Variable chroma_manager : Store.t.
Variable self : RAGManager.t.

Definition process_all_pdfs : M bool :=
  all_chunks ← lift (Directory.process_directory path_name fitz_open read_file
                       soup_get_text path_exists glob
                       (RAGManager.document_processor self)
                       (RAGManager.documents_dir self));
  if negb (nonempty all_chunks) then mret false
  else ChromaManager.add_documents B all_chunks.

(** The result of [clear_collection] is not looked at. *)
Definition reload_documents : M bool :=
  _ ← Store.clear_collection A chroma_manager;
  process_all_pdfs.

Definition get_status : M Status.t :=
  collection_info ← Store.get_collection_info B A chroma_manager;
  mret {| Status.documents_dir := RAGManager.documents_dir self;
          Status.collection_info := collection_info;
          Status.threshold := RAGManager.threshold self |}.

End WithBackend.

(** [GOOGLE_DRIVE_LINKS.get(filename, default)], the default being the
    empty string. *)
Definition get_google_drive_link (filename : pystr) : pystr :=
  default [] (GOOGLE_DRIVE_LINKS !! filename).

End Pipeline.

(** ** chat_manager.py and gui.py: what they do with the RAG manager *)

Module ChatManager.
Section WithBackend.
Variable B : Backend.
Variable A : Admin.

(** [is_rag_enabled]; [rag_manager] is [None] or the manager with its
    store. *)
Definition is_rag_enabled (rag_manager : option (RAGManager.t * Store.t))
  : M bool :=
  match rag_manager with
  | None => mret false
  | Some (rag, store) =>
      status ← Pipeline.get_status B A store rag;
      mret (0 <? CollectionInfo.chunk_count (Status.collection_info status))
  end.

End WithBackend.
End ChatManager.

(** Of [_process_ai_response_with_rag], the two decisions that do not
    draw on the screen: whether the answer is generated from the RAG
    prompt, and the chunk records handed to [_add_ai_message]. *)
Module GUI.

Record SavedChunk : Type := {
  chunk_id : pystr;
  similarity_score : float;
  source : MetaValue;
}.

(** [d.get(key, default)] *)
Definition get (d : Metadata) (key : string) (default : pystr) : MetaValue :=
  match d !! key with
  | Some v => v
  | None => MStr default
  end.

(** [if use_rag and rag_context:] *)
Definition rag_mode (rag_data : RAGManager.ResponseData) : bool :=
  RAGManager.use_rag rag_data && nonempty (RAGManager.context rag_data).

Definition saved_chunk (doc : SearchResult.t) : SavedChunk :=
  let metadata := SearchResult.metadata doc in
  {| chunk_id :=
       str (get metadata "source" []) ++ lit "_" ++ str (get metadata "page" [])
       ++ lit "_" ++ str (get metadata "chunk_index" []);
     similarity_score := SearchResult.distance doc;
     source := get metadata "source" (lit "不明") |}.

Definition chunks_to_save (use_rag : bool) (search_results : list SearchResult.t)
  : option (list SavedChunk) :=
  if use_rag && nonempty search_results
  then Some (fold_left (fun chunks doc => chunks ++ [saved_chunk doc])
               search_results [])
  else None.

End GUI.

(** ** Notions used by the further properties *)

(** [part] occurs in [whole] as a run of consecutive characters. *)
Definition occurs_in {A} (part whole : list A) : Prop :=
  exists before after, whole = before ++ part ++ after.

(** A non-empty run of consecutive characters of [whole]. *)
Definition excerpt (whole part : pystr) : Prop :=
  part <> [] /\ occurs_in part whole.

(** What the recursive call of [_split_text] gives for a piece, when
    there is one. *)
Definition recurse_excerpts (recurse : option (pystr -> result (list pystr)))
  : Prop :=
  match recurse with
  | None => True
  | Some f => forall s chunks, f s = Ok chunks -> Forall (excerpt s) chunks
  end.

(** A chunk made of [page]: a non-empty excerpt of the page's text under
    the page's metadata and a [chunk_index]. *)
Definition chunk_of (page chunk : Doc.t) : Prop :=
  excerpt (Doc.text page) (Doc.text chunk)
  /\ exists i : Z,
       Doc.metadata chunk = <["chunk_index" := MInt i]> (Doc.metadata page).

(** The chunks of the pages of one file: each carries the file's name,
    a page number and its position. *)
Definition chunks_of_file (file_name : pystr) (chunks : list Doc.t) : Prop :=
  forall (i : nat) (chunk : Doc.t),
    chunks !! i = Some chunk ->
    exists n : Z,
      Spec.provenance chunk (MStr file_name, MInt n, MInt (Z.of_nat i)).

(** ** More concrete data, for examples *)

Module Sample.

(** The two results the demonstration backend answers with. *)
Definition results (d0 d1 : float) : list SearchResult.t :=
  [ {| SearchResult.text := lit "審査の流れ";
       SearchResult.metadata := Demo.meta "rules.pdf" 3;
       SearchResult.distance := d0 |};
    {| SearchResult.text := lit "書類不備";
       SearchResult.metadata := Demo.meta "flow.pdf" 1;
       SearchResult.distance := d1 |} ].

Definition question : pystr := lit "審査の流れを教えて".

(** The world after one search from the empty world. *)
Definition searched : World :=
  {| collection := ∅;
     calls := [EmbedQuery question; CollectionQuery [0%float] 3] |}.

(** A documents directory with one PDF and one HTML file. *)
Definition path_exists (path : pystr) : result bool := Ok true.

Definition glob (directory pattern : pystr) : result (list pystr) :=
  if bool_decide (pattern = lit "*.pdf") then Ok [lit "rules.pdf"]
  else Ok [lit "flow.html"].

Definition read_file (path : pystr) : result pystr :=
  Ok (lit "<p>審査の流れ</p>").

Definition soup_get_text (html_content : pystr) : result pystr :=
  Ok (lit "審査の流れ").

Definition store : Store.t :=
  {| Store.persist_directory := lit "data/chroma_db";
     Store.collection_name := lit "acom_documents" |}.

(** The world after the directory has been reloaded over a collection
    that held one older record. *)
Definition reloaded : World :=
  (Pipeline.reload_documents (Demo.backend Demo.near Demo.far) ChromaAdmin.admin
     (fun p => p) Demo.fitz_open read_file soup_get_text path_exists glob
     store (Demo.manager 0.5%float) Demo.world_old).2.

End Sample.

(** * Properties *)

(** ** Unfolding the two monads *)

Lemma result_bind_Ok {A B} (a : A) (k : A -> result B) :
  (Ok a ≫= k) = k a.
Proof. reflexivity. Qed.

Lemma M_bind_unfold {A B} (m : M A) (k : A -> M B) (w : World) :
  (m ≫= k) w =
  match m w with
  | (Ok a, w') => k a w'
  | (Raise e, w') => (Raise e, w')
  end.
Proof. reflexivity. Qed.

Lemma try_catch_returns {A} (body : M A) (fallback : A) (w : World) :
  exists a w', try_catch body (fun _ => mret fallback) w = (Ok a, w').
Proof.
  unfold try_catch. destruct (body w) as [[a|e] w']; eauto.
Qed.

Lemma try_except_returns {A} (body : result A) (fallback : A) :
  exists a, try_except body (fun _ => Ok fallback) = Ok a.
Proof. destruct body; simpl; eauto. Qed.

(** A loop whose body raises at some element raises. *)
Lemma for_each_raises {S A} (step : S -> A -> result S) (xs : list A) (x : A) :
  In x xs -> (forall st, exists e, step st x = Raise e) ->
  forall st, exists e, for_each step xs st = Raise e.
Proof.
  intros Hin Hx. induction xs as [|y xs IH]; [destruct Hin|].
  intros st. simpl. destruct Hin as [->|Hin].
  - destruct (Hx st) as [e ->]. eauto.
  - destruct (step st y) as [st'|e]; simpl; eauto.
Qed.

(** ** The store wrapper and the extractors do not raise *)

(** C10. [add_documents] on an empty chunk list returns [False] and leaves
    the world as it was: the collection holds the records it held, and
    the list of calls made to the embedding service and to the collection
    has not grown. *)
Theorem add_documents_empty (B : Backend) (w : World) :
  ChromaManager.add_documents B [] w = (Ok false, w)
  /\ collection (ChromaManager.add_documents B [] w).2 = collection w
  /\ calls (ChromaManager.add_documents B [] w).2 = calls w.
Proof.
  unfold ChromaManager.add_documents. cbn [nonempty negb].
  repeat split.
Qed.

Section Extraction_total.
Variable path_name : pystr -> pystr.
Variable fitz_open : pystr -> result PdfDocument.
Variable read_file : pystr -> result pystr.
Variable soup_get_text : pystr -> result pystr.

Lemma extract_text_from_pdf_returns (pdf_path : pystr) :
  exists pages,
    DocumentProcessor.extract_text_from_pdf path_name fitz_open pdf_path = Ok pages.
Proof. apply try_except_returns. Qed.

Lemma extract_text_from_pdf_open_fails (pdf_path : pystr) (e : exn) :
  fitz_open pdf_path = Raise e ->
  DocumentProcessor.extract_text_from_pdf path_name fitz_open pdf_path = Ok [].
Proof.
  intros H. unfold DocumentProcessor.extract_text_from_pdf. rewrite H.
  reflexivity.
Qed.

Lemma enumerate_In {A} (xs : list A) (x : A) (start : Z) :
  In x xs -> exists i, In (i, x) (enumerate start xs).
Proof.
  revert start. induction xs as [|y xs IH]; intros start; [intros []|].
  intros [->|Hin]; simpl.
  - eauto.
  - destruct (IH (start + 1) Hin) as [i Hi]. eauto.
Qed.

Lemma extract_text_from_pdf_page_fails (pdf_path : pystr) doc (e : exn) :
  fitz_open pdf_path = Ok doc -> In (Raise e) (get_text doc) ->
  DocumentProcessor.extract_text_from_pdf path_name fitz_open pdf_path = Ok [].
Proof.
  intros H Hin. unfold DocumentProcessor.extract_text_from_pdf. rewrite H.
  rewrite result_bind_Ok.
  destruct (enumerate_In (get_text doc) (Raise e) 1 Hin) as [i Hi].
  match goal with
  | |- try_except (for_each ?f ?l ?s ≫= _) _ = _ =>
      assert (Hraise : exists e', for_each f l s = Raise e')
  end.
  { apply for_each_raises with (x := (i, Raise e)); [exact Hi|].
    intros st. exists e. reflexivity. }
  destruct Hraise as [e' ->]. reflexivity.
Qed.

Lemma extract_text_from_pdf_close_fails (pdf_path : pystr) doc (e : exn) :
  fitz_open pdf_path = Ok doc -> close doc = Raise e ->
  DocumentProcessor.extract_text_from_pdf path_name fitz_open pdf_path = Ok [].
Proof.
  intros H Hclose. unfold DocumentProcessor.extract_text_from_pdf. rewrite H.
  rewrite result_bind_Ok, Hclose.
  destruct (for_each _ _ _); reflexivity.
Qed.

Lemma extract_text_from_html_returns (html_path : pystr) :
  exists pages,
    DocumentProcessor.extract_text_from_html path_name read_file soup_get_text
      html_path = Ok pages.
Proof. apply try_except_returns. Qed.

Lemma extract_text_from_html_read_fails (html_path : pystr) (e : exn) :
  read_file html_path = Raise e ->
  DocumentProcessor.extract_text_from_html path_name read_file soup_get_text
    html_path = Ok [].
Proof.
  intros H. unfold DocumentProcessor.extract_text_from_html. rewrite H.
  reflexivity.
Qed.

Lemma extract_text_from_html_parse_fails (html_path content : pystr) (e : exn) :
  read_file html_path = Ok content -> soup_get_text content = Raise e ->
  DocumentProcessor.extract_text_from_html path_name read_file soup_get_text
    html_path = Ok [].
Proof.
  intros H1 H2. unfold DocumentProcessor.extract_text_from_html.
  rewrite H1, result_bind_Ok, H2. reflexivity.
Qed.

End Extraction_total.

Lemma add_documents_returns (B : Backend) (chunks : list Doc.t) (w : World) :
  exists b w', ChromaManager.add_documents B chunks w = (Ok b, w').
Proof.
  unfold ChromaManager.add_documents.
  destruct (negb (nonempty chunks)); [by eexists _, _|].
  apply try_catch_returns.
Qed.

Lemma search_returns (B : Backend) (query : pystr) (n_results : Z) (w : World) :
  exists results w', ChromaManager.search B query n_results w = (Ok results, w').
Proof. apply try_catch_returns. Qed.

(** C4. [add_documents] always returns a boolean and [search] always
    returns a list, whatever the embedding service and the collection do;
    the extractors always return a list, and the empty one when opening,
    reading, parsing or closing the file, or reading one of its pages,
    raises. *)
Theorem no_exception_escapes
  (B : Backend)
  (path_name : pystr -> pystr)
  (fitz_open : pystr -> result PdfDocument)
  (read_file soup_get_text : pystr -> result pystr) :
  (forall chunks w, exists b w',
      ChromaManager.add_documents B chunks w = (Ok b, w'))
  /\ (forall query n_results w, exists results w',
      ChromaManager.search B query n_results w = (Ok results, w'))
  /\ (forall pdf_path,
      (exists pages,
          DocumentProcessor.extract_text_from_pdf path_name fitz_open pdf_path
          = Ok pages)
      /\ (forall e, fitz_open pdf_path = Raise e ->
          DocumentProcessor.extract_text_from_pdf path_name fitz_open pdf_path
          = Ok [])
      /\ (forall doc e,
          fitz_open pdf_path = Ok doc ->
          In (Raise e) (get_text doc) \/ close doc = Raise e ->
          DocumentProcessor.extract_text_from_pdf path_name fitz_open pdf_path
          = Ok []))
  /\ (forall html_path,
      (exists pages,
          DocumentProcessor.extract_text_from_html path_name read_file
            soup_get_text html_path = Ok pages)
      /\ (forall e, read_file html_path = Raise e ->
          DocumentProcessor.extract_text_from_html path_name read_file
            soup_get_text html_path = Ok [])
      /\ (forall content e,
          read_file html_path = Ok content -> soup_get_text content = Raise e ->
          DocumentProcessor.extract_text_from_html path_name read_file
            soup_get_text html_path = Ok [])).
Proof.
  split; [intros; apply add_documents_returns|].
  split; [intros; apply search_returns|].
  split; intros path.
  - split; [apply extract_text_from_pdf_returns|].
    split; [intros e; apply extract_text_from_pdf_open_fails|].
    intros doc e Hopen [Hpage|Hclose].
    + exact (extract_text_from_pdf_page_fails _ _ _ _ _ Hopen Hpage).
    + exact (extract_text_from_pdf_close_fails _ _ _ _ _ Hopen Hclose).
  - split; [apply extract_text_from_html_returns|].
    split; [intros e; apply extract_text_from_html_read_fails|].
    intros content e. apply extract_text_from_html_parse_fails.
Qed.

(** A backend that fails at every call, and a file that cannot be opened. *)
Lemma no_exception_escapes_witness :
  DocumentProcessor.extract_text_from_pdf (fun p => p)
    (fun _ => Raise (ServiceError 1)) (lit "missing.pdf") = Ok [].
Proof.
  pose proof (no_exception_escapes (Demo.backend Demo.near Demo.far)
                (fun p => p) (fun _ => Raise (ServiceError 1))
                (fun _ => Raise (ServiceError 2)) (fun _ => Raise (ServiceError 3)))
    as (_ & _ & Hpdf & _).
  destruct (Hpdf (lit "missing.pdf")) as (_ & Hopen & _).
  apply (Hopen (ServiceError 1)). reflexivity.
Defined.

(** ** The threshold gate *)

Ltac cmp_cases :=
  repeat match goal with
  | |- context [Z.compare ?a ?b] => destruct (Z.compare_spec a b); subst
  | H : context [Z.compare ?a ?b] |- _ => destruct (Z.compare_spec a b); subst
  | |- context [Pos.compare ?a ?b] => destruct (Pos.compare_spec a b); subst
  | H : context [Pos.compare ?a ?b] |- _ => destruct (Pos.compare_spec a b); subst
  end; simpl in *; try reflexivity; try discriminate; try lia.

Lemma SFleb_trans a b c :
  SFleb a b = true -> SFleb b c = true -> SFleb a c = true.
Proof.
  unfold SFleb.
  destruct a as [[]|[]| |[] ma ea], b as [[]|[]| |[] mb eb],
           c as [[]|[]| |[] mc ec];
    simpl; try reflexivity; try discriminate;
    change (Pos.compare_cont Eq) with Pos.compare; intros H1 H2; cmp_cases.
Qed.

Lemma SFleb_not_ltb a b : SFleb a b = true -> SFltb b a = false.
Proof.
  unfold SFleb, SFltb.
  destruct a as [[]|[]| |[] ma ea], b as [[]|[]| |[] mb eb];
    simpl; try reflexivity; try discriminate;
    change (Pos.compare_cont Eq) with Pos.compare; intros H1; cmp_cases.
Qed.

Lemma float_leb_trans (a b c : float) :
  PrimFloat.leb a b = true -> PrimFloat.leb b c = true ->
  PrimFloat.leb a c = true.
Proof. rewrite !leb_spec. apply SFleb_trans. Qed.

Lemma float_leb_not_ltb (a b : float) :
  PrimFloat.leb a b = true -> PrimFloat.ltb b a = false.
Proof. rewrite leb_spec, ltb_spec. apply SFleb_not_ltb. Qed.

(** In an ascending result set the first distance is the lowest. *)
Lemma lowest_distance_head (r0 : SearchResult.t) (rest : list SearchResult.t) :
  Spec.ascending (r0 :: rest) ->
  Spec.lowest_distance r0 rest = SearchResult.distance r0.
Proof.
  intros Hs. apply Sorted_StronglySorted in Hs.
  2:{ intros a b c. apply float_leb_trans. }
  apply StronglySorted_inv in Hs as [_ Hall].
  unfold Spec.lowest_distance.
  induction rest as [|r rest IH]; [reflexivity|].
  simpl. rewrite Forall_cons in Hall. destruct Hall as [Hr Hall].
  rewrite (float_leb_not_ltb _ _ Hr). apply IH, Hall.
Qed.

Lemma search_with_threshold_unfold (B : Backend) query threshold n_results w
  results w' :
  ChromaManager.search B query n_results w = (Ok results, w') ->
  ChromaManager.search_with_threshold B query threshold n_results w =
  (Ok match results with
      | [] => ([], false)
      | r0 :: _ =>
          if PrimFloat.leb (SearchResult.distance r0) threshold
          then (results, true) else ([], false)
      end, w').
Proof.
  intros H. unfold ChromaManager.search_with_threshold.
  rewrite M_bind_unfold, H.
  destruct results as [|r0 rest]; [reflexivity|].
  destruct (PrimFloat.leb _ _); reflexivity.
Qed.

(** C1. Whatever the query, the threshold, the number of results asked
    for and the backend: when the search hands back its results in
    ascending order of distance, [search_with_threshold] returns what the
    specified decision procedure returns on them: nothing and [False] for
    an empty result set, all results and [True] when the lowest distance
    is at most the threshold, nothing and [False] otherwise. *)
Theorem search_with_threshold_decides (B : Backend) (query : pystr)
  (threshold : float) (n_results : Z) (w w' : World)
  (results : list SearchResult.t) :
  ChromaManager.search B query n_results w = (Ok results, w') ->
  Spec.ascending results ->
  ChromaManager.search_with_threshold B query threshold n_results w =
  (Ok (Spec.decide results threshold), w').
Proof.
  intros Hsearch Hasc.
  rewrite (search_with_threshold_unfold _ _ _ _ _ _ _ Hsearch).
  destruct results as [|r0 rest]; [reflexivity|].
  unfold Spec.decide. rewrite (lowest_distance_head _ _ Hasc). reflexivity.
Qed.

Lemma search_with_threshold_returns (B : Backend) query threshold n_results w :
  exists r w',
    ChromaManager.search_with_threshold B query threshold n_results w = (Ok r, w').
Proof.
  destruct (search_returns B query n_results w) as (results & w' & H).
  rewrite (search_with_threshold_unfold _ _ _ _ _ _ _ H). eauto.
Qed.

Lemma search_with_threshold_false (B : Backend) query threshold n_results w
  results w' :
  ChromaManager.search_with_threshold B query threshold n_results w
  = (Ok (results, false), w') ->
  results = [].
Proof.
  destruct (search_returns B query n_results w) as (rs & w1 & H).
  rewrite (search_with_threshold_unfold _ _ _ _ _ _ _ H).
  destruct rs as [|r0 rest]; [congruence|].
  destruct (PrimFloat.leb _ _); congruence.
Qed.

Lemma demo_search (d0 d1 : float) :
  ChromaManager.search (Demo.backend d0 d1) (lit "審査の流れを教えて") 3 Demo.world0
  = (Ok [ {| SearchResult.text := lit "審査の流れ";
             SearchResult.metadata := Demo.meta "rules.pdf" 3;
             SearchResult.distance := d0 |};
          {| SearchResult.text := lit "書類不備";
             SearchResult.metadata := Demo.meta "flow.pdf" 1;
             SearchResult.distance := d1 |} ],
     {| collection := ∅;
        calls := [EmbedQuery (lit "審査の流れを教えて");
                  CollectionQuery [0%float] 3] |}).
Proof. reflexivity. Qed.

(** The best match at distance 0.25 passes a threshold of 0.5: both
    results are returned. *)
Lemma search_with_threshold_decides_witness :
  ChromaManager.search_with_threshold (Demo.backend Demo.near Demo.far)
    (lit "審査の流れを教えて") 0.5%float 3 Demo.world0
  = (Ok ([ {| SearchResult.text := lit "審査の流れ";
              SearchResult.metadata := Demo.meta "rules.pdf" 3;
              SearchResult.distance := Demo.near |};
           {| SearchResult.text := lit "書類不備";
              SearchResult.metadata := Demo.meta "flow.pdf" 1;
              SearchResult.distance := Demo.far |} ], true),
     {| collection := ∅;
        calls := [EmbedQuery (lit "審査の流れを教えて");
                  CollectionQuery [0%float] 3] |}).
Proof.
  apply (search_with_threshold_decides (Demo.backend Demo.near Demo.far)
           (lit "審査の流れを教えて") 0.5%float 3 Demo.world0 _ _
           (demo_search Demo.near Demo.far)).
  repeat constructor.
Defined.

(** ** The decision structure *)

Lemma get_rag_response_data_unfold (B : Backend) (self : RAGManager.t)
  user_question w results flag w' :
  ChromaManager.search_with_threshold B user_question
    (RAGManager.threshold self) 3 w = (Ok (results, flag), w') ->
  RAGManager.get_rag_response_data B self user_question w =
  (Ok (if flag
       then {| RAGManager.use_rag := true;
               RAGManager.context := RAGManager.build_rag_context results;
               RAGManager.prompt :=
                 RAGManager.build_rag_prompt user_question
                   (RAGManager.build_rag_context results);
               RAGManager.search_results := results |}
       else {| RAGManager.use_rag := false; RAGManager.context := [];
               RAGManager.prompt := []; RAGManager.search_results := [] |}),
   w').
Proof.
  intros H. unfold RAGManager.get_rag_response_data, RAGManager.query.
  rewrite M_bind_unfold, H. destruct flag; reflexivity.
Qed.

(** C5. Both the threshold search and [get_rag_response_data] always
    return; when the search returns [use_rag = False] its result list is
    empty, and when the decision structure has [use_rag = False] its
    context and prompt are the empty string and its search results the
    empty list. *)
Theorem ungrounded_payload_empty (B : Backend) (self : RAGManager.t)
  (query : pystr) (threshold : float) (n_results : Z) (w : World) :
  (exists r w',
      ChromaManager.search_with_threshold B query threshold n_results w
      = (Ok r, w'))
  /\ (forall results w',
      ChromaManager.search_with_threshold B query threshold n_results w
      = (Ok (results, false), w') -> results = [])
  /\ (exists d w', RAGManager.get_rag_response_data B self query w = (Ok d, w'))
  /\ (forall d w',
      RAGManager.get_rag_response_data B self query w = (Ok d, w') ->
      RAGManager.use_rag d = false ->
      RAGManager.context d = [] /\ RAGManager.prompt d = []
      /\ RAGManager.search_results d = []).
Proof.
  split; [apply search_with_threshold_returns|].
  split; [intros results w'; apply search_with_threshold_false|].
  destruct (search_with_threshold_returns B query (RAGManager.threshold self) 3 w)
    as ([results flag] & w1 & H).
  rewrite (get_rag_response_data_unfold _ _ _ _ _ _ _ H).
  split; [eauto|].
  intros d w' [= <- _]. destruct flag; simpl; [discriminate|auto].
Qed.

(** With the best match at distance 0.75 and a threshold of 0.5 the
    decision is not to ground, and nothing comes with it. *)
Lemma ungrounded_payload_empty_witness :
  exists d w',
    RAGManager.get_rag_response_data (Demo.backend Demo.far Demo.far)
      (Demo.manager 0.5%float) (lit "審査の流れを教えて") Demo.world0 = (Ok d, w')
    /\ RAGManager.use_rag d = false
    /\ RAGManager.context d = [] /\ RAGManager.prompt d = []
    /\ RAGManager.search_results d = [].
Proof.
  destruct (ungrounded_payload_empty (Demo.backend Demo.far Demo.far)
              (Demo.manager 0.5%float) (lit "審査の流れを教えて") 0.5%float 3
              Demo.world0) as (_ & _ & (d & w' & Hd) & Hempty).
  exists d, w'. split; [exact Hd|].
  assert (Hflag : RAGManager.use_rag d = false).
  { assert (Hrun : RAGManager.get_rag_response_data
                     (Demo.backend Demo.far Demo.far) (Demo.manager 0.5%float)
                     (lit "審査の流れを教えて") Demo.world0
                   = (Ok {| RAGManager.use_rag := false; RAGManager.context := [];
                            RAGManager.prompt := [];
                            RAGManager.search_results := [] |},
                      {| collection := ∅;
                         calls := [EmbedQuery (lit "審査の流れを教えて");
                                   CollectionQuery [0%float] 3] |}))
      by reflexivity.
    rewrite Hrun in Hd. injection Hd as <- _. reflexivity. }
  split; [exact Hflag|]. exact (Hempty d w' Hd Hflag).
Defined.

(** ** Construction of the pipeline *)




(** The default sizes, [DocumentProcessor()], are accepted. *)
Example init_default_accepted :
  DocumentProcessor.__init__ 500 100 = Ok (DocumentProcessor.constructed 500 100).
Proof. reflexivity. Qed.

Lemma init_Ok_inv (chunk_size chunk_overlap : Z) (dp : DocumentProcessor.t) :
  DocumentProcessor.__init__ chunk_size chunk_overlap = Ok dp ->
  0 < chunk_size /\ 0 <= chunk_overlap <= chunk_size
  /\ dp = DocumentProcessor.constructed chunk_size chunk_overlap.
Proof.
  unfold DocumentProcessor.__init__, TextSplitter.__init__.
  destruct (Z.leb_spec chunk_size 0); [discriminate|].
  destruct (Z.ltb_spec chunk_overlap 0); [discriminate|].
  destruct (Z.gtb_spec chunk_overlap chunk_size); [discriminate|].
  intros [= <-]. repeat split; lia.
Qed.

(** ** The text splitter, in the shape of its code *)

(** [_split_text] picks the separator with the [for] loop, then splits,
    merges and recurses on [new_separators]. *)
Lemma _split_text_chooses (self : TextSplitter.t) (separators : list pystr)
  (text : pystr) :
  separators <> [] ->
  TextSplitter._split_text self separators text =
  let '(separator, new_separators) :=
    TextSplitter.choose_separator separators text (default [] (last separators)) in
  TextSplitter.split_with self separator
    match new_separators with
    | [] => None
    | _ :: _ => Some (TextSplitter._split_text self new_separators)
    end text.
Proof.
  induction separators as [|_s rest IH]; [congruence|]. intros _.
  cbn [TextSplitter._split_text TextSplitter.choose_separator].
  destruct _s as [|c _s]; [reflexivity|].
  destruct (TextSplitter.re_search (c :: _s) text); [reflexivity|].
  destruct rest as [|s2 rest]; [reflexivity|].
  rewrite IH by discriminate. reflexivity.
Qed.

Example split_text_overlapping :
  TextSplitter.split_text
    (DocumentProcessor.text_splitter (DocumentProcessor.constructed 4 4)) (lit "abcdefghij")
  = Ok [lit "abcd"; lit "bcde"; lit "cdef"; lit "defg"; lit "efgh"; lit "fghi";
        lit "ghij"].
Proof. vm_compute. reflexivity. Qed.

Example split_text_sentences :
  TextSplitter.split_text
    (DocumentProcessor.text_splitter (DocumentProcessor.constructed 8 3))
    (lit "審査の流れ。書類不備、再提出。")
  = Ok [lit "審査の流れ"; lit "。書類不備"; lit "、再提出"; lit "。"].
Proof. vm_compute. reflexivity. Qed.

Example split_text_blank :
  TextSplitter.split_text
    (DocumentProcessor.text_splitter (DocumentProcessor.constructed 3 1))
    [10; 10; 10; 10; 10; 97; 10; 10; 10]%N
  = Ok [lit "a"].
Proof. vm_compute. reflexivity. Qed.

Example str_of_int_examples :
  str_of_int 42 = lit "42" /\ str_of_int 0 = lit "0" /\ str_of_int (-7) = lit "-7".
Proof. repeat split; reflexivity. Qed.

Example lit_counts_characters : len (lit "審査の流れ。") = 6.
Proof. reflexivity. Qed.

Example strip_example : strip (lit "  a b ") = lit "a b".
Proof. reflexivity. Qed.

Example splitlines_example :
  DocumentProcessor.splitlines [97; 13; 10; 10; 98; 10]%N
  = [lit "a"; []; lit "b"].
Proof. reflexivity. Qed.

(** ** The text splitter keeps to the chunk size *)

Lemma len_nonneg (s : pystr) : 0 <= len s.
Proof. unfold len. lia. Qed.

Lemma len_app (s t : pystr) : len (s ++ t) = len s + len t.
Proof. unfold len. rewrite length_app. lia. Qed.

Lemma lstrip_length (s : pystr) : (length (lstrip s) <= length s)%nat.
Proof.
  induction s as [|c s IH]; simpl; [lia|].
  destruct (isspace c); simpl; lia.
Qed.

Lemma strip_len (s : pystr) : len (strip s) <= len s.
Proof.
  unfold len, strip, rstrip.
  rewrite length_rev.
  pose proof (lstrip_length (rev (lstrip s))) as H1.
  rewrite length_rev in H1.
  pose proof (lstrip_length s). lia.
Qed.

Lemma join_nil (parts : list pystr) : join [] parts = concat parts.
Proof.
  induction parts as [|p [|q parts] IH]; simpl in *.
  - reflexivity.
  - rewrite app_nil_r. reflexivity.
  - rewrite IH. reflexivity.
Qed.

Lemma join_docs_len (docs : list pystr) (doc : pystr) :
  TextSplitter._join_docs docs [] = Some doc -> len doc <= len (concat docs).
Proof.
  unfold TextSplitter._join_docs. rewrite join_nil.
  pose proof (strip_len (concat docs)) as H.
  destruct (strip (concat docs)) as [|c s] eqn:E; [discriminate|].
  intros [= <-]. exact H.
Qed.

Section Splitter_bound.
Variable self : TextSplitter.t.
Hypothesis size_pos : 0 < TextSplitter._chunk_size self.
Hypothesis overlap_nonneg : 0 <= TextSplitter._chunk_overlap self.

(** The [while] loop stops without running off the list, and leaves a
    tail of the pieces of at most [chunk_overlap] characters, few enough
    for the next piece. *)
Lemma pop_front_spec (_len : Z) (current_doc : list pystr) :
  exists rest,
    TextSplitter.pop_front self 0 _len current_doc (len (concat current_doc))
    = Ok (rest, len (concat rest))
    /\ rest `suffix_of` current_doc
    /\ len (concat rest) <= TextSplitter._chunk_overlap self
    /\ (len (concat rest) + _len <= TextSplitter._chunk_size self
        \/ len (concat rest) = 0).
Proof.
  induction current_doc as [|d0 rest IH].
  - exists []. simpl.
    change (len []) with 0.
    destruct (Z.gtb_spec 0 (TextSplitter._chunk_overlap self)); [lia|].
    rewrite andb_false_r. simpl. auto with lia.
  - cbn [TextSplitter.pop_front].
    destruct (_ || _) eqn:Hcond.
    + destruct IH as (rest' & Hrun & Hsuffix & Hbounds).
      exists rest'. split; [|split; [|exact Hbounds]].
      * rewrite <- Hrun. f_equal.
        cbn [concat]. rewrite len_app. destruct (nonempty rest); lia.
      * apply suffix_cons_r, Hsuffix.
    + exists (d0 :: rest). split; [reflexivity|]. split; [reflexivity|].
      apply orb_false_elim in Hcond as [H1 H2].
      rewrite Z.gtb_ltb in H1. apply Z.ltb_ge in H1.
      split; [exact H1|].
      apply andb_false_elim in H2 as [H2|H2];
        rewrite Z.gtb_ltb in H2; apply Z.ltb_ge in H2.
      * left. cbn [nonempty] in H2. lia.
      * right. pose proof (len_nonneg (concat (d0 :: rest))). lia.
Qed.

Lemma merge_step_spec (st : list pystr * list pystr * Z) (d : pystr) :
  merge_inv self st -> fits self d ->
  exists st', TextSplitter.merge_step self [] st d = Ok st' /\ merge_inv self st'.
Proof.
  destruct st as [[docs current_doc] total].
  intros (Hdocs & Htotal & Hfit) Hd. simpl in Hdocs, Htotal, Hfit. subst total.
  unfold TextSplitter.merge_step. change (len []) with 0.
  assert (Hpush : forall docs' cd,
    Forall (fits self) docs' ->
    len (concat cd) + len d <= TextSplitter._chunk_size self ->
    exists st',
      (Ok (docs', cd ++ [d],
           len (concat cd) + len d
           + (if 1 <? Z.of_nat (length (cd ++ [d])) then 0 else 0))
       : result _) = Ok st' /\ merge_inv self st').
  { intros docs' cd Hdocs' Hsum. eexists. split; [reflexivity|].
    split; [exact Hdocs'|]. simpl.
    rewrite concat_app, len_app. simpl. rewrite app_nil_r.
    unfold fits. rewrite len_app.
    split; [destruct (1 <? _); lia | exact Hsum]. }
  destruct (_ && _) eqn:Hcond.
  - apply andb_true_iff in Hcond as [_ Hne].
    destruct (pop_front_spec (len d) current_doc) as (rest & -> & _ & _ & Hroom).
    rewrite !result_bind_Ok.
    apply Hpush.
    + destruct (TextSplitter._join_docs current_doc []) as [doc|] eqn:Hjoin;
        [|exact Hdocs].
      apply Forall_app. split; [exact Hdocs|].
      apply Forall_singleton. unfold fits in *.
      pose proof (join_docs_len _ _ Hjoin). lia.
    + unfold fits in Hd. destruct Hroom as [Hroom|Hzero]; lia.
  - rewrite result_bind_Ok. apply Hpush; [exact Hdocs|].
    apply andb_false_elim in Hcond as [Hcond|Hcond].
    + rewrite Z.gtb_ltb in Hcond. apply Z.ltb_ge in Hcond.
      destruct (nonempty current_doc); lia.
    + destruct current_doc; [|discriminate]. simpl.
      change (len []) with 0. exact Hd.
Qed.

Lemma merge_loop_spec (splits : list pystr) st :
  merge_inv self st -> Forall (fits self) splits ->
  exists st',
    for_each (TextSplitter.merge_step self []) splits st = Ok st' /\ merge_inv self st'.
Proof.
  revert st. induction splits as [|d splits IH]; intros st Hst Hall.
  - exists st. split; [reflexivity | exact Hst].
  - apply Forall_cons in Hall as [Hd Hall].
    destruct (merge_step_spec st d Hst Hd) as (st1 & Hstep & Hst1).
    simpl. rewrite Hstep, result_bind_Ok. apply IH; assumption.
Qed.

Lemma merge_splits_spec (splits : list pystr) :
  Forall (fits self) splits ->
  exists docs,
    TextSplitter._merge_splits self splits [] = Ok docs /\ Forall (fits self) docs.
Proof.
  intros Hall. unfold TextSplitter._merge_splits.
  destruct (merge_loop_spec splits ([], [], 0)) as ([[docs cd] total] & -> & Hinv).
  { split; [constructor|]. split; [reflexivity|]. unfold fits. simpl.
    change (len []) with 0. lia. }
  { exact Hall. }
  rewrite result_bind_Ok. destruct Hinv as (Hdocs & _ & Hfit). simpl in *.
  destruct (TextSplitter._join_docs cd []) as [doc|] eqn:Hjoin.
  - eexists. split; [reflexivity|].
    apply Forall_app. split; [exact Hdocs|]. apply Forall_singleton.
    unfold fits in *. pose proof (join_docs_len _ _ Hjoin). lia.
  - eexists. split; [reflexivity | exact Hdocs].
Qed.

End Splitter_bound.

Section Recursive_bound.
Variable self : TextSplitter.t.
Hypothesis size_pos : 0 < TextSplitter._chunk_size self.
Hypothesis overlap_nonneg : 0 <= TextSplitter._chunk_overlap self.

Lemma split_step_spec recurse (st : list pystr * list pystr) (s : pystr) :
  split_inv self st -> recurse_ok self recurse s ->
  exists st', TextSplitter.split_step self recurse st s = Ok st'
              /\ split_inv self st'.
Proof.
  destruct st as [final_chunks good]. intros [Hfinal Hgood] Hrec.
  simpl in Hfinal, Hgood. unfold TextSplitter.split_step.
  destruct (Z.ltb_spec (len s) (TextSplitter._chunk_size self)) as [Hlt|Hge].
  - eexists. split; [reflexivity|]. split; [exact Hfinal|]. simpl.
    apply Forall_app. split; [exact Hgood|]. apply Forall_singleton.
    unfold fits. lia.
  - assert (Hmerged : exists final',
      (if nonempty good
       then merged_text ← TextSplitter._merge_splits self good [];
            mret (final_chunks ++ merged_text)
       else mret final_chunks) = Ok final' /\ Forall (fits self) final').
    { destruct (nonempty good).
      - destruct (merge_splits_spec self size_pos overlap_nonneg good Hgood)
          as (docs & -> & Hdocs).
        eexists. split; [reflexivity|]. apply Forall_app. auto.
      - eexists. split; [reflexivity | exact Hfinal]. }
    destruct Hmerged as (final' & -> & Hfinal'). rewrite result_bind_Ok.
    destruct recurse as [f|]; simpl in Hrec.
    + destruct Hrec as (chunks & -> & Hchunks). rewrite result_bind_Ok.
      eexists. split; [reflexivity|]. split; [|constructor]. simpl.
      apply Forall_app. auto.
    + eexists. split; [reflexivity|]. split; [|constructor]. simpl.
      apply Forall_app. split; [exact Hfinal'|]. apply Forall_singleton.
      exact Hrec.
Qed.

Lemma split_loop_spec recurse (splits : list pystr) st :
  split_inv self st -> Forall (recurse_ok self recurse) splits ->
  exists st', for_each (TextSplitter.split_step self recurse) splits st = Ok st'
              /\ split_inv self st'.
Proof.
  revert st. induction splits as [|s splits IH]; intros st Hst Hall.
  - exists st. split; [reflexivity | exact Hst].
  - apply Forall_cons in Hall as [Hs Hall].
    destruct (split_step_spec recurse st s Hst Hs) as (st1 & Hstep & Hst1).
    simpl. rewrite Hstep, result_bind_Ok. apply IH; assumption.
Qed.

Lemma split_with_spec (separator : pystr) recurse (text : pystr) :
  Forall (recurse_ok self recurse)
    (TextSplitter._split_text_with_regex text separator) ->
  exists chunks,
    TextSplitter.split_with self separator recurse text = Ok chunks
    /\ Forall (fits self) chunks.
Proof.
  intros Hall. unfold TextSplitter.split_with.
  assert (Hstart : split_inv self ([], [])) by (split; constructor).
  destruct (split_loop_spec recurse _ ([], []) Hstart Hall)
    as ([final_chunks good] & -> & Hfinal & Hgood).
  rewrite result_bind_Ok. simpl in Hfinal, Hgood.
  destruct (nonempty good).
  - destruct (merge_splits_spec self size_pos overlap_nonneg good Hgood)
      as (docs & -> & Hdocs).
    eexists. split; [reflexivity|]. apply Forall_app. auto.
  - eexists. split; [reflexivity | exact Hfinal].
Qed.

(** Cut into characters, every piece fits. *)
Lemma characters_fit (text : pystr) :
  Forall (fits self) (TextSplitter._split_text_with_regex text []).
Proof.
  unfold TextSplitter._split_text_with_regex.
  apply Forall_forall. intros s Hs.
  apply list_elem_of_filter in Hs as [_ Hs].
  apply list_elem_of_In, in_map_iff in Hs as (c & <- & _).
  unfold fits. change (len [c]) with 1. lia.
Qed.

(** With the empty string as last separator, [_split_text] returns, and
    every chunk it returns fits the chunk size. *)
Lemma _split_text_spec (separators : list pystr) :
  last separators = Some [] ->
  forall text, exists chunks,
    TextSplitter._split_text self separators text = Ok chunks
    /\ Forall (fits self) chunks.
Proof.
  induction separators as [|_s new_separators IH]; [discriminate|].
  intros Hlast text. cbn [TextSplitter._split_text].
  destruct _s as [|c _s].
  - apply split_with_spec. apply characters_fit.
  - destruct new_separators as [|s2 rest]; [discriminate|].
    specialize (IH Hlast).
    destruct (TextSplitter.re_search (c :: _s) text); [|apply IH].
    apply split_with_spec. apply Forall_forall. intros s _. apply IH.
Qed.

End Recursive_bound.

(** ** Chunking *)

Section Chunking.
Variables chunk_size chunk_overlap : Z.
Variable self : DocumentProcessor.t.
Hypothesis accepted : DocumentProcessor.__init__ chunk_size chunk_overlap = Ok self.

Lemma split_text_spec (text : pystr) :
  exists pieces,
    TextSplitter.split_text (DocumentProcessor.text_splitter self) text = Ok pieces
    /\ Forall (fun s => len s <= DocumentProcessor.chunk_size self) pieces.
Proof.
  destruct (init_Ok_inv _ _ _ accepted) as (Hpos & Hov & ->).
  apply (_split_text_spec
           (DocumentProcessor.text_splitter (DocumentProcessor.constructed chunk_size chunk_overlap))).
  - exact Hpos.
  - apply Hov.
  - reflexivity.
Qed.

Lemma add_chunk_inv (page : Doc.t) st (chunk_text : pystr) :
  chunks_inv self st ->
  len chunk_text <= DocumentProcessor.chunk_size self ->
  chunks_inv self (DocumentProcessor.add_chunk page st chunk_text).
Proof.
  destruct st as [chunks idx]. intros (Hidx & Hfit & Hpos) Hlen.
  simpl in Hidx, Hfit, Hpos. subst idx. unfold DocumentProcessor.add_chunk.
  split; [|split]; simpl.
  - rewrite length_app. simpl. lia.
  - apply Forall_app. split; [exact Hfit|]. apply Forall_singleton. exact Hlen.
  - intros i c Hi. apply lookup_app_Some in Hi as [Hi|[Hge Hi]].
    + apply Hpos, Hi.
    + apply list_lookup_singleton_Some in Hi as [Hi <-]. simpl.
      rewrite lookup_insert_eq. do 2 f_equal. lia.
Qed.

Lemma add_chunks_inv (page : Doc.t) (pieces : list pystr) st :
  chunks_inv self st ->
  Forall (fun s => len s <= DocumentProcessor.chunk_size self) pieces ->
  chunks_inv self (fold_left (DocumentProcessor.add_chunk page) pieces st).
Proof.
  revert st. induction pieces as [|s pieces IH]; intros st Hst Hall; [exact Hst|].
  apply Forall_cons in Hall as [Hs Hall]. simpl.
  apply IH; [apply add_chunk_inv; assumption | exact Hall].
Qed.

Lemma split_pages_inv (pages : list Doc.t) st :
  chunks_inv self st ->
  exists st', for_each (DocumentProcessor.split_page self) pages st = Ok st'
              /\ chunks_inv self st'.
Proof.
  revert st. induction pages as [|page pages IH]; intros st Hst.
  - exists st. split; [reflexivity | exact Hst].
  - cbn [for_each].
    assert (Hpage : exists st1,
      DocumentProcessor.split_page self st page = Ok st1 /\ chunks_inv self st1).
    { unfold DocumentProcessor.split_page.
      destruct (split_text_spec (Doc.text page)) as (pieces & -> & Hpieces).
      rewrite result_bind_Ok. eexists. split; [reflexivity|].
      apply add_chunks_inv; assumption. }
    destruct Hpage as (st1 & -> & Hst1). rewrite result_bind_Ok.
    apply IH, Hst1.
Qed.

Lemma split_into_chunks_spec (pages : list Doc.t) :
  exists chunks,
    DocumentProcessor.split_into_chunks self pages = Ok chunks
    /\ chunks_inv self (chunks, Z.of_nat (length chunks)).
Proof.
  unfold DocumentProcessor.split_into_chunks.
  destruct (split_pages_inv pages ([], 0)) as ([chunks idx] & -> & Hinv).
  { split; [reflexivity|]. split; [constructor|]. intros i c Hi. discriminate. }
  rewrite result_bind_Ok. exists chunks. split; [reflexivity|].
  destruct Hinv as (Hidx & Hrest). simpl in Hidx. subst idx.
  split; [reflexivity | exact Hrest].
Qed.

End Chunking.



(** Two chunks from page 1 and one from page 2: indices 0, 1, 2. *)
Example chunk_index_two_pages :
  exists c0 c1 c2,
    DocumentProcessor.split_into_chunks (DocumentProcessor.constructed 500 100)
      [Demo.two_paragraphs; Demo.short_page] = Ok [c0; c1; c2]
    /\ map (fun c => Doc.metadata c !! "page") [c0; c1; c2]
       = [Some (MInt 1); Some (MInt 1); Some (MInt 2)]
    /\ map (fun c => Doc.metadata c !! "chunk_index") [c0; c1; c2]
       = [Some (MInt 0); Some (MInt 1); Some (MInt 2)].
Proof.
  do 3 eexists. split; [vm_compute; reflexivity|].
  split; reflexivity.
Qed.





(** ** The context assembler *)

Lemma context_parts_map (l : list (Z * SearchResult.t)) (acc : list pystr) :
  fold_left
    (fun context_parts '(i, result) =>
       context_parts ++ [RAGManager.context_part i result]) l acc
  = acc ++ map (fun p => RAGManager.context_part p.1 p.2) l.
Proof.
  revert acc. induction l as [|[i r] l IH]; intros acc; simpl.
  - rewrite app_nil_r. reflexivity.
  - rewrite IH, <- app_assoc. reflexivity.
Qed.

Lemma enumerate_length {A} (start : Z) (xs : list A) :
  length (enumerate start xs) = length xs.
Proof.
  revert start. induction xs as [|x xs IH]; intros start; simpl; [|rewrite IH];
    reflexivity.
Qed.

Lemma enumerate_lookup {A} (start : Z) (xs : list A) (i : nat) (x : A) :
  xs !! i = Some x -> enumerate start xs !! i = Some (start + Z.of_nat i, x).
Proof.
  revert start i. induction xs as [|y xs IH]; intros start i; [discriminate|].
  destruct i as [|i]; simpl.
  - intros [= ->]. do 2 f_equal. lia.
  - intros H. rewrite (IH (start + 1) i H). do 2 f_equal. lia.
Qed.

(** C9. For a non-empty list of search results the context is the blocks
    joined by a blank line, one block per result and in the order of the
    results; the block of the result at position [i] (from 0) is numbered
    [i + 1] and carries the result's source, its page and its text as
    they are. *)
Theorem build_rag_context_blocks (search_results : list SearchResult.t) :
  search_results <> [] ->
  exists blocks,
    RAGManager.build_rag_context search_results = join [10%N; 10%N] blocks
    /\ length blocks = length search_results
    /\ forall (i : nat) (r : SearchResult.t) (source page : MetaValue),
        search_results !! i = Some r ->
        SearchResult.metadata r !! "source" = Some source ->
        SearchResult.metadata r !! "page" = Some page ->
        blocks !! i
        = Some (Spec.block (Z.of_nat i + 1) (str source) (str page)
                  (SearchResult.text r)).
Proof.
  intros Hne.
  exists (map (fun p => RAGManager.context_part p.1 p.2)
            (enumerate 1 search_results)).
  split; [|split].
  - unfold RAGManager.build_rag_context.
    destruct search_results; [congruence|].
    cbn [nonempty negb]. rewrite context_parts_map. reflexivity.
  - rewrite length_map. apply enumerate_length.
  - intros i r source page Hi Hsource Hpage.
    rewrite list_lookup_fmap, (enumerate_lookup 1 _ _ _ Hi). simpl.
    unfold RAGManager.context_part, RAGManager.get_str.
    rewrite Hsource, Hpage. unfold Spec.block.
    replace (1 + Z.of_nat i) with (Z.of_nat i + 1) by lia. reflexivity.
Qed.

Lemma build_rag_context_blocks_witness :
  exists blocks,
    RAGManager.build_rag_context
      [ {| SearchResult.text := lit "審査の流れ";
           SearchResult.metadata := Demo.meta "rules.pdf" 3;
           SearchResult.distance := Demo.near |};
        {| SearchResult.text := lit "書類不備";
           SearchResult.metadata := Demo.meta "flow.pdf" 1;
           SearchResult.distance := Demo.far |} ]
    = join [10%N; 10%N] blocks
    /\ length blocks = 2%nat
    /\ blocks !! 1%nat
       = Some (Spec.block 2 (lit "flow.pdf") (lit "1") (lit "書類不備")).
Proof.
  destruct (build_rag_context_blocks
              [ {| SearchResult.text := lit "審査の流れ";
                   SearchResult.metadata := Demo.meta "rules.pdf" 3;
                   SearchResult.distance := Demo.near |};
                {| SearchResult.text := lit "書類不備";
                   SearchResult.metadata := Demo.meta "flow.pdf" 1;
                   SearchResult.distance := Demo.far |} ])
    as (blocks & Hjoin & Hlen & Hblock); [discriminate|].
  exists blocks. split; [exact Hjoin|]. split; [exact Hlen|].
  apply (Hblock 1%nat
           {| SearchResult.text := lit "書類不備";
              SearchResult.metadata := Demo.meta "flow.pdf" 1;
              SearchResult.distance := Demo.far |}
           (MStr (lit "flow.pdf")) (MInt 1));
    vm_compute; reflexivity.
Defined.

Example build_rag_context_demo :
  RAGManager.build_rag_context
    [ {| SearchResult.text := lit "審査の流れ";
         SearchResult.metadata := Demo.meta "rules.pdf" 3;
         SearchResult.distance := Demo.near |};
      {| SearchResult.text := lit "書類不備";
         SearchResult.metadata := Demo.meta "flow.pdf" 1;
         SearchResult.distance := Demo.far |} ]
  = lit "【参照資料1】(rules.pdf / ページ3)" ++ [10%N] ++ lit "審査の流れ"
    ++ [10%N; 10%N]
    ++ lit "【参照資料2】(flow.pdf / ページ1)" ++ [10%N] ++ lit "書類不備".
Proof. vm_compute. reflexivity. Qed.

Example build_rag_context_empty : RAGManager.build_rag_context [] = [].
Proof. reflexivity. Qed.

(** ** Record ids *)

Lemma chunk_id_provenance (chunk : Doc.t) p :
  Spec.provenance chunk p -> ChromaManager.chunk_id chunk = Ok (Spec.id_of p).
Proof.
  intros (Hs & Hp & Hi). unfold ChromaManager.chunk_id, ChromaManager.getitem.
  rewrite Hs, Hp, Hi. reflexivity.
Qed.

Lemma traverse_chunk_id (chunks : list Doc.t) prov :
  Forall2 Spec.provenance chunks prov ->
  traverse ChromaManager.chunk_id chunks = Ok (map Spec.id_of prov).
Proof.
  induction 1 as [|chunk p chunks prov Hp _ IH]; [reflexivity|].
  simpl. rewrite (chunk_id_provenance _ _ Hp), IH. reflexivity.
Qed.

(** What [add_documents] does on a non-empty batch of chunks that carry
    their provenance. *)
Lemma add_documents_run (B : Backend) (chunks : list Doc.t) prov (w : World) :
  chunks <> [] -> Forall2 Spec.provenance chunks prov ->
  ChromaManager.add_documents B chunks w =
  let texts := map Doc.text chunks in
  let metadatas := map Doc.metadata chunks in
  let ids := map Spec.id_of prov in
  let w1 := record (EmbedDocuments texts) w in
  match embed_documents B w texts with
  | Raise _ => (Ok false, w1)
  | Ok embeddings =>
      let rc := collection_add B w1 ids embeddings texts metadatas in
      let w2 := {| collection := rc.2;
                   calls := calls w1
                            ++ [CollectionAdd ids embeddings texts metadatas] |} in
      match rc.1 with
      | Raise _ => (Ok false, w2)
      | Ok _ =>
          (Ok match collection_count B w2 with Ok _ => true | Raise _ => false end,
           record CollectionCount w2)
      end
  end.
Proof.
  intros Hne Hprov. unfold ChromaManager.add_documents.
  destruct chunks as [|c0 chunks]; [congruence|]. cbn [nonempty negb].
  unfold try_catch. rewrite M_bind_unfold. unfold lift at 1.
  rewrite (traverse_chunk_id _ _ Hprov). rewrite M_bind_unfold.
  unfold ChromaManager.call_embed_documents at 1. cbv zeta.
  destruct (embed_documents B w _) as [embeddings|e]; [|reflexivity].
  rewrite M_bind_unfold. unfold ChromaManager.call_collection_add at 1.
  destruct (collection_add B _ _ _ _ _) as [[[]|e] c]; [|reflexivity].
  cbn [fst snd]. rewrite M_bind_unfold.
  unfold ChromaManager.call_collection_count at 1.
  destruct (collection_count B _); reflexivity.
Qed.

Lemma ids_added_app (cs cs' : list Call) :
  Spec.ids_added (cs ++ cs') = Spec.ids_added cs ++ Spec.ids_added cs'.
Proof. apply omap_app. Qed.

(** *** The collection's [add] *)

Lemma add_record_keeps (c : Collection) r (id : pystr) (old : VectorRecord) :
  c !! id = Some old -> Chroma.add_record c r !! id = Some old.
Proof.
  intros H. unfold Chroma.add_record.
  destruct (c !! r.1) eqn:E; [exact H|].
  rewrite lookup_insert_ne; [exact H | congruence].
Qed.

Lemma add_records_keep (recs : list (pystr * VectorRecord)) (c : Collection)
  (id : pystr) (old : VectorRecord) :
  c !! id = Some old -> fold_left Chroma.add_record recs c !! id = Some old.
Proof.
  revert c. induction recs as [|r recs IH]; intros c H; [exact H|].
  simpl. apply IH, add_record_keeps, H.
Qed.

Lemma add_records_present (recs : list (pystr * VectorRecord)) (c : Collection) :
  Forall (fun r => is_Some (c !! r.1)) recs ->
  fold_left Chroma.add_record recs c = c.
Proof.
  induction 1 as [|r recs [old Hr] _ IH]; [reflexivity|].
  simpl. unfold Chroma.add_record at 2. rewrite Hr. exact IH.
Qed.

Lemma add_records_dom (recs : list (pystr * VectorRecord)) (c : Collection) :
  dom (fold_left Chroma.add_record recs c) = dom c ∪ list_to_set recs.*1.
Proof.
  revert c. induction recs as [|r recs IH]; intros c; simpl.
  - set_solver.
  - rewrite IH. unfold Chroma.add_record.
    destruct (c !! r.1) eqn:E.
    + apply (elem_of_dom_2 (D := gset pystr)) in E. set_solver.
    + rewrite dom_insert_L. set_solver.
Qed.

Lemma make_records_ids (ids : list pystr) embeddings documents metadatas :
  length embeddings = length ids -> length documents = length ids ->
  length metadatas = length ids ->
  (Chroma.make_records ids embeddings documents metadatas).*1 = ids.
Proof.
  intros He Hd Hm. unfold Chroma.make_records.
  apply fst_zip. rewrite length_zip_with, length_zip. lia.
Qed.

(** What a successful [add] has checked and done. *)
Lemma chroma_add_Ok (c c' : Collection) ids embeddings documents metadatas :
  Chroma.add c ids embeddings documents metadatas = (Ok tt, c') ->
  (Chroma.make_records ids embeddings documents metadatas).*1 = ids
  /\ c' = fold_left Chroma.add_record
            (Chroma.make_records ids embeddings documents metadatas) c.
Proof.
  unfold Chroma.add.
  destruct (negb (nonempty ids)); [discriminate|].
  destruct (_ && _) eqn:Hlen; [|discriminate]. cbn [negb].
  destruct (negb (bool_decide (NoDup ids))); [discriminate|].
  intros [= <-]. split; [|reflexivity].
  apply andb_true_iff in Hlen as [Hlen Hm].
  apply andb_true_iff in Hlen as [He Hd].
  apply Nat.eqb_eq in He, Hd, Hm. apply make_records_ids; assumption.
Qed.

(** [add] never replaces a record, whether it succeeds or not. *)
Lemma chroma_add_keeps (c : Collection) ids embeddings documents metadatas
  (id : pystr) (old : VectorRecord) :
  c !! id = Some old ->
  (Chroma.add c ids embeddings documents metadatas).2 !! id = Some old.
Proof.
  intros H. unfold Chroma.add.
  repeat (match goal with |- context [if ?b then _ else _] => destruct b end;
          [exact H|]).
  simpl. apply add_records_keep, H.
Qed.

(** [add] of ids that are all present changes nothing. *)
Lemma chroma_add_present (c : Collection) ids embeddings documents metadatas :
  list_to_set ids ⊆ dom c ->
  (Chroma.add c ids embeddings documents metadatas).2 = c.
Proof.
  intros Hsub. destruct (Chroma.add c ids embeddings documents metadatas)
    as [[[]|e] c'] eqn:Hadd.
  - apply chroma_add_Ok in Hadd as [Hids ->]. simpl.
    apply add_records_present, Forall_forall. intros r Hr.
    apply (elem_of_dom (D := gset pystr)), Hsub.
    rewrite <- Hids. apply elem_of_list_to_set, list_elem_of_fmap. eauto.
  - revert Hadd. unfold Chroma.add.
    repeat (match goal with |- context [if ?b then _ else _] => destruct b end;
            [intros [= _ <-]; reflexivity|]).
    discriminate.
Qed.

Lemma add_documents_ids (B : Backend) (chunks : list Doc.t)
  (prov : list (MetaValue * MetaValue * MetaValue)) (w : World) :
  chunks <> [] ->
  Forall2 Spec.provenance chunks prov ->
  Spec.ids_added (calls (ChromaManager.add_documents B chunks w).2)
  = Spec.ids_added (calls w)
    ++ match embed_documents B w (map Doc.text chunks) with
       | Ok _ => [map Spec.id_of prov]
       | Raise _ => []
       end.
Proof.
  intros Hne Hprov.
  rewrite (add_documents_run B chunks prov w Hne Hprov). cbv zeta.
  destruct (embed_documents B w _) as [embeddings|e].
  - destruct (collection_add B _ _ _ _ _).1; cbn [snd calls record];
      rewrite !ids_added_app; cbn; rewrite ?app_nil_r; reflexivity.
  - cbn [snd calls record]. rewrite ids_added_app. cbn. reflexivity.
Qed.

Lemma add_documents_dom ed eq cq (chunks : list Doc.t)
  (prov : list (MetaValue * MetaValue * MetaValue)) (w w' : World) :
  chunks <> [] ->
  Forall2 Spec.provenance chunks prov ->
  ChromaManager.add_documents (Chroma.backend ed eq cq) chunks w = (Ok true, w') ->
  dom (collection w') = dom (collection w) ∪ list_to_set (map Spec.id_of prov).
Proof.
  intros Hne Hprov.
  rewrite (add_documents_run _ chunks prov w Hne Hprov). cbv zeta.
  cbn [embed_documents collection_add Chroma.backend].
  destruct (ed w _) as [embeddings|e]; [|discriminate].
  destruct (Chroma.add _ _ _ _ _) as [[[]|e] c'] eqn:Hadd; [|discriminate].
  cbn [fst snd]. intros [= <-]. cbn [collection record].
  apply chroma_add_Ok in Hadd as [Hids ->].
  rewrite add_records_dom, Hids. reflexivity.
Qed.

(** C7. Whatever the backend and the state of the world, a non-empty batch
    of chunks that carry [source], [page] and [chunk_index] reaches
    [collection.add] with the ids ["{source}_{page}_{chunk_index}"], one
    per chunk and in the order of the chunks (and reaches it not at all
    when the embedding call fails); on the Chroma collection a successful
    [add_documents] leaves as keys the keys there were and these ids. The
    ids are a function of the chunks alone, so a second run on the same
    chunks derives the same ids. *)
Theorem record_ids_follow_format (B : Backend) (chunks : list Doc.t)
  (prov : list (MetaValue * MetaValue * MetaValue)) (w : World) :
  chunks <> [] ->
  Forall2 Spec.provenance chunks prov ->
  Spec.ids_added (calls (ChromaManager.add_documents B chunks w).2)
  = Spec.ids_added (calls w)
    ++ match embed_documents B w (map Doc.text chunks) with
       | Ok _ => [map (fun p => Spec.record_id p.1.1 p.1.2 p.2) prov]
       | Raise _ => []
       end
  /\ forall ed eq cq w',
      ChromaManager.add_documents (Chroma.backend ed eq cq) chunks w = (Ok true, w') ->
      dom (collection w')
      = dom (collection w)
        ∪ list_to_set (map (fun p => Spec.record_id p.1.1 p.1.2 p.2) prov).
Proof.
  intros Hne Hprov. split.
  - exact (add_documents_ids B chunks prov w Hne Hprov).
  - intros ed eq cq w'. exact (add_documents_dom ed eq cq chunks prov w w' Hne Hprov).
Qed.

Lemma record_ids_follow_format_witness :
  Spec.ids_added
    (calls (ChromaManager.add_documents (Demo.backend Demo.near Demo.far)
              [Demo.chunk "rules.pdf" 3 0 "審査の流れ";
               Demo.chunk "rules.pdf" 4 1 "書類不備"] Demo.world0).2)
  = [[lit "rules.pdf_3_0"; lit "rules.pdf_4_1"]].
Proof.
  apply (record_ids_follow_format (Demo.backend Demo.near Demo.far)
           [Demo.chunk "rules.pdf" 3 0 "審査の流れ";
            Demo.chunk "rules.pdf" 4 1 "書類不備"]
           [(MStr (lit "rules.pdf"), MInt 3, MInt 0);
            (MStr (lit "rules.pdf"), MInt 4, MInt 1)] Demo.world0).
  - discriminate.
  - repeat constructor; vm_compute; reflexivity.
Defined.

(** ** Ingesting twice *)

(** On the Chroma collection [add_documents] never replaces a record. *)
Lemma add_documents_keeps_records ed eq cq (chunks : list Doc.t) (w : World)
  (id : pystr) (old : VectorRecord) :
  collection w !! id = Some old ->
  collection (ChromaManager.add_documents (Chroma.backend ed eq cq) chunks w).2
    !! id = Some old.
Proof.
  intros Hold. unfold ChromaManager.add_documents.
  destruct (negb (nonempty chunks)); [exact Hold|].
  unfold try_catch. rewrite M_bind_unfold. unfold lift at 1.
  destruct (traverse ChromaManager.chunk_id chunks) as [ids|e]; [|exact Hold].
  rewrite M_bind_unfold. unfold ChromaManager.call_embed_documents at 1.
  cbn [embed_documents Chroma.backend].
  destruct (ed w _) as [embeddings|e]; [|exact Hold].
  rewrite M_bind_unfold. unfold ChromaManager.call_collection_add at 1.
  cbn [collection_add Chroma.backend collection record].
  pose proof (chroma_add_keeps (collection w) ids embeddings
                (map Doc.text chunks) (map Doc.metadata chunks) id old Hold) as Hkeep.
  destruct (Chroma.add _ _ _ _ _) as [[[]|e] c']; exact Hkeep.
Qed.

(** After a successful ingestion of a batch, a second ingestion of the
    same batch returns, derives the same ids and leaves the collection as
    it was. *)
Lemma add_documents_twice ed eq cq (chunks : list Doc.t)
  (prov : list (MetaValue * MetaValue * MetaValue)) (w w1 : World) :
  Forall2 Spec.provenance chunks prov ->
  ChromaManager.add_documents (Chroma.backend ed eq cq) chunks w = (Ok true, w1) ->
  Spec.ids_added (calls w1) = Spec.ids_added (calls w) ++ [map Spec.id_of prov]
  /\ (exists b w2,
        ChromaManager.add_documents (Chroma.backend ed eq cq) chunks w1 = (Ok b, w2)
        /\ collection w2 = collection w1
        /\ (Spec.ids_added (calls w2)
            = Spec.ids_added (calls w1) ++ [map Spec.id_of prov]
            \/ Spec.ids_added (calls w2) = Spec.ids_added (calls w1))).
Proof.
  intros Hprov Hfirst.
  assert (Hne : chunks <> []).
  { intros ->. discriminate. }
  pose proof (add_documents_dom ed eq cq chunks prov w w1 Hne Hprov Hfirst) as Hdom.
  pose proof (add_documents_ids (Chroma.backend ed eq cq) chunks prov w Hne Hprov)
    as Hids1.
  rewrite Hfirst in Hids1. cbn [snd] in Hids1.
  assert (Hembed1 : exists embs, ed w (map Doc.text chunks) = Ok embs).
  { revert Hfirst. rewrite (add_documents_run _ chunks prov w Hne Hprov). cbv zeta.
    cbn [embed_documents Chroma.backend].
    destruct (ed w _) as [embs|e]; [eauto | discriminate]. }
  destruct Hembed1 as [embs1 Hembed1].
  cbn [embed_documents Chroma.backend] in Hids1. rewrite Hembed1 in Hids1.
  split; [exact Hids1|].
  - destruct (add_documents_returns (Chroma.backend ed eq cq) chunks w1)
      as (b & w2 & Hsecond).
    exists b, w2. split; [exact Hsecond|].
    pose proof (add_documents_ids (Chroma.backend ed eq cq) chunks prov w1 Hne Hprov)
      as Hids2.
    rewrite Hsecond in Hids2. cbn [snd] in Hids2.
    cbn [embed_documents Chroma.backend] in Hids2.
    split.
    + revert Hsecond.
      rewrite (add_documents_run _ chunks prov w1 Hne Hprov). cbv zeta.
      cbn [embed_documents collection_add Chroma.backend].
      destruct (ed w1 _) as [embs2|e]; [|intros [= _ <-]; reflexivity].
      pose proof (chroma_add_present (collection w1) (map Spec.id_of prov) embs2
                    (map Doc.text chunks) (map Doc.metadata chunks)) as Hsame.
      cbn [collection record].
      destruct (Chroma.add _ _ _ _ _) as [[[]|e] c']; cbn [fst snd];
        intros [= _ <-]; cbn [collection record]; apply Hsame;
        rewrite Hdom; set_solver.
    + destruct (ed w1 _); [left | right; rewrite app_nil_r in Hids2]; exact Hids2.
Qed.

Example after_first_keys :
  dom (collection Demo.after_first)
  = {[ lit "rules.pdf_3_0"; lit "rules.pdf_4_1" ]}.
Proof. vm_compute. reflexivity. Qed.

(** C2 as stated fails: a chunk whose id is already in the collection is
    ingested with success, and the record under that id still holds the
    old text, not the chunk's. *)
Lemma existing_record_not_replaced :
  exists w',
    ChromaManager.add_documents (Demo.backend Demo.near Demo.far)
      [Demo.chunk "rules.pdf" 3 0 "new text"] Demo.world_old = (Ok true, w')
    /\ ChromaManager.chunk_id (Demo.chunk "rules.pdf" 3 0 "new text")
       = Ok (lit "rules.pdf_3_0")
    /\ document <$> collection Demo.world_old !! lit "rules.pdf_3_0"
       = Some (lit "old text")
    /\ document <$> collection w' !! lit "rules.pdf_3_0" = Some (lit "old text")
    /\ lit "old text" <> lit "new text".
Proof.
  eexists. split; [vm_compute; reflexivity|].
  split; [vm_compute; reflexivity|].
  split; [vm_compute; reflexivity|].
  split; [vm_compute; reflexivity|].
  vm_compute. discriminate.
Qed.

(** *** From the file to the batch *)

Lemma for_each_preserves {S A} (P : S -> Prop) (step : S -> A -> result S)
  (xs : list A) :
  (forall st x st', P st -> step st x = Ok st' -> P st') ->
  forall st st', P st -> for_each step xs st = Ok st' -> P st'.
Proof.
  intros Hstep. induction xs as [|x xs IH]; intros st st' Hst; simpl.
  - intros [= <-]. exact Hst.
  - destruct (step st x) as [st1|e] eqn:E; [|discriminate].
    rewrite result_bind_Ok. apply IH. exact (Hstep _ _ _ Hst E).
Qed.

Lemma page_metadata_lookup (file_name : pystr) (page_num : Z) :
  DocumentProcessor.page_metadata file_name page_num !! "source"
  = Some (MStr file_name)
  /\ DocumentProcessor.page_metadata file_name page_num !! "page"
     = Some (MInt page_num).
Proof.
  unfold DocumentProcessor.page_metadata. split.
  - rewrite lookup_insert_ne by discriminate. apply lookup_insert_eq.
  - apply lookup_insert_eq.
Qed.

(** Every page the PDF extractor returns names its file and its page. *)
Lemma extract_text_from_pdf_metadata path_name fitz_open (pdf_path : pystr)
  (pages : list Doc.t) :
  DocumentProcessor.extract_text_from_pdf path_name fitz_open pdf_path = Ok pages ->
  Forall (fun page => exists n,
            Doc.metadata page
            = DocumentProcessor.page_metadata (path_name pdf_path) n) pages.
Proof.
  unfold DocumentProcessor.extract_text_from_pdf.
  destruct (fitz_open pdf_path) as [doc|e]; [|intros [= <-]; constructor].
  rewrite result_bind_Ok.
  destruct (for_each _ _ _) as [pages'|e] eqn:Hloop;
    [|intros [= <-]; constructor].
  rewrite result_bind_Ok.
  destruct (close doc); [|intros [= <-]; constructor].
  intros [= <-]. revert Hloop.
  apply for_each_preserves; [|constructor].
  intros st [n page] st' Hst.
  destruct page as [text|e]; [|discriminate]. rewrite result_bind_Ok.
  destruct (nonempty (strip text)); intros [= <-]; [|exact Hst].
  apply Forall_app. split; [exact Hst|]. apply Forall_singleton. eauto.
Qed.

(** Chunks made from pages that name their file and page carry the whole
    provenance. *)
Lemma split_into_chunks_provenance (self : DocumentProcessor.t)
  (pages chunks : list Doc.t) :
  Forall (fun page => is_Some (Doc.metadata page !! "source")
                      /\ is_Some (Doc.metadata page !! "page")) pages ->
  DocumentProcessor.split_into_chunks self pages = Ok chunks ->
  Forall (fun c => exists p, Spec.provenance c p) chunks.
Proof.
  intros Hpages. unfold DocumentProcessor.split_into_chunks.
  destruct (for_each _ _ _) as [[chunks' idx]|e] eqn:Hloop; [|discriminate].
  intros [= <-].
  enough (Hinv : forall (l : list Doc.t) st st',
    Forall (fun page => is_Some (Doc.metadata page !! "source")
                        /\ is_Some (Doc.metadata page !! "page")) l ->
    Forall (fun c => exists p, Spec.provenance c p) st.1 ->
    for_each (DocumentProcessor.split_page self) l st = Ok st' ->
    Forall (fun c => exists p, Spec.provenance c p) st'.1).
  { apply (Hinv pages ([], 0) (chunks', idx) Hpages); [constructor | exact Hloop]. }
  clear. induction l as [|page l IH]; intros st st' Hl Hst; simpl.
  - intros [= <-]. exact Hst.
  - apply Forall_cons in Hl as [[[source Hs] [pg Hp]] Hl].
    destruct (DocumentProcessor.split_page self st page) as [st1|e] eqn:Hpage;
      [|discriminate].
    rewrite result_bind_Ok. apply IH; [exact Hl|].
    clear IH. revert Hpage. unfold DocumentProcessor.split_page.
    destruct (TextSplitter.split_text _ _) as [pieces|e]; [|discriminate].
    rewrite result_bind_Ok. intros [= <-]. revert st Hst. induction pieces as [|s pieces IHp]; intros st Hst;
      [exact Hst|].
    simpl. apply IHp. destruct st as [cs idx]. simpl.
    apply Forall_app. split; [exact Hst|]. apply Forall_singleton.
    exists (source, pg, MInt idx). repeat split; simpl.
    + rewrite lookup_insert_ne by discriminate. exact Hs.
    + rewrite lookup_insert_ne by discriminate. exact Hp.
    + apply lookup_insert_eq.
Qed.

Lemma Forall_exists_Forall2 {A B} (R : A -> B -> Prop) (l : list A) :
  Forall (fun a => exists b, R a b) l -> exists bs, Forall2 R l bs.
Proof.
  induction 1 as [|a l [b Hb] _ [bs IH]].
  - exists []. constructor.
  - exists (b :: bs). constructor; assumption.
Qed.

Lemma process_pdf_provenance path_name fitz_open (self : DocumentProcessor.t)
  (pdf_path : pystr) (chunks : list Doc.t) :
  DocumentProcessor.process_pdf path_name fitz_open self pdf_path = Ok chunks ->
  exists prov, Forall2 Spec.provenance chunks prov.
Proof.
  unfold DocumentProcessor.process_pdf.
  destruct (DocumentProcessor.extract_text_from_pdf _ _ _) as [pages|e] eqn:Hpages;
    [|discriminate].
  rewrite result_bind_Ok.
  destruct (negb (nonempty pages)).
  - intros [= <-]. exists []. constructor.
  - intros Hsplit. apply Forall_exists_Forall2.
    apply (split_into_chunks_provenance self pages); [|exact Hsplit].
    eapply Forall_impl; [exact (extract_text_from_pdf_metadata _ _ _ _ Hpages)|].
    intros page [n ->]. destruct (page_metadata_lookup (path_name pdf_path) n) as [-> ->].
    split; eauto.
Qed.

Lemma process_and_store_pdf_unfold (B : Backend) (self : RAGManager.t)
  path_name fitz_open (pdf_path : pystr) (w : World) :
  RAGManager.process_and_store_pdf B self path_name fitz_open pdf_path w =
  match DocumentProcessor.process_pdf path_name fitz_open
          (RAGManager.document_processor self) pdf_path with
  | Ok chunks =>
      if negb (nonempty chunks) then (Ok false, w)
      else ChromaManager.add_documents B chunks w
  | Raise e => (Raise e, w)
  end.
Proof.
  unfold RAGManager.process_and_store_pdf. rewrite M_bind_unfold.
  unfold lift at 1.
  destruct (DocumentProcessor.process_pdf _ _ _ _) as [chunks|e]; [|reflexivity].
  destruct (negb (nonempty chunks)); reflexivity.
Qed.

(** C2, as amended. On the Chroma collection, when a file has been
    ingested with success, ingesting the same file again returns, derives
    the same record ids (when it gets as far as the collection) and leaves
    the collection exactly as the first ingestion left it: no record is
    added a second time. A record whose id is already in the collection is
    kept as it is, whatever batch is ingested: it is not replaced. *)
Theorem reingestion_adds_nothing ed eq cq (self : RAGManager.t)
  (path_name : pystr -> pystr) (fitz_open : pystr -> result PdfDocument)
  (pdf_path : pystr) (w w1 : World) :
  RAGManager.process_and_store_pdf (Chroma.backend ed eq cq) self path_name
    fitz_open pdf_path w = (Ok true, w1) ->
  exists ids,
    Spec.ids_added (calls w1) = Spec.ids_added (calls w) ++ [ids]
    /\ (exists b w2,
          RAGManager.process_and_store_pdf (Chroma.backend ed eq cq) self
            path_name fitz_open pdf_path w1 = (Ok b, w2)
          /\ collection w2 = collection w1
          /\ (Spec.ids_added (calls w2) = Spec.ids_added (calls w1) ++ [ids]
              \/ Spec.ids_added (calls w2) = Spec.ids_added (calls w1)))
    /\ (forall chunks' id old,
          collection w1 !! id = Some old ->
          collection
            (ChromaManager.add_documents (Chroma.backend ed eq cq) chunks' w1).2
            !! id = Some old).
Proof.
  rewrite !process_and_store_pdf_unfold.
  destruct (DocumentProcessor.process_pdf _ _ _ _) as [chunks|e] eqn:Hchunks;
    [|discriminate].
  destruct (negb (nonempty chunks)); [discriminate|]. intros Hfirst.
  destruct (process_pdf_provenance _ _ _ _ _ Hchunks) as [prov Hprov].
  destruct (add_documents_twice ed eq cq chunks prov w w1 Hprov Hfirst)
    as (Hids & Hsecond).
  exists (map Spec.id_of prov). split; [exact Hids|]. split; [exact Hsecond|].
  intros chunks' id old. apply add_documents_keeps_records.
Qed.

Lemma reingestion_adds_nothing_witness :
  exists b w2,
    RAGManager.process_and_store_pdf (Demo.backend Demo.near Demo.far)
      (Demo.manager 0.5%float) (fun p => p) Demo.fitz_open (lit "rules.pdf")
      Demo.after_file = (Ok b, w2)
    /\ collection w2 = collection Demo.after_file.
Proof.
  destruct (reingestion_adds_nothing
              (fun _ texts => Ok (map (fun _ => [0%float]) texts))
              (fun _ _ => Ok [0%float])
              (fun _ _ _ => Ok (Demo.answers Demo.near Demo.far))
              (Demo.manager 0.5%float) (fun p => p) Demo.fitz_open
              (lit "rules.pdf") Demo.world0 Demo.after_file)
    as (ids & _ & (b & w2 & Hrun & Hsame & _) & _).
  - vm_compute. reflexivity.
  - exists b, w2. split; [exact Hrun | exact Hsame].
Defined.

Example after_file_keys :
  dom (collection Demo.after_file)
  = {[ lit "rules.pdf_1_0"; lit "rules.pdf_2_1" ]}.
Proof. vm_compute. reflexivity. Qed.

(** * Further properties *)

(** ** The threshold gate as a step function *)

(** X1. For a fixed backend, world, query and number of results, raising
    the threshold never turns a grounded answer into an ungrounded one:
    what the threshold gate accepts at a threshold it accepts, with the same
    results and the same effects, at every larger threshold. *)
Theorem threshold_monotone (B : Backend) (query : pystr) (t t' : float)
  (n_results : Z) (w w' : World) (results : list SearchResult.t) :
  PrimFloat.leb t t' = true ->
  ChromaManager.search_with_threshold B query t n_results w
  = (Ok (results, true), w') ->
  ChromaManager.search_with_threshold B query t' n_results w
  = (Ok (results, true), w').
Proof.
  intros Hle.
  destruct (search_returns B query n_results w) as (rs & w1 & Hsearch).
  rewrite !(search_with_threshold_unfold _ _ _ _ _ _ _ Hsearch).
  destruct rs as [|r0 rest]; [discriminate|].
  destruct (PrimFloat.leb (SearchResult.distance r0) t) eqn:Ht; [|discriminate].
  rewrite (float_leb_trans _ _ _ Ht Hle). trivial.
Qed.

Lemma sample_gate_run :
  ChromaManager.search_with_threshold (Demo.backend Demo.near Demo.far)
    Sample.question 0.5%float 3 Demo.world0
  = (Ok (Sample.results Demo.near Demo.far, true), Sample.searched).
Proof. vm_compute. reflexivity. Qed.

Lemma threshold_monotone_witness :
  ChromaManager.search_with_threshold (Demo.backend Demo.near Demo.far)
    Sample.question 1.5%float 3 Demo.world0
  = (Ok (Sample.results Demo.near Demo.far, true), Sample.searched).
Proof.
  apply (threshold_monotone (Demo.backend Demo.near Demo.far)
           Sample.question 0.5%float 1.5%float 3 Demo.world0).
  - reflexivity.
  - exact sample_gate_run.
Defined.

(** ** A grounded answer *)

Lemma occurs_in_refl {A} (s : list A) : occurs_in s s.
Proof. exists [], []. rewrite app_nil_r. reflexivity. Qed.

Lemma occurs_in_app_l {A} (part whole extra : list A) :
  occurs_in part whole -> occurs_in part (whole ++ extra).
Proof.
  intros (a & b & ->). exists a, (b ++ extra). rewrite <- !app_assoc. reflexivity.
Qed.

Lemma occurs_in_app_r {A} (part whole extra : list A) :
  occurs_in part whole -> occurs_in part (extra ++ whole).
Proof.
  intros (a & b & ->). exists (extra ++ a), b. rewrite <- !app_assoc. reflexivity.
Qed.

Lemma occurs_in_trans {A} (a b c : list A) :
  occurs_in a b -> occurs_in b c -> occurs_in a c.
Proof.
  intros (x & y & ->) (x' & y' & ->). exists (x' ++ x), (y ++ y').
  rewrite <- !app_assoc. reflexivity.
Qed.

Lemma occurs_in_join (sep : pystr) (parts : list pystr) (p : pystr) :
  p ∈ parts -> occurs_in p (join sep parts).
Proof.
  induction parts as [|q parts IH]; [intros H; inversion H|].
  intros H. apply elem_of_cons in H as [->|H].
  - destruct parts as [|q' parts]; [apply occurs_in_refl|].
    cbn [join]. apply occurs_in_app_l, occurs_in_refl.
  - destruct parts as [|q' parts]; [inversion H|].
    cbn [join]. apply occurs_in_app_r, occurs_in_app_r, IH, H.
Qed.

Lemma build_rag_context_unfold (r0 : SearchResult.t) (rest : list SearchResult.t) :
  RAGManager.build_rag_context (r0 :: rest)
  = join [10%N; 10%N]
      ((fun p => RAGManager.context_part p.1 p.2) <$> enumerate 1 (r0 :: rest)).
Proof.
  unfold RAGManager.build_rag_context. cbn [nonempty negb].
  rewrite context_parts_map. reflexivity.
Qed.

Lemma build_rag_context_nonempty (r0 : SearchResult.t) (rest : list SearchResult.t) :
  RAGManager.build_rag_context (r0 :: rest) <> [].
Proof.
  rewrite build_rag_context_unfold. cbn [enumerate fmap list_fmap].
  unfold RAGManager.context_part at 1.
  destruct (_ <$> enumerate _ rest); cbn [join fst snd]; discriminate.
Qed.

Lemma saved_chunks_map (l : list SearchResult.t) (acc : list GUI.SavedChunk) :
  fold_left (fun chunks doc => chunks ++ [GUI.saved_chunk doc]) l acc
  = acc ++ (GUI.saved_chunk <$> l).
Proof.
  revert acc. induction l as [|d l IH]; intros acc; simpl.
  - rewrite app_nil_r. reflexivity.
  - rewrite IH, <- app_assoc. reflexivity.
Qed.

(** X2. When [get_rag_response_data] answers [use_rag = True], its search
    results are the whole, non-empty result list of the search, the first
    of them lies within the manager's threshold, the context is the one
    built from those results and is not empty, and the prompt is the one
    built from the question and that context. The GUI then generates the
    answer from the RAG prompt and stores one chunk record per result. *)
Theorem grounded_answer (B : Backend) (self : RAGManager.t)
  (user_question : pystr) (w w' : World) (d : RAGManager.ResponseData) :
  RAGManager.get_rag_response_data B self user_question w = (Ok d, w') ->
  RAGManager.use_rag d = true ->
  exists r0 rest,
    ChromaManager.search B user_question 3 w = (Ok (r0 :: rest), w')
    /\ RAGManager.search_results d = r0 :: rest
    /\ PrimFloat.leb (SearchResult.distance r0) (RAGManager.threshold self) = true
    /\ RAGManager.context d = RAGManager.build_rag_context (r0 :: rest)
    /\ RAGManager.context d <> []
    /\ RAGManager.prompt d
       = RAGManager.build_rag_prompt user_question (RAGManager.context d)
    /\ GUI.rag_mode d = true
    /\ GUI.chunks_to_save (RAGManager.use_rag d) (RAGManager.search_results d)
       = Some (GUI.saved_chunk <$> (r0 :: rest)).
Proof.
  destruct (search_returns B user_question 3 w) as (rs & w1 & Hsearch).
  pose proof (search_with_threshold_unfold B user_question
                (RAGManager.threshold self) 3 w rs w1 Hsearch) as Hgate.
  destruct rs as [|r0 rest].
  - rewrite (get_rag_response_data_unfold _ _ _ _ _ _ _ Hgate).
    intros [= <- _]. discriminate.
  - destruct (PrimFloat.leb _ _) eqn:Hle;
      rewrite (get_rag_response_data_unfold _ _ _ _ _ _ _ Hgate);
      intros [= <- <-]; [intros _ | discriminate].
    exists r0, rest. cbn [RAGManager.search_results RAGManager.context
                         RAGManager.prompt RAGManager.use_rag].
    split; [exact Hsearch|]. split; [reflexivity|]. split; [exact Hle|].
    split; [reflexivity|]. split; [apply build_rag_context_nonempty|].
    split; [reflexivity|]. split.
    + unfold GUI.rag_mode. cbn [RAGManager.use_rag RAGManager.context andb].
      pose proof (build_rag_context_nonempty r0 rest) as Hne.
      destruct (RAGManager.build_rag_context (r0 :: rest)); [congruence|reflexivity].
    + unfold GUI.chunks_to_save. cbn [nonempty andb].
      rewrite saved_chunks_map. reflexivity.
Qed.

Lemma sample_grounded_run :
  RAGManager.get_rag_response_data (Demo.backend Demo.near Demo.far)
    (Demo.manager 0.5%float) Sample.question Demo.world0
  = (Ok {| RAGManager.use_rag := true;
           RAGManager.context :=
             RAGManager.build_rag_context (Sample.results Demo.near Demo.far);
           RAGManager.prompt :=
             RAGManager.build_rag_prompt Sample.question
               (RAGManager.build_rag_context (Sample.results Demo.near Demo.far));
           RAGManager.search_results := Sample.results Demo.near Demo.far |},
     Sample.searched).
Proof. vm_compute. reflexivity. Qed.

Lemma grounded_answer_witness :
  exists r0 rest,
    ChromaManager.search (Demo.backend Demo.near Demo.far) Sample.question 3
      Demo.world0 = (Ok (r0 :: rest), Sample.searched)
    /\ PrimFloat.leb (SearchResult.distance r0) 0.5%float = true.
Proof.
  destruct (grounded_answer (Demo.backend Demo.near Demo.far)
              (Demo.manager 0.5%float) Sample.question Demo.world0
              Sample.searched _ sample_grounded_run)
    as (r0 & rest & Hsearch & _ & Hle & _); [reflexivity|].
  exists r0, rest. split; [exact Hsearch | exact Hle].
Defined.

Ltac find_part :=
  first [ apply occurs_in_refl
        | apply occurs_in_app_l, occurs_in_refl
        | apply occurs_in_app_r; find_part ].

(** X3. The prompt of a grounded answer quotes its material: the user's
    question, and for every accepted result its text, its source and its
    page, each in full and unchanged. *)
Theorem prompt_quotes_results (user_question : pystr)
  (search_results : list SearchResult.t) (r : SearchResult.t) :
  r ∈ search_results ->
  let prompt :=
    RAGManager.build_rag_prompt user_question
      (RAGManager.build_rag_context search_results) in
  occurs_in user_question prompt
  /\ occurs_in (SearchResult.text r) prompt
  /\ occurs_in (RAGManager.get_str (SearchResult.metadata r) "source" (lit "不明"))
       prompt
  /\ occurs_in (RAGManager.get_str (SearchResult.metadata r) "page" (lit "?"))
       prompt.
Proof.
  intros Hr prompt.
  assert (Hctx : occurs_in (RAGManager.build_rag_context search_results) prompt).
  { unfold prompt, RAGManager.build_rag_prompt.
    find_part. }
  assert (Hpart : exists i,
    occurs_in (RAGManager.context_part i r)
      (RAGManager.build_rag_context search_results)).
  { destruct search_results as [|r0 rest]; [inversion Hr|].
    rewrite build_rag_context_unfold.
    apply list_elem_of_lookup in Hr as [k Hk].
    exists (1 + Z.of_nat k). apply occurs_in_join.
    apply list_elem_of_lookup. exists k.
    rewrite list_lookup_fmap, (enumerate_lookup 1 _ _ _ Hk). reflexivity. }
  destruct Hpart as [i Hpart].
  assert (Hin : forall s, occurs_in s (RAGManager.context_part i r) ->
                          occurs_in s prompt).
  { intros s Hs. exact (occurs_in_trans _ _ _ Hs (occurs_in_trans _ _ _ Hpart Hctx)). }
  split; [|split; [|split]].
  - unfold prompt, RAGManager.build_rag_prompt.
    find_part.
  - apply Hin. unfold RAGManager.context_part.
    find_part.
  - apply Hin. unfold RAGManager.context_part.
    find_part.
  - apply Hin. unfold RAGManager.context_part.
    find_part.
Qed.

Lemma prompt_quotes_results_witness :
  occurs_in (lit "書類不備")
    (RAGManager.build_rag_prompt Sample.question
       (RAGManager.build_rag_context (Sample.results Demo.near Demo.far))).
Proof.
  apply (prompt_quotes_results Sample.question
           (Sample.results Demo.near Demo.far)
           {| SearchResult.text := lit "書類不備";
              SearchResult.metadata := Demo.meta "flow.pdf" 1;
              SearchResult.distance := Demo.far |}).
  right. left.
Defined.

(** ** What a search does and returns *)

Lemma search_run (B : Backend) (query : pystr) (n_results : Z) (w : World) :
  ChromaManager.search B query n_results w =
  let w1 := record (EmbedQuery query) w in
  match embed_query B w query with
  | Raise _ => (Ok [], w1)
  | Ok e =>
      let w2 := record (CollectionQuery e n_results) w1 in
      match collection_query B w1 e n_results with
      | Raise _ => (Ok [], w2)
      | Ok qr =>
          (Ok match ChromaManager.format_results qr with
              | Ok l => l
              | Raise _ => []
              end, w2)
      end
  end.
Proof.
  unfold ChromaManager.search, try_catch. rewrite M_bind_unfold.
  unfold ChromaManager.call_embed_query at 1.
  destruct (embed_query B w query) as [e|err]; [|reflexivity].
  rewrite M_bind_unfold. unfold ChromaManager.call_collection_query at 1.
  destruct (collection_query B _ e n_results) as [qr|err]; [|reflexivity].
  unfold lift. destruct (ChromaManager.format_results qr); reflexivity.
Qed.

Lemma for_each_ext {S A} (f g : S -> A -> result S) (xs : list A) (st : S) :
  (forall st x, f st x = g st x) -> for_each f xs st = for_each g xs st.
Proof.
  intros Hfg. revert st. induction xs as [|x xs IH]; intros st; [reflexivity|].
  simpl. rewrite Hfg. destruct (g st x); simpl; [apply IH | reflexivity].
Qed.

Lemma for_each_collect {A X} (f : A -> result X) (l : list A) (acc : list X) :
  for_each (fun acc a => x ← f a; mret (acc ++ [x])) l acc
  = (xs ← traverse f l; mret (acc ++ xs)).
Proof.
  revert acc. induction l as [|a l IH]; intros acc; simpl.
  - rewrite app_nil_r. reflexivity.
  - destruct (f a) as [x|e]; simpl; [|reflexivity].
    rewrite IH. destruct (traverse f l) as [xs|e]; simpl; [|reflexivity].
    rewrite <- app_assoc. reflexivity.
Qed.

Lemma traverse_Ok {A X} (f : A -> result X) (l : list A) (xs : list X) :
  traverse f l = Ok xs -> Forall2 (fun a x => f a = Ok x) l xs.
Proof.
  revert xs. induction l as [|a l IH]; intros xs; simpl.
  - intros [= <-]. constructor.
  - destruct (f a) as [x|e] eqn:E; simpl; [|discriminate].
    destruct (traverse f l) as [xs'|e]; simpl; [|discriminate].
    intros [= <-]. constructor; [exact E | apply IH; reflexivity].
Qed.

Lemma cell_Ok {A} (column : option (list (list A))) (i : nat) (x : A) :
  ChromaManager.cell column i = Ok x ->
  exists row rows, column = Some (row :: rows) /\ row !! i = Some x.
Proof.
  unfold ChromaManager.cell, ChromaManager.index.
  destruct column as [[|row rows]|]; simpl; try discriminate.
  destruct (row !! i) as [y|] eqn:E; [|discriminate].
  intros [= <-]. eauto.
Qed.

(** What [format_results] returns, when it returns results at all. *)
Lemma format_results_aligned (qr : QueryResult) (l : list SearchResult.t) :
  ChromaManager.format_results qr = Ok l -> l <> [] ->
  exists docs metas dists t1 t2 t3,
    documents qr = Some (docs :: t1)
    /\ metadatas qr = Some (metas :: t2)
    /\ distances qr = Some (dists :: t3)
    /\ SearchResult.text <$> l = docs
    /\ forall (i : nat) (r : SearchResult.t),
        l !! i = Some r ->
        metas !! i = Some (SearchResult.metadata r)
        /\ dists !! i = Some (SearchResult.distance r).
Proof.
  unfold ChromaManager.format_results.
  destruct (documents qr) as [[|docs t1]|] eqn:Hdocs; try (intros [= <-]; congruence).
  destruct (nonempty docs); [|intros [= <-]; congruence].
  set (f := fun i : nat =>
    text ← ChromaManager.cell (Some (docs :: t1)) i;
    metadata ← ChromaManager.cell (metadatas qr) i;
    distance ← ChromaManager.cell (distances qr) i;
    mret {| SearchResult.text := text; SearchResult.metadata := metadata;
            SearchResult.distance := distance |}).
  rewrite (for_each_ext _ (fun acc i => x ← f i; mret (acc ++ [x]))).
  2:{ intros st i. unfold f.
      destruct (ChromaManager.cell (Some (docs :: t1)) i); simpl; [|reflexivity].
      destruct (ChromaManager.cell (metadatas qr) i); simpl; [|reflexivity].
      destruct (ChromaManager.cell (distances qr) i); reflexivity. }
  rewrite for_each_collect.
  destruct (traverse f (seq 0 (length docs))) as [xs|e] eqn:Htr; [|discriminate].
  simpl. intros [= <-] Hne. apply traverse_Ok in Htr.
  assert (Hall : forall (i : nat) r, xs !! i = Some r ->
    docs !! i = Some (SearchResult.text r)
    /\ (exists metas t2, metadatas qr = Some (metas :: t2)
                         /\ metas !! i = Some (SearchResult.metadata r))
    /\ (exists dists t3, distances qr = Some (dists :: t3)
                         /\ dists !! i = Some (SearchResult.distance r))).
  { intros i r Hi.
    destruct (Forall2_lookup_r _ _ _ _ _ Htr Hi) as (k & Hk & Hf).
    apply lookup_seq in Hk as [-> _]. simpl in Hf. unfold f in Hf.
    destruct (ChromaManager.cell (Some (docs :: t1)) i) as [t|] eqn:E1;
      [|discriminate].
    destruct (ChromaManager.cell (metadatas qr) i) as [m|] eqn:E2; [|discriminate].
    destruct (ChromaManager.cell (distances qr) i) as [d|] eqn:E3; [|discriminate].
    simpl in Hf. injection Hf as <-. simpl.
    apply cell_Ok in E1 as (row & rows & [= <- <-] & E1).
    apply cell_Ok in E2 as (metas & t2 & E2 & E2').
    apply cell_Ok in E3 as (dists & t3 & E3 & E3').
    eauto 10. }
  destruct xs as [|x0 xs]; [congruence|].
  destruct (Hall 0%nat x0 eq_refl) as (_ & (metas & t2 & Hm & _) & (dists & t3 & Hd & _)).
  exists docs, metas, dists, t1, t2, t3.
  split; [reflexivity|]. split; [exact Hm|]. split; [exact Hd|]. split.
  - apply list_eq. intros i. rewrite list_lookup_fmap.
    destruct ((x0 :: xs) !! i) as [r|] eqn:Hi; simpl.
    + destruct (Hall i r Hi) as (-> & _). reflexivity.
    + apply lookup_ge_None in Hi. symmetry. apply lookup_ge_None.
      apply Forall2_length in Htr. rewrite length_seq in Htr. lia.
  - intros i r Hi. destruct (Hall i r Hi) as (_ & (m' & t2' & Hm' & Hmi) & (d' & t3' & Hd' & Hdi)).
    rewrite Hm in Hm'. rewrite Hd in Hd'.
    injection Hm' as <- <-. injection Hd' as <- <-. auto.
Qed.

(** X4. A search that returns results returns one per document of the
    backend's answer, in the answer's order, and the text, the metadata
    and the distance of each result are the entries at one and the same
    position of the three columns: records are never mixed, and a
    result list is never partial. *)
Theorem search_results_aligned (B : Backend) (query : pystr) (n_results : Z)
  (w w' : World) (results : list SearchResult.t) :
  ChromaManager.search B query n_results w = (Ok results, w') ->
  results <> [] ->
  exists e qr docs metas dists t1 t2 t3,
    embed_query B w query = Ok e
    /\ collection_query B (record (EmbedQuery query) w) e n_results = Ok qr
    /\ documents qr = Some (docs :: t1)
    /\ metadatas qr = Some (metas :: t2)
    /\ distances qr = Some (dists :: t3)
    /\ SearchResult.text <$> results = docs
    /\ forall (i : nat) (r : SearchResult.t),
        results !! i = Some r ->
        metas !! i = Some (SearchResult.metadata r)
        /\ dists !! i = Some (SearchResult.distance r).
Proof.
  rewrite search_run. cbv zeta.
  destruct (embed_query B w query) as [e|err]; [|intros [= <- _]; congruence].
  destruct (collection_query B _ e n_results) as [qr|err] eqn:Hq;
    [|intros [= <- _]; congruence].
  destruct (ChromaManager.format_results qr) as [l|err] eqn:Hfmt;
    [|intros [= <- _]; congruence].
  intros [= <- _] Hne.
  destruct (format_results_aligned qr l Hfmt Hne)
    as (docs & metas & dists & t1 & t2 & t3 & H).
  exists e, qr, docs, metas, dists, t1, t2, t3.
  split; [reflexivity|]. split; [exact Hq|]. exact H.
Qed.

Lemma search_results_aligned_witness :
  exists docs,
    SearchResult.text <$> Sample.results Demo.near Demo.far = docs
    /\ docs = [lit "審査の流れ"; lit "書類不備"].
Proof.
  destruct (search_results_aligned (Demo.backend Demo.near Demo.far)
              Sample.question 3 Demo.world0 Sample.searched
              (Sample.results Demo.near Demo.far))
    as (e & qr & docs & metas & dists & t1 & t2 & t3 & _ & _ & _ & _ & _ & Htext & _).
  - vm_compute. reflexivity.
  - discriminate.
  - exists docs. split; [exact Htext|]. rewrite <- Htext. reflexivity.
Defined.

(** X5. Whatever the backend answers, a search embeds the query exactly
    once and asks the collection at most once, with the embedding it got
    and the number of results it was asked for; when the embedding
    fails the collection is not asked at all and the result is empty.
    A search never changes the collection. *)
Theorem search_calls (B : Backend) (query : pystr) (n_results : Z) (w : World) :
  let out := ChromaManager.search B query n_results w in
  collection out.2 = collection w
  /\ match embed_query B w query with
     | Raise _ => out.1 = Ok [] /\ calls out.2 = calls w ++ [EmbedQuery query]
     | Ok e =>
         calls out.2
         = calls w ++ [EmbedQuery query; CollectionQuery e n_results]
     end.
Proof.
  cbv zeta. rewrite search_run. cbv zeta.
  destruct (embed_query B w query) as [e|err]; [|auto].
  destruct (collection_query B _ e n_results) as [qr|err];
    cbn [fst snd record calls collection]; rewrite <- app_assoc; auto.
Qed.

(** ** Writing a batch *)

Lemma traverse_raises {A X} (f : A -> result X) (l : list A) (a : A) (e : exn) :
  a ∈ l -> f a = Raise e -> exists e', traverse f l = Raise e'.
Proof.
  intros Hin Hf. induction l as [|b l IH]; [inversion Hin|].
  simpl. apply elem_of_cons in Hin as [<-|Hin].
  - rewrite Hf. eauto.
  - destruct (f b); simpl; [|eauto].
    destruct (IH Hin) as [e' ->]. eauto.
Qed.

(** X6. A batch in which some chunk lacks [source], [page] or
    [chunk_index] is refused as a whole before anything leaves the
    process: [add_documents] returns [False], no text is embedded and the
    collection is not called. *)
Theorem add_documents_missing_key (B : Backend) (chunks : list Doc.t)
  (chunk : Doc.t) (key : string) (w : World) :
  chunk ∈ chunks ->
  key ∈ ["source"; "page"; "chunk_index"] ->
  Doc.metadata chunk !! key = None ->
  ChromaManager.add_documents B chunks w = (Ok false, w).
Proof.
  intros Hin Hkey Hnone.
  assert (Hid : exists e, ChromaManager.chunk_id chunk = Raise e).
  { unfold ChromaManager.chunk_id, ChromaManager.getitem.
    repeat (apply elem_of_cons in Hkey as [->|Hkey]);
      [| |  | inversion Hkey].
    - rewrite Hnone. eauto.
    - destruct (Doc.metadata chunk !! "source"); [|eauto].
      rewrite Hnone. eauto.
    - destruct (Doc.metadata chunk !! "source"); [|eauto].
      destruct (Doc.metadata chunk !! "page"); [|eauto].
      rewrite Hnone. eauto. }
  destruct Hid as [e Hid].
  destruct (traverse_raises _ _ _ _ Hin Hid) as [e' Htr].
  unfold ChromaManager.add_documents.
  destruct chunks as [|c0 chunks]; [reflexivity|]. cbn [nonempty negb].
  unfold try_catch. rewrite M_bind_unfold. unfold lift at 1. rewrite Htr.
  reflexivity.
Qed.

Lemma add_documents_missing_key_witness :
  ChromaManager.add_documents (Demo.backend Demo.near Demo.far)
    [Demo.chunk "rules.pdf" 3 0 "審査の流れ";
     {| Doc.text := lit "書類不備"; Doc.metadata := Demo.meta "rules.pdf" 4 |}]
    Demo.world0
  = (Ok false, Demo.world0).
Proof.
  apply (add_documents_missing_key (Demo.backend Demo.near Demo.far) _
           {| Doc.text := lit "書類不備"; Doc.metadata := Demo.meta "rules.pdf" 4 |}
           "chunk_index").
  - right. left.
  - right. right. left.
  - vm_compute. reflexivity.
Defined.

(** X7. When the embedding of the batch fails, [add_documents] returns
    [False], the collection holds what it held and [collection.add] has
    not been called: nothing of a batch is written without the
    embeddings of the whole batch. *)
Theorem add_documents_embedding_fails (B : Backend) (chunks : list Doc.t)
  (w : World) (e : exn) :
  embed_documents B w (map Doc.text chunks) = Raise e ->
  (ChromaManager.add_documents B chunks w).1 = Ok false
  /\ collection (ChromaManager.add_documents B chunks w).2 = collection w
  /\ Spec.ids_added (calls (ChromaManager.add_documents B chunks w).2)
     = Spec.ids_added (calls w).
Proof.
  intros Hembed.
  assert (Hrun : ChromaManager.add_documents B chunks w = (Ok false, w)
                 \/ ChromaManager.add_documents B chunks w
                    = (Ok false, record (EmbedDocuments (map Doc.text chunks)) w)).
  { destruct (nonempty chunks) eqn:Hne;
      [destruct (traverse ChromaManager.chunk_id chunks) as [ids|err] eqn:Hids;
       [right|left] | left];
      unfold ChromaManager.add_documents; rewrite Hne; cbn [negb];
      [| |reflexivity];
      unfold try_catch; rewrite M_bind_unfold; unfold lift at 1; rewrite Hids;
      [|reflexivity].
    rewrite M_bind_unfold. unfold ChromaManager.call_embed_documents at 1.
    rewrite Hembed. reflexivity. }
  destruct Hrun as [-> | ->]; cbn [fst snd record collection calls]; [auto|].
  rewrite ids_added_app. cbn. rewrite app_nil_r. auto.
Qed.

Lemma add_documents_embedding_fails_witness :
  (ChromaManager.add_documents
     (Chroma.backend (fun _ _ => Raise (ServiceError 429))
        (fun _ _ => Ok [0%float]) (fun _ _ _ => Raise (ServiceError 500)))
     Demo.batch Demo.world_old).1 = Ok false.
Proof.
  apply (add_documents_embedding_fails
           (Chroma.backend (fun _ _ => Raise (ServiceError 429))
              (fun _ _ => Ok [0%float]) (fun _ _ _ => Raise (ServiceError 500)))
           Demo.batch Demo.world_old (ServiceError 429)).
  reflexivity.
Defined.

(** *** Looking up what was written *)






(** ** Record ids *)

Lemma digits_inj (d d' : Decimal.uint) : digits d = digits d' -> d = d'.
Proof.
  revert d'. induction d; destruct d'; simpl; intros H;
    try discriminate H; try reflexivity;
    injection H as H; f_equal; auto.
Qed.

Lemma digits_are_digits (d : Decimal.uint) :
  Forall (fun c => (48 <= c <= 57)%N) (digits d).
Proof. induction d; simpl; constructor; (lia || assumption). Qed.

Lemma str_of_int_chars (z : Z) :
  Forall (fun c => c = 45%N \/ (48 <= c <= 57)%N) (str_of_int z).
Proof.
  unfold str_of_int.
  destruct (Z.to_int z) as [d|d]; [|constructor; [auto|]];
    (eapply Forall_impl; [apply digits_are_digits | auto]).
Qed.

Lemma str_of_int_no_underscore (z : Z) : 95%N ∉ str_of_int z.
Proof.
  intros Hin. pose proof (str_of_int_chars z) as H.
  rewrite Forall_forall in H. destruct (H _ Hin); lia.
Qed.

Lemma str_of_int_inj (z z' : Z) : str_of_int z = str_of_int z' -> z = z'.
Proof.
  unfold str_of_int. intros H. apply DecimalZ.to_int_inj.
  destruct (Z.to_int z) as [d|d], (Z.to_int z') as [d'|d'].
  - f_equal. apply digits_inj, H.
  - pose proof (digits_are_digits d) as Hd. rewrite H in Hd.
    apply Forall_cons in Hd as [Hd _]. lia.
  - pose proof (digits_are_digits d') as Hd. rewrite <- H in Hd.
    apply Forall_cons in Hd as [Hd _]. lia.
  - injection H as H. f_equal. apply digits_inj, H.
Qed.

(** A string is cut in one way only at a character that the part after
    the cut does not contain. *)
Lemma cut_at_last (c : N) (x x' y y' : pystr) :
  c ∉ y -> c ∉ y' -> x ++ c :: y = x' ++ c :: y' -> x = x' /\ y = y'.
Proof.
  intros Hy Hy'. revert x'. induction x as [|a x IH]; intros [|a' x']; simpl.
  - intros [= ->]. auto.
  - intros [= <- ->]. exfalso. apply Hy. set_solver.
  - intros [= -> <-]. exfalso. apply Hy'. set_solver.
  - intros [= <- H]. destruct (IH _ H) as [-> ->]. auto.
Qed.

Lemma record_id_cut (source page : MetaValue) (i : Z) :
  Spec.record_id source page (MInt i)
  = (str source ++ 95%N :: str page) ++ 95%N :: str_of_int i.
Proof. unfold Spec.record_id. rewrite <- app_assoc. reflexivity. Qed.

Lemma record_id_index (source page source' page' : MetaValue) (i i' : Z) :
  Spec.record_id source page (MInt i) = Spec.record_id source' page' (MInt i') ->
  str source ++ 95%N :: str page = str source' ++ 95%N :: str page' /\ i = i'.
Proof.
  rewrite !record_id_cut. intros H.
  apply cut_at_last in H as [H1 H2]; auto using str_of_int_no_underscore.
  split; [exact H1 | apply str_of_int_inj, H2].
Qed.

Lemma record_id_inj (source source' : pystr) (page page' i i' : Z) :
  Spec.record_id (MStr source) (MInt page) (MInt i)
  = Spec.record_id (MStr source') (MInt page') (MInt i') ->
  source = source' /\ page = page' /\ i = i'.
Proof.
  intros H. apply record_id_index in H as [H ->]. simpl in H.
  apply cut_at_last in H as [-> H]; auto using str_of_int_no_underscore.
  apply str_of_int_inj in H. auto.
Qed.

(** X9. The id identifies the chunk: two records whose source is a
    string and whose page and chunk index are integers have the same id
    only when source, page and chunk index all agree, whatever
    underscores the file name contains. *)
Theorem record_id_injective (source source' : pystr) (page page' i i' : Z) :
  Spec.record_id (MStr source) (MInt page) (MInt i)
  = Spec.record_id (MStr source') (MInt page') (MInt i') ->
  source = source' /\ page = page' /\ i = i'.
Proof. apply record_id_inj. Qed.

Lemma record_id_injective_witness :
  lit "acom_workflow_rag.pdf" = lit "acom_workflow_rag.pdf" /\ 12 = 12 /\ 3 = 3.
Proof.
  apply (record_id_injective (lit "acom_workflow_rag.pdf")
           (lit "acom_workflow_rag.pdf") 12 12 3 3).
  reflexivity.
Defined.

(** Without the types the format would not tell the file [a_1], page 2,
    from the file [a] with [1_2] for a page. *)
Example record_id_needs_integers :
  Spec.record_id (MStr (lit "a_1")) (MInt 2) (MInt 0)
  = Spec.record_id (MStr (lit "a")) (MStr (lit "1_2")) (MInt 0).
Proof. reflexivity. Qed.

Lemma ids_distinct_by_index (chunks : list Doc.t)
  (prov : list (MetaValue * MetaValue * MetaValue)) :
  Forall2 Spec.provenance chunks prov ->
  (forall (i : nat) (c : Doc.t), chunks !! i = Some c ->
     Doc.metadata c !! "chunk_index" = Some (MInt (Z.of_nat i))) ->
  NoDup (map Spec.id_of prov).
Proof.
  intros Hprov Hidx. apply NoDup_alt. intros i j id Hi Hj.
  rewrite list_lookup_fmap in Hi, Hj.
  destruct (prov !! i) as [p|] eqn:Hpi; [|discriminate].
  destruct (prov !! j) as [q|] eqn:Hpj; [|discriminate].
  injection Hi as Hi. injection Hj as Hj.
  destruct (Forall2_lookup_r _ _ _ _ _ Hprov Hpi) as (c & Hc & Hcp).
  destruct (Forall2_lookup_r _ _ _ _ _ Hprov Hpj) as (c' & Hc' & Hcq).
  destruct Hcp as (_ & _ & Hci). destruct Hcq as (_ & _ & Hcj).
  rewrite (Hidx _ _ Hc) in Hci. rewrite (Hidx _ _ Hc') in Hcj.
  injection Hci as Hci. injection Hcj as Hcj.
  unfold Spec.id_of in Hi, Hj. rewrite <- Hci in Hi. rewrite <- Hcj in Hj.
  rewrite <- Hj in Hi. apply record_id_index in Hi as [_ Hi]. lia.
Qed.

(** X10. The chunks [process_pdf] makes of one file all get different
    ids, so the collection's check for a repeated id never refuses the
    batch of a file. *)
Theorem pdf_ids_distinct (chunk_size chunk_overlap : Z)
  (self : DocumentProcessor.t) path_name fitz_open (pdf_path : pystr)
  (chunks : list Doc.t) :
  DocumentProcessor.__init__ chunk_size chunk_overlap = Ok self ->
  DocumentProcessor.process_pdf path_name fitz_open self pdf_path = Ok chunks ->
  exists ids,
    traverse ChromaManager.chunk_id chunks = Ok ids /\ NoDup ids.
Proof.
  intros Hinit Hrun.
  destruct (process_pdf_provenance _ _ _ _ _ Hrun) as [prov Hprov].
  exists (map Spec.id_of prov). split; [apply traverse_chunk_id, Hprov|].
  apply (ids_distinct_by_index chunks); [exact Hprov|].
  revert Hrun. unfold DocumentProcessor.process_pdf.
  destruct (DocumentProcessor.extract_text_from_pdf _ _ _) as [pages|e];
    [|discriminate].
  rewrite result_bind_Ok. destruct (negb (nonempty pages)).
  - intros [= <-] i c Hc. discriminate.
  - intros Hsplit.
    destruct (split_into_chunks_spec _ _ _ Hinit pages) as (chunks' & Hrun' & Hinv).
    rewrite Hsplit in Hrun'. injection Hrun' as <-. apply Hinv.
Qed.

Lemma pdf_ids_distinct_witness :
  exists ids,
    traverse ChromaManager.chunk_id
      [Demo.chunk "rules.pdf" 1 0 "審査の流れ"; Demo.chunk "rules.pdf" 2 1 "書類不備"]
    = Ok ids /\ NoDup ids.
Proof.
  apply (pdf_ids_distinct 500 100 (DocumentProcessor.constructed 500 100)
           (fun p => p) Demo.fitz_open (lit "rules.pdf")).
  - reflexivity.
  - vm_compute. reflexivity.
Defined.

(** ** Chunks are excerpts *)

Lemma excerpt_trans (a b c : pystr) :
  occurs_in b c -> excerpt b a -> excerpt c a.
Proof. intros Hbc [Hne Hab]. split; [exact Hne|]. eapply occurs_in_trans; eauto. Qed.

Lemma lstrip_suffix (s : pystr) : lstrip s `suffix_of` s.
Proof.
  induction s as [|c s IH]; simpl; [reflexivity|].
  destruct (isspace c); [apply suffix_cons_r, IH | reflexivity].
Qed.

Lemma rstrip_prefix (s : pystr) : rstrip s `prefix_of` s.
Proof.
  unfold rstrip. destruct (lstrip_suffix (rev s)) as [k Hk].
  exists (rev k). rewrite <- rev_app_distr, <- Hk, rev_involutive. reflexivity.
Qed.

Lemma strip_occurs (s : pystr) : occurs_in (strip s) s.
Proof.
  unfold strip. destruct (rstrip_prefix (lstrip s)) as [after Ha].
  destruct (lstrip_suffix s) as [before Hb].
  exists before, after. rewrite <- Ha. exact Hb.
Qed.

Lemma occurs_in_concat_suffix (window l : list pystr) :
  window `suffix_of` l -> occurs_in (concat window) (concat l).
Proof.
  intros [k ->]. rewrite concat_app. apply occurs_in_app_r, occurs_in_refl.
Qed.

Lemma join_docs_excerpt (docs : list pystr) (doc : pystr) :
  TextSplitter._join_docs docs [] = Some doc -> excerpt (concat docs) doc.
Proof.
  unfold TextSplitter._join_docs. rewrite join_nil.
  pose proof (strip_occurs (concat docs)) as H.
  destruct (strip (concat docs)) as [|c s]; [discriminate|].
  intros [= <-]. split; [discriminate | exact H].
Qed.

Section Excerpts.
Variable self : TextSplitter.t.

Lemma pop_front_suffix (separator_len _len : Z) (current_doc rest : list pystr)
  (total total' : Z) :
  TextSplitter.pop_front self separator_len _len current_doc total
  = Ok (rest, total') ->
  rest `suffix_of` current_doc.
Proof.
  revert total. induction current_doc as [|d0 cd IH]; intros total;
    cbn [TextSplitter.pop_front]; destruct (_ || _).
  - discriminate.
  - intros [= <- _]. reflexivity.
  - intros H. apply suffix_cons_r, (IH _ H).
  - intros [= <- _]. reflexivity.
Qed.

Lemma merge_step_excerpts (whole : pystr) (pre : list pystr)
  (st st' : list pystr * list pystr * Z) (d : pystr) :
  occurs_in (concat pre) whole ->
  Forall (excerpt whole) st.1.1 -> st.1.2 `suffix_of` pre ->
  TextSplitter.merge_step self [] st d = Ok st' ->
  Forall (excerpt whole) st'.1.1 /\ st'.1.2 `suffix_of` (pre ++ [d]).
Proof.
  destruct st as [[docs cd] total]. simpl. intros Hpre Hdocs Hcd.
  unfold TextSplitter.merge_step.
  destruct (_ && _).
  - destruct (TextSplitter.pop_front _ _ _ _ _) as [[cd1 total1]|e] eqn:Hpop;
      [|discriminate].
    rewrite !result_bind_Ok. intros [= <-]. simpl. split.
    + destruct (TextSplitter._join_docs cd []) as [doc|] eqn:Hjoin; [|exact Hdocs].
      apply Forall_app. split; [exact Hdocs|]. apply Forall_singleton.
      apply (excerpt_trans _ (concat cd)); [|apply join_docs_excerpt, Hjoin].
      eapply occurs_in_trans; [apply occurs_in_concat_suffix, Hcd | exact Hpre].
    + apply suffix_app. etrans; [apply (pop_front_suffix _ _ _ _ _ _ Hpop) | exact Hcd].
  - rewrite result_bind_Ok. intros [= <-]. simpl. split; [exact Hdocs|].
    apply suffix_app, Hcd.
Qed.

Lemma merge_loop_excerpts (whole : pystr) (rest pre : list pystr)
  (st st' : list pystr * list pystr * Z) :
  occurs_in (concat (pre ++ rest)) whole ->
  Forall (excerpt whole) st.1.1 -> st.1.2 `suffix_of` pre ->
  for_each (TextSplitter.merge_step self []) rest st = Ok st' ->
  Forall (excerpt whole) st'.1.1 /\ st'.1.2 `suffix_of` (pre ++ rest).
Proof.
  revert pre st. induction rest as [|d rest IH]; intros pre st Hwhole Hdocs Hcd.
  - simpl. intros [= <-]. rewrite app_nil_r. auto.
  - simpl. destruct (TextSplitter.merge_step self [] st d) as [st1|e] eqn:Hstep;
      [|discriminate].
    rewrite result_bind_Ok. intros Hrest.
    replace (pre ++ d :: rest) with ((pre ++ [d]) ++ rest) in *
      by (rewrite <- app_assoc; reflexivity).
    assert (Hpre : occurs_in (concat pre) whole).
    { eapply occurs_in_trans; [|exact Hwhole].
      rewrite <- app_assoc, concat_app. apply occurs_in_app_l, occurs_in_refl. }
    destruct (merge_step_excerpts whole pre st st1 d Hpre Hdocs Hcd Hstep)
      as [H1 H2].
    apply (IH (pre ++ [d]) st1 Hwhole H1 H2 Hrest).
Qed.

Lemma merge_splits_excerpts (whole : pystr) (splits docs : list pystr) :
  occurs_in (concat splits) whole ->
  TextSplitter._merge_splits self splits [] = Ok docs ->
  Forall (excerpt whole) docs.
Proof.
  intros Hwhole. unfold TextSplitter._merge_splits.
  destruct (for_each _ _ _) as [[[docs' cd] total]|e] eqn:Hloop; [|discriminate].
  rewrite result_bind_Ok.
  destruct (merge_loop_excerpts whole splits [] ([], [], 0) (docs', cd, total)
              Hwhole) as [H1 H2];
    [constructor | reflexivity | exact Hloop |].
  simpl in H1, H2.
  destruct (TextSplitter._join_docs cd []) as [doc|] eqn:Hjoin; intros [= <-];
    [|exact H1].
  apply Forall_app. split; [exact H1|]. apply Forall_singleton.
  apply (excerpt_trans _ (concat cd)); [|apply join_docs_excerpt, Hjoin].
  eapply occurs_in_trans; [apply occurs_in_concat_suffix, H2 | exact Hwhole].
Qed.

Lemma occurs_in_concat_elem (s : pystr) (l : list pystr) :
  s ∈ l -> occurs_in s (concat l).
Proof.
  intros Hin. apply list_elem_of_split in Hin as (l1 & l2 & ->).
  rewrite concat_app. apply occurs_in_app_r. simpl.
  apply occurs_in_app_l, occurs_in_refl.
Qed.

Lemma merged_excerpts (whole : pystr) (pre good final_chunks final' : list pystr) :
  occurs_in (concat pre) whole -> good `suffix_of` pre ->
  Forall (excerpt whole) final_chunks ->
  (if nonempty good
   then merged_text ← TextSplitter._merge_splits self good [];
        mret (final_chunks ++ merged_text)
   else mret final_chunks) = Ok final' ->
  Forall (excerpt whole) final'.
Proof.
  intros Hpre Hgood Hfinal. destruct (nonempty good).
  - destruct (TextSplitter._merge_splits self good []) as [merged|e] eqn:Hm;
      [|discriminate].
    rewrite result_bind_Ok. intros [= <-]. apply Forall_app. split; [exact Hfinal|].
    apply (merge_splits_excerpts whole good); [|exact Hm].
    eapply occurs_in_trans; [apply occurs_in_concat_suffix, Hgood | exact Hpre].
  - intros [= <-]. exact Hfinal.
Qed.

Lemma split_step_excerpts recurse (whole : pystr) (pre : list pystr)
  (st st' : list pystr * list pystr) (s : pystr) :
  recurse_excerpts recurse ->
  occurs_in (concat pre) whole -> excerpt whole s ->
  Forall (excerpt whole) st.1 -> st.2 `suffix_of` pre ->
  TextSplitter.split_step self recurse st s = Ok st' ->
  Forall (excerpt whole) st'.1 /\ st'.2 `suffix_of` (pre ++ [s]).
Proof.
  destruct st as [final_chunks good]. simpl. intros Hrec Hpre Hs Hfinal Hgood.
  unfold TextSplitter.split_step.
  destruct (len s <? TextSplitter._chunk_size self).
  - intros [= <-]. simpl. split; [exact Hfinal | apply suffix_app, Hgood].
  - destruct (if nonempty good then _ else _) as [final1|e] eqn:Hmerged;
      [|discriminate].
    rewrite result_bind_Ok.
    pose proof (merged_excerpts whole pre good final_chunks final1 Hpre Hgood
                  Hfinal Hmerged) as Hfinal1.
    destruct recurse as [f|].
    + destruct (f s) as [other|e] eqn:Hf; [|discriminate].
      rewrite result_bind_Ok. intros [= <-]. simpl. split; [|apply suffix_nil].
      apply Forall_app. split; [exact Hfinal1|].
      eapply Forall_impl; [apply (Hrec s other Hf)|].
      intros c Hc. exact (excerpt_trans _ _ _ (proj2 Hs) Hc).
    + intros [= <-]. simpl. split; [|apply suffix_nil].
      apply Forall_app. split; [exact Hfinal1|]. apply Forall_singleton, Hs.
Qed.

Lemma split_loop_excerpts recurse (whole : pystr) (rest pre : list pystr)
  (st st' : list pystr * list pystr) :
  recurse_excerpts recurse ->
  occurs_in (concat (pre ++ rest)) whole -> Forall (fun s => s <> []) rest ->
  Forall (excerpt whole) st.1 -> st.2 `suffix_of` pre ->
  for_each (TextSplitter.split_step self recurse) rest st = Ok st' ->
  Forall (excerpt whole) st'.1 /\ st'.2 `suffix_of` (pre ++ rest).
Proof.
  intros Hrec. revert pre st.
  induction rest as [|s rest IH]; intros pre st Hwhole Hne Hfinal Hgood.
  - simpl. intros [= <-]. rewrite app_nil_r. auto.
  - apply Forall_cons in Hne as [Hs Hne]. simpl.
    destruct (TextSplitter.split_step self recurse st s) as [st1|e] eqn:Hstep;
      [|discriminate].
    rewrite result_bind_Ok. intros Hrest.
    assert (Hpre : occurs_in (concat pre) whole).
    { eapply occurs_in_trans; [|exact Hwhole].
      rewrite concat_app. apply occurs_in_app_l, occurs_in_refl. }
    assert (Hsw : occurs_in s whole).
    { eapply occurs_in_trans; [|exact Hwhole].
      apply occurs_in_concat_elem. set_solver. }
    replace (pre ++ s :: rest) with ((pre ++ [s]) ++ rest) in *
      by (rewrite <- app_assoc; reflexivity).
    destruct (split_step_excerpts recurse whole pre st st1 s Hrec Hpre
                (conj Hs Hsw) Hfinal Hgood Hstep) as [H1 H2].
    apply (IH (pre ++ [s]) st1 Hwhole Hne H1 H2 Hrest).
Qed.

(** The pieces put together again give the text. *)
Lemma startswith_take (p s : pystr) :
  TextSplitter.startswith p s = true -> take (length p) s = p.
Proof.
  revert s. induction p as [|a p IH]; intros [|b s]; simpl; try discriminate;
    [reflexivity..|].
  intros H. apply andb_true_iff in H as [Hab H]. apply N.eqb_eq in Hab as ->.
  f_equal. apply IH, H.
Qed.

Lemma pieces_concat (sep text : pystr) (skip : nat) (acc : pystr) :
  sep <> [] -> (skip <= length sep)%nat ->
  take skip text = drop (length sep - skip) sep ->
  exists p0 ps,
    TextSplitter.pieces sep text skip acc = p0 :: ps
    /\ p0 ++ concat (map (fun p => sep ++ p) ps) = rev acc ++ drop skip text.
Proof.
  intros Hsep. revert skip acc.
  induction text as [|c r IH]; intros skip acc Hskip Htake.
  - exists (rev acc), []. simpl. rewrite drop_nil. auto.
  - destruct skip as [|k]; cbn [TextSplitter.pieces].
    + destruct (TextSplitter.startswith sep (c :: r)) eqn:Hstart.
      * apply startswith_take in Hstart.
        destruct sep as [|a sep']; [congruence|]. simpl in Hstart.
        injection Hstart as <- Hstart.
        destruct (IH (Nat.pred (length (c :: sep'))) []) as (q0 & qs & -> & Hq).
        { simpl. lia. }
        { change (Nat.pred (length (c :: sep'))) with (length sep').
          replace (length (c :: sep') - length sep')%nat with 1%nat
            by (simpl; lia).
          rewrite Hstart. reflexivity. }
        exists (rev acc), (q0 :: qs). split; [reflexivity|].
        cbn [map concat]. rewrite <- app_assoc, Hq. simpl.
        rewrite <- Hstart at 1. rewrite take_drop. reflexivity.
      * destruct (IH 0%nat (c :: acc)) as (q0 & qs & -> & Hq); [lia| |].
        { rewrite Nat.sub_0_r, drop_all. reflexivity. }
        exists q0, qs. split; [reflexivity|]. rewrite Hq. simpl.
        rewrite <- app_assoc. reflexivity.
    + assert (Hk : (length sep - S k < length sep)%nat) by lia.
      destruct (IH k acc) as (q0 & qs & -> & Hq); [lia| |].
      { simpl in Htake.
        destruct (drop (length sep - S k) sep) as [|x l] eqn:Hd; [discriminate|].
        injection Htake as _ Htake. rewrite Htake.
        replace (length sep - k)%nat with ((length sep - S k) + 1)%nat by lia.
        rewrite <- drop_drop, Hd. reflexivity. }
      exists q0, qs. split; [reflexivity|]. exact Hq.
Qed.

Lemma concat_filter_nonempty (l : list pystr) :
  concat (filter (fun s => nonempty s = true) l) = concat l.
Proof.
  induction l as [|[|c s] l IH]; [reflexivity|exact IH|].
  rewrite filter_cons_True by reflexivity. simpl. rewrite IH. reflexivity.
Qed.

Lemma split_text_with_regex_concat (text separator : pystr) :
  concat (TextSplitter._split_text_with_regex text separator) = text.
Proof.
  unfold TextSplitter._split_text_with_regex. rewrite concat_filter_nonempty.
  destruct separator as [|a sep].
  - induction text as [|c text IH]; [reflexivity|]. simpl. rewrite IH. reflexivity.
  - destruct (pieces_concat (a :: sep) text 0 []) as (p0 & ps & -> & H);
      [discriminate | lia | |exact H].
    rewrite Nat.sub_0_r, drop_all. reflexivity.
Qed.

Lemma split_text_with_regex_nonempty (text separator : pystr) :
  Forall (fun s => s <> []) (TextSplitter._split_text_with_regex text separator).
Proof.
  unfold TextSplitter._split_text_with_regex. apply Forall_forall. intros s Hs.
  apply list_elem_of_filter in Hs as [Hs _]. destruct s; [discriminate|congruence].
Qed.

Lemma split_with_excerpts (separator : pystr) recurse (text : pystr)
  (chunks : list pystr) :
  recurse_excerpts recurse ->
  TextSplitter.split_with self separator recurse text = Ok chunks ->
  Forall (excerpt text) chunks.
Proof.
  intros Hrec. unfold TextSplitter.split_with.
  destruct (for_each _ _ _) as [[final_chunks good]|e] eqn:Hloop; [|discriminate].
  rewrite result_bind_Ok.
  assert (Hwhole : occurs_in
            (concat ([] ++ TextSplitter._split_text_with_regex text separator)) text).
  { simpl. rewrite split_text_with_regex_concat. apply occurs_in_refl. }
  destruct (split_loop_excerpts recurse text _ [] ([], []) (final_chunks, good)
              Hrec Hwhole (split_text_with_regex_nonempty _ _)) as [H1 H2];
    [constructor | reflexivity | exact Hloop |].
  apply (merged_excerpts text _ good final_chunks chunks Hwhole H2 H1).
Qed.

Lemma _split_text_excerpts (separators : list pystr) :
  forall text chunks,
    TextSplitter._split_text self separators text = Ok chunks ->
    Forall (excerpt text) chunks.
Proof.
  induction separators as [|_s new_separators IH]; [discriminate|].
  intros text chunks. cbn [TextSplitter._split_text].
  destruct _s as [|c _s].
  - apply split_with_excerpts. exact I.
  - destruct (TextSplitter.re_search (c :: _s) text).
    + apply split_with_excerpts. destruct new_separators; [exact I | exact IH].
    + destruct new_separators as [|s2 rest]; [|apply IH].
      apply split_with_excerpts. exact I.
Qed.

End Excerpts.

Lemma add_chunks_excerpts (pages : list Doc.t) (page : Doc.t)
  (pieces : list pystr) (st : list Doc.t * Z) :
  page ∈ pages -> Forall (excerpt (Doc.text page)) pieces ->
  Forall (fun chunk => exists page, page ∈ pages /\ chunk_of page chunk) st.1 ->
  Forall (fun chunk => exists page, page ∈ pages /\ chunk_of page chunk)
    (fold_left (DocumentProcessor.add_chunk page) pieces st).1.
Proof.
  intros Hpage. revert st.
  induction pieces as [|piece pieces IH]; intros [chunks idx] Hpieces Hst;
    [exact Hst|].
  apply Forall_cons in Hpieces as [Hpiece Hpieces].
  simpl. apply IH; [exact Hpieces|]. simpl.
  apply Forall_app. split; [exact Hst|]. apply Forall_singleton.
  exists page. split; [exact Hpage|]. split; [exact Hpiece|]. eauto.
Qed.

Lemma split_pages_excerpts (self : DocumentProcessor.t) (pages l : list Doc.t)
  (st st' : list Doc.t * Z) :
  l ⊆ pages ->
  Forall (fun chunk => exists page, page ∈ pages /\ chunk_of page chunk) st.1 ->
  for_each (DocumentProcessor.split_page self) l st = Ok st' ->
  Forall (fun chunk => exists page, page ∈ pages /\ chunk_of page chunk) st'.1.
Proof.
  revert st. induction l as [|page l IH]; intros st Hl Hst; simpl.
  - intros [= <-]. exact Hst.
  - destruct (DocumentProcessor.split_page self st page) as [st1|e] eqn:Hpage;
      [|discriminate].
    rewrite result_bind_Ok. apply IH; [set_solver|].
    revert Hpage. unfold DocumentProcessor.split_page.
    destruct (TextSplitter.split_text _ _) as [pieces|e] eqn:Hsplit; [|discriminate].
    rewrite result_bind_Ok. intros [= <-].
    apply add_chunks_excerpts; [set_solver| |exact Hst].
    apply (_split_text_excerpts _ _ _ _ Hsplit).
Qed.

Lemma split_into_chunks_excerpts (self : DocumentProcessor.t)
  (pages chunks : list Doc.t) :
  DocumentProcessor.split_into_chunks self pages = Ok chunks ->
  Forall (fun chunk => exists page, page ∈ pages /\ chunk_of page chunk) chunks.
Proof.
  unfold DocumentProcessor.split_into_chunks.
  destruct (for_each _ _ _) as [[chunks' idx]|e] eqn:Hloop; [|discriminate].
  intros [= <-].
  apply (split_pages_excerpts self pages pages ([], 0) (chunks', idx));
    [reflexivity | constructor | exact Hloop].
Qed.

(** X11. Once the processor is constructed, [split_into_chunks] returns
    for every list of pages, and every chunk it returns is made of one of
    the pages: its text is non-empty and occurs word for word in the
    page's text, and its metadata is the page's with a [chunk_index]
    added. *)
Theorem chunks_are_excerpts (chunk_size chunk_overlap : Z)
  (self : DocumentProcessor.t) (pages : list Doc.t) :
  DocumentProcessor.__init__ chunk_size chunk_overlap = Ok self ->
  exists chunks,
    DocumentProcessor.split_into_chunks self pages = Ok chunks
    /\ Forall (fun chunk => exists page, page ∈ pages /\ chunk_of page chunk)
         chunks.
Proof.
  intros Hinit.
  destruct (split_into_chunks_spec _ _ _ Hinit pages) as (chunks & Hrun & _).
  exists chunks. split; [exact Hrun|].
  apply (split_into_chunks_excerpts self pages chunks Hrun).
Qed.

Lemma chunks_are_excerpts_witness :
  exists chunks,
    DocumentProcessor.split_into_chunks (DocumentProcessor.constructed 8 3)
      [Demo.two_paragraphs; Demo.short_page] = Ok chunks
    /\ Forall (fun chunk =>
                 exists page, page ∈ [Demo.two_paragraphs; Demo.short_page]
                              /\ chunk_of page chunk) chunks.
Proof.
  apply (chunks_are_excerpts 8 3). reflexivity.
Defined.

(** ** Reading a file *)

Lemma enumerate_lookup_inv {A} (start : Z) (xs : list A) (i : nat) (n : Z) (x : A) :
  enumerate start xs !! i = Some (n, x) ->
  xs !! i = Some x /\ n = start + Z.of_nat i.
Proof.
  revert start i. induction xs as [|y xs IH]; intros start i; [discriminate|].
  destruct i as [|i]; simpl.
  - intros [= <- <-]. split; [reflexivity | lia].
  - intros H. destruct (IH _ _ H) as [-> ->]. split; [reflexivity | lia].
Qed.

Section Reading.
Variable path_name : pystr -> pystr.
Variable fitz_open : pystr -> result PdfDocument.
Variable read_file : pystr -> result pystr.
Variable soup_get_text : pystr -> result pystr.

Lemma pdf_pages_loop (file_name : pystr) (texts : list pystr) (start : Z)
  (pages : list Doc.t) :
  for_each
    (fun pages '(page_num, page) =>
       text ← page;
       if nonempty (strip text)
       then mret (pages ++ [{| Doc.text := text;
                               Doc.metadata :=
                                 DocumentProcessor.page_metadata file_name page_num |}])
       else mret pages)
    (enumerate start (map Ok texts)) pages
  = Ok (pages ++
        omap (fun '(page_num, text) =>
                if nonempty (strip text)
                then Some {| Doc.text := text;
                             Doc.metadata :=
                               DocumentProcessor.page_metadata file_name page_num |}
                else None)
          (enumerate start texts)).
Proof.
  revert start pages. induction texts as [|text texts IH]; intros start pages.
  - simpl. rewrite app_nil_r. reflexivity.
  - cbn [map enumerate for_each omap list_omap]. rewrite result_bind_Ok.
    destruct (nonempty (strip text)); rewrite result_bind_Ok, IH;
      [rewrite <- app_assoc|]; reflexivity.
Qed.

(** X12. When the PDF opens, every page is read and the file closes,
    [extract_text_from_pdf] returns exactly the pages whose text is not
    blank, each with its text as read, the file's name and its page
    number counted from 1 over all the pages of the file: a blank page is
    left out and the pages after it keep their numbers. *)
Theorem pdf_pages_exact (pdf_path : pystr) (doc : PdfDocument)
  (texts : list pystr) :
  fitz_open pdf_path = Ok doc ->
  get_text doc = map Ok texts ->
  close doc = Ok tt ->
  exists pages,
    DocumentProcessor.extract_text_from_pdf path_name fitz_open pdf_path = Ok pages
    /\ forall page,
        page ∈ pages <->
        exists (i : nat) (text : pystr),
          texts !! i = Some text /\ strip text <> []
          /\ page = {| Doc.text := text;
                       Doc.metadata :=
                         DocumentProcessor.page_metadata (path_name pdf_path)
                           (Z.of_nat i + 1) |}.
Proof.
  intros Hopen Htexts Hclose. unfold DocumentProcessor.extract_text_from_pdf.
  rewrite Hopen, result_bind_Ok, Htexts, pdf_pages_loop, result_bind_Ok, Hclose.
  eexists. split; [reflexivity|]. intros page. simpl.
  rewrite list_elem_of_omap. split.
  - intros ([n text] & Hin & Hkeep).
    apply list_elem_of_lookup in Hin as [i Hi].
    apply enumerate_lookup_inv in Hi as [Hi ->].
    exists i, text. split; [exact Hi|].
    destruct (strip text); [discriminate|]. injection Hkeep as <-.
    split; [discriminate|]. do 2 f_equal. lia.
  - intros (i & text & Hi & Hne & ->).
    exists (1 + Z.of_nat i, text). split.
    + apply list_elem_of_lookup. exists i. apply enumerate_lookup, Hi.
    + destruct (strip text); [congruence|]. simpl. do 3 f_equal. lia.
Qed.

End Reading.

Lemma pdf_pages_exact_witness :
  exists pages,
    DocumentProcessor.extract_text_from_pdf (fun p => p)
      (fun _ => Ok {| get_text := [Ok (lit "審査の流れ"); Ok (lit " "); Ok (lit "書類不備")];
                      close := Ok tt |})
      (lit "rules.pdf") = Ok pages
    /\ forall page,
        page ∈ pages <->
        exists (i : nat) (text : pystr),
          [lit "審査の流れ"; lit " "; lit "書類不備"] !! i = Some text
          /\ strip text <> []
          /\ page = {| Doc.text := text;
                       Doc.metadata :=
                         DocumentProcessor.page_metadata (lit "rules.pdf")
                           (Z.of_nat i + 1) |}.
Proof.
  apply (pdf_pages_exact (fun p => p)
           (fun _ => Ok {| get_text := [Ok (lit "審査の流れ"); Ok (lit " "); Ok (lit "書類不備")];
                           close := Ok tt |})
           (lit "rules.pdf")
           {| get_text := [Ok (lit "審査の流れ"); Ok (lit " "); Ok (lit "書類不備")];
              close := Ok tt |}); reflexivity.
Defined.

(** The blank second page is left out; the third keeps the number 3. *)
Example pdf_blank_page_skipped :
  DocumentProcessor.extract_text_from_pdf (fun p => p)
    (fun _ => Ok {| get_text := [Ok (lit "審査の流れ"); Ok (lit " "); Ok (lit "書類不備")];
                    close := Ok tt |})
    (lit "rules.pdf")
  = Ok [ {| Doc.text := lit "審査の流れ"; Doc.metadata := Demo.meta "rules.pdf" 1 |};
         {| Doc.text := lit "書類不備"; Doc.metadata := Demo.meta "rules.pdf" 3 |} ].
Proof. vm_compute. reflexivity. Qed.


(** *** [strip] *)

Lemma lstrip_head (s : pystr) (c : N) (r : pystr) :
  lstrip s = c :: r -> isspace c = false.
Proof.
  induction s as [|a s IH]; simpl; [discriminate|].
  destruct (isspace a) eqn:Ha; [exact IH|]. intros [= <- _]. exact Ha.
Qed.

Lemma lstrip_fixed (s : pystr) :
  match s with [] => True | c :: _ => isspace c = false end -> lstrip s = s.
Proof. destruct s as [|c s]; simpl; [reflexivity|]. intros ->. reflexivity. Qed.

Lemma lstrip_idem (s : pystr) : lstrip (lstrip s) = lstrip s.
Proof.
  apply lstrip_fixed. destruct (lstrip s) as [|c r] eqn:E; [exact I|].
  exact (lstrip_head _ _ _ E).
Qed.

Lemma rstrip_idem (s : pystr) : rstrip (rstrip s) = rstrip s.
Proof. unfold rstrip. rewrite rev_involutive, lstrip_idem. reflexivity. Qed.

Lemma strip_idem (s : pystr) : strip (strip s) = strip s.
Proof.
  unfold strip.
  assert (H : lstrip (rstrip (lstrip s)) = rstrip (lstrip s)).
  { apply lstrip_fixed.
    destruct (rstrip_prefix (lstrip s)) as [k Hk].
    destruct (rstrip (lstrip s)) as [|c r]; [exact I|].
    apply (lstrip_head s c (r ++ k)). exact Hk. }
  rewrite H. apply rstrip_idem.
Qed.

Lemma occurs_in_elem {A} (part whole : list A) (x : A) :
  occurs_in part whole -> x ∈ part -> x ∈ whole.
Proof. intros (before & after & ->) Hx. set_solver. Qed.

(** *** [splitlines] and [split] *)

Lemma elem_of_rev {A} (x : A) (l : list A) : x ∈ rev l -> x ∈ l.
Proof. rewrite !list_elem_of_In. apply in_rev. Qed.

Lemma splitlines_from_chars (n : nat) (s acc line : pystr) (c : N) :
  (length s <= n)%nat ->
  line ∈ DocumentProcessor.splitlines_from s acc -> c ∈ line ->
  DocumentProcessor.is_linebreak c = false \/ c ∈ acc.
Proof.
  revert s acc. induction n as [|n IH]; intros s acc Hn.
  - destruct s; [|simpl in Hn; lia]. simpl. destruct acc as [|a acc].
    + intros H. inversion H.
    + intros H Hc. apply list_elem_of_singleton in H as ->. right.
      apply elem_of_rev, Hc.
  - destruct s as [|a r].
    + simpl. destruct acc as [|b acc]; [intros H; inversion H|].
      intros H Hc. apply list_elem_of_singleton in H as ->. right.
      apply elem_of_rev, Hc.
    + simpl in Hn. cbn [DocumentProcessor.splitlines_from].
      destruct (DocumentProcessor.is_linebreak a) eqn:Ha.
      * intros H Hc. apply elem_of_cons in H as [->|H].
        { right. apply elem_of_rev, Hc. }
        assert (Hnil : forall r', (length r' <= n)%nat ->
                  line ∈ DocumentProcessor.splitlines_from r' [] ->
                  DocumentProcessor.is_linebreak c = false \/ c ∈ acc).
        { intros r' Hr' Hl. destruct (IH r' [] Hr' Hl Hc) as [?|Hin]; [auto|].
          inversion Hin. }
        destruct r as [|a' r']; [apply (Hnil []); [simpl; lia | exact H]|].
        destruct ((a =? 13) && (a' =? 10))%N;
          [apply (Hnil r') | apply (Hnil (a' :: r'))]; simpl in *;
          (lia || exact H).
      * intros H Hc. destruct (IH r (a :: acc) ltac:(lia) H Hc) as [?|Hin];
          [auto|].
        apply elem_of_cons in Hin as [->|Hin]; auto.
Qed.

Lemma splitlines_chars (s line : pystr) (c : N) :
  line ∈ DocumentProcessor.splitlines s -> c ∈ line ->
  DocumentProcessor.is_linebreak c = false.
Proof.
  intros Hl Hc.
  destruct (splitlines_from_chars (length s) s [] line c (le_n _) Hl Hc)
    as [?|Hin]; [assumption | inversion Hin].
Qed.

Lemma pieces_chars (sep text : pystr) (skip : nat) (acc piece : pystr) (c : N) :
  piece ∈ TextSplitter.pieces sep text skip acc -> c ∈ piece ->
  c ∈ acc \/ c ∈ text.
Proof.
  revert skip acc. induction text as [|a r IH]; intros skip acc; simpl.
  - intros H Hc. apply list_elem_of_singleton in H as ->. left.
    apply elem_of_rev, Hc.
  - destruct skip as [|k].
    + destruct (TextSplitter.startswith sep (a :: r)).
      * intros H Hc. apply elem_of_cons in H as [->|H].
        { left. apply elem_of_rev, Hc. }
        destruct (IH _ _ H Hc) as [Hin|Hin]; [inversion Hin|].
        right. set_solver.
      * intros H Hc. destruct (IH _ _ H Hc) as [Hin|Hin]; set_solver.
    + intros H Hc. destruct (IH _ _ H Hc) as [Hin|Hin]; set_solver.
Qed.

Section Reading_html.
Variable path_name : pystr -> pystr.
Variable read_file : pystr -> result pystr.
Variable soup_get_text : pystr -> result pystr.

(** X13. [extract_text_from_html] returns no page or one page, numbered
    1 under the file's name. The text of that page is made of lines
    joined by a line feed, and each line is non-empty, has no white space
    at either end and contains no line break: the text has no blank
    line and no indentation left. *)
Theorem html_text_normalised (html_path : pystr) :
  exists pages,
    DocumentProcessor.extract_text_from_html path_name read_file soup_get_text
      html_path = Ok pages
    /\ (pages = []
        \/ exists lines,
             lines <> []
             /\ Forall (fun line =>
                          line <> [] /\ strip line = line
                          /\ forall c, c ∈ line ->
                               DocumentProcessor.is_linebreak c = false) lines
             /\ pages = [{| Doc.text := join [10%N] lines;
                            Doc.metadata :=
                              DocumentProcessor.page_metadata
                                (path_name html_path) 1 |}]).
Proof.
  unfold DocumentProcessor.extract_text_from_html.
  destruct (read_file html_path) as [html_content|e]; [|eauto].
  rewrite result_bind_Ok.
  destruct (soup_get_text html_content) as [text|e]; [|simpl; eauto].
  rewrite result_bind_Ok. cbv zeta.
  set (lines := filter _ _).
  destruct (nonempty (strip (join [10%N] lines))) eqn:Hblank; [|simpl; eauto].
  eexists. split; [reflexivity|]. right. exists lines.
  split; [intros Heq; rewrite Heq in Hblank; discriminate|].
  split; [|reflexivity].
  apply Forall_forall. intros line Hline. subst lines.
  apply list_elem_of_filter in Hline as [Hne Hline].
  apply list_elem_of_fmap in Hline as (phrase & -> & Hphrase).
  split; [destruct (strip phrase); [discriminate|congruence]|].
  split; [apply strip_idem|].
  intros c Hc. apply (occurs_in_elem _ _ _ (strip_occurs phrase)) in Hc.
  apply list_elem_of_In, in_concat in Hphrase as (bits & Hbits & Hphrase).
  apply in_map_iff in Hbits as (line0 & <- & Hline0).
  apply list_elem_of_In in Hphrase, Hline0.
  unfold DocumentProcessor.split in Hphrase.
  destruct (pieces_chars _ _ _ _ _ _ Hphrase Hc) as [Hin|Hin]; [inversion Hin|].
  apply list_elem_of_fmap in Hline0 as (raw & -> & Hraw).
  apply (occurs_in_elem _ _ _ (strip_occurs raw)) in Hin.
  exact (splitlines_chars _ _ _ Hraw Hin).
Qed.

End Reading_html.

(** Indentation, a blank line and a double space in a line. *)
Example html_text_example :
  DocumentProcessor.extract_text_from_html (fun p => p) (fun _ => Ok [])
    (fun _ => Ok (lit "  審査の流れ  " ++ [13; 10; 10]%N ++ lit " 書類  不備 "))
    (lit "flow.html")
  = Ok [ {| Doc.text := lit "審査の流れ" ++ [10%N] ++ lit "書類" ++ [10%N] ++ lit "不備";
            Doc.metadata := Demo.meta "flow.html" 1 |} ].
Proof. vm_compute. reflexivity. Qed.

(** ** A whole directory *)

Lemma extract_text_from_html_metadata path_name read_file soup_get_text
  (html_path : pystr) (pages : list Doc.t) :
  DocumentProcessor.extract_text_from_html path_name read_file soup_get_text
    html_path = Ok pages ->
  Forall (fun page => exists n,
            Doc.metadata page
            = DocumentProcessor.page_metadata (path_name html_path) n) pages.
Proof.
  unfold DocumentProcessor.extract_text_from_html.
  destruct (read_file html_path) as [html_content|e]; [|intros [= <-]; constructor].
  rewrite result_bind_Ok.
  destruct (soup_get_text html_content) as [text|e]; [|intros [= <-]; constructor].
  rewrite result_bind_Ok. cbv zeta.
  destruct (nonempty (strip _)); intros [= <-]; repeat constructor. eauto.
Qed.

Section One_file.
Variables chunk_size chunk_overlap : Z.
Variable self : DocumentProcessor.t.
Hypothesis accepted : DocumentProcessor.__init__ chunk_size chunk_overlap = Ok self.

Lemma split_into_chunks_of_file (file_name : pystr) (pages : list Doc.t) :
  Forall (fun page => exists n,
            Doc.metadata page = DocumentProcessor.page_metadata file_name n)
    pages ->
  exists chunks,
    DocumentProcessor.split_into_chunks self pages = Ok chunks
    /\ chunks_of_file file_name chunks.
Proof.
  intros Hpages.
  destruct (split_into_chunks_spec _ _ _ accepted pages) as (chunks & Hrun & Hinv).
  exists chunks. split; [exact Hrun|]. intros i chunk Hi.
  pose proof (split_into_chunks_excerpts self pages chunks Hrun) as Hex.
  rewrite Forall_forall in Hex.
  destruct (Hex chunk) as (page & Hpage & _ & j & Hmeta).
  { apply list_elem_of_lookup. eauto. }
  rewrite Forall_forall in Hpages. destruct (Hpages page Hpage) as [n Hn].
  destruct (page_metadata_lookup file_name n) as [Hs Hp].
  exists n. split; [|split]; simpl.
  - rewrite Hmeta, lookup_insert_ne by discriminate. rewrite Hn. exact Hs.
  - rewrite Hmeta, lookup_insert_ne by discriminate. rewrite Hn. exact Hp.
  - apply Hinv, Hi.
Qed.

Lemma process_pdf_of_file path_name fitz_open (pdf_path : pystr) :
  exists chunks,
    DocumentProcessor.process_pdf path_name fitz_open self pdf_path = Ok chunks
    /\ chunks_of_file (path_name pdf_path) chunks.
Proof.
  unfold DocumentProcessor.process_pdf.
  destruct (DocumentProcessor.extract_text_from_pdf path_name fitz_open pdf_path)
    as [pages|e] eqn:Hpages.
  - rewrite result_bind_Ok. destruct (negb (nonempty pages)).
    + exists []. split; [reflexivity|]. intros i chunk Hi. discriminate.
    + apply split_into_chunks_of_file.
      apply (extract_text_from_pdf_metadata _ _ _ _ Hpages).
  - destruct (extract_text_from_pdf_returns path_name fitz_open pdf_path) as [? H].
    congruence.
Qed.

Lemma process_html_of_file path_name read_file soup_get_text (html_path : pystr) :
  exists chunks,
    DocumentProcessor.process_html path_name read_file soup_get_text self
      html_path = Ok chunks
    /\ chunks_of_file (path_name html_path) chunks.
Proof.
  unfold DocumentProcessor.process_html.
  destruct (DocumentProcessor.extract_text_from_html path_name read_file
              soup_get_text html_path) as [pages|e] eqn:Hpages.
  - rewrite result_bind_Ok. destruct (negb (nonempty pages)).
    + exists []. split; [reflexivity|]. intros i chunk Hi. discriminate.
    + apply split_into_chunks_of_file.
      apply (extract_text_from_html_metadata _ _ _ _ _ Hpages).
  - destruct (extract_text_from_html_returns path_name read_file soup_get_text
                html_path) as [? H].
    congruence.
Qed.

End One_file.

Lemma for_each_extend {A B} (f : A -> result (list B)) (xs : list A)
  (yss : list (list B)) (acc : list B) :
  Forall2 (fun x ys => f x = Ok ys) xs yss ->
  for_each (fun acc x => ys ← f x; mret (acc ++ ys)) xs acc
  = Ok (acc ++ concat yss).
Proof.
  intros H. revert acc. induction H as [|x ys xs yss Hx _ IH]; intros acc; simpl.
  - rewrite app_nil_r. reflexivity.
  - rewrite Hx, !result_bind_Ok, IH, app_assoc. reflexivity.
Qed.

Lemma Forall2_total {A B} (R : A -> B -> Prop) (xs : list A) :
  (forall x, exists y, R x y) -> exists ys, Forall2 R xs ys.
Proof.
  intros H. induction xs as [|x xs [ys IH]]; [exists []; constructor|].
  destruct (H x) as [y Hy]. exists (y :: ys). constructor; assumption.
Qed.

Section Whole_directory.
Variables chunk_size chunk_overlap : Z.
Variable self : DocumentProcessor.t.
Hypothesis accepted : DocumentProcessor.__init__ chunk_size chunk_overlap = Ok self.
Variable path_name : pystr -> pystr.
Variable fitz_open : pystr -> result PdfDocument.
Variable read_file : pystr -> result pystr.
Variable soup_get_text : pystr -> result pystr.
Variable path_exists : pystr -> result bool.
Variable glob : pystr -> pystr -> result (list pystr).

Lemma process_directory_run (directory_path : pystr)
  (pdf_files html_files : list pystr) :
  path_exists directory_path = Ok true ->
  glob directory_path (lit "*.pdf") = Ok pdf_files ->
  glob directory_path (lit "*.html") = Ok html_files ->
  exists pdf_chunks html_chunks,
    Forall2 (fun file chunks =>
               DocumentProcessor.process_pdf path_name fitz_open self file = Ok chunks
               /\ chunks_of_file (path_name file) chunks)
      pdf_files pdf_chunks
    /\ Forall2 (fun file chunks =>
                  DocumentProcessor.process_html path_name read_file soup_get_text
                    self file = Ok chunks
                  /\ chunks_of_file (path_name file) chunks)
         html_files html_chunks
    /\ Directory.process_directory path_name fitz_open read_file soup_get_text
         path_exists glob self directory_path
       = Ok (concat pdf_chunks ++ concat html_chunks).
Proof.
  intros Hexists Hpdf Hhtml.
  destruct (Forall2_total
              (fun file chunks =>
                 DocumentProcessor.process_pdf path_name fitz_open self file = Ok chunks
                 /\ chunks_of_file (path_name file) chunks) pdf_files)
    as [pdf_chunks Hpc].
  { intros file. apply (process_pdf_of_file _ _ _ accepted). }
  destruct (Forall2_total
              (fun file chunks =>
                 DocumentProcessor.process_html path_name read_file soup_get_text
                   self file = Ok chunks
                 /\ chunks_of_file (path_name file) chunks) html_files)
    as [html_chunks Hhc].
  { intros file. apply (process_html_of_file _ _ _ accepted). }
  exists pdf_chunks, html_chunks. split; [exact Hpc|]. split; [exact Hhc|].
  unfold Directory.process_directory.
  rewrite Hexists, result_bind_Ok. cbn [negb].
  rewrite Hpdf, result_bind_Ok, Hhtml, result_bind_Ok. cbv zeta.
  destruct (_ =? 0) eqn:Hzero.
  - apply Z.eqb_eq in Hzero.
    destruct pdf_files; [|simpl in Hzero; lia].
    destruct html_files; [|simpl in Hzero; lia].
    inversion Hpc. inversion Hhc. reflexivity.
  - rewrite (for_each_extend _ pdf_files pdf_chunks []).
    + rewrite result_bind_Ok.
      apply (for_each_extend _ html_files html_chunks).
      eapply Forall2_impl; [exact Hhc|]. intros ? ? [H _]. exact H.
    + eapply Forall2_impl; [exact Hpc|]. intros ? ? [H _]. exact H.
Qed.

End Whole_directory.

Lemma traverse_app {A B} (f : A -> result B) (l k : list A) (a b : list B) :
  traverse f l = Ok a -> traverse f k = Ok b -> traverse f (l ++ k) = Ok (a ++ b).
Proof.
  revert a. induction l as [|x l IH]; intros a; simpl.
  - intros [= <-] H. exact H.
  - destruct (f x) as [y|e]; [|discriminate]. simpl.
    destruct (traverse f l) as [ys|e]; [|discriminate]. simpl.
    intros [= <-] Hk. rewrite (IH ys eq_refl Hk). reflexivity.
Qed.

(** The provenance of the chunks of one file, and their ids. *)
Lemma chunks_of_file_ids (file_name : pystr) (chunks : list Doc.t) :
  chunks_of_file file_name chunks ->
  exists prov,
    Forall2 Spec.provenance chunks prov
    /\ NoDup (map Spec.id_of prov)
    /\ Forall (fun p => exists n i : Z, p = (MStr file_name, MInt n, MInt i)) prov.
Proof.
  intros Hfile.
  assert (Hall : Forall (fun chunk => exists p,
                    Spec.provenance chunk p
                    /\ exists n i : Z, p = (MStr file_name, MInt n, MInt i)) chunks).
  { apply Forall_forall. intros chunk Hin.
    apply list_elem_of_lookup in Hin as [i Hi].
    destruct (Hfile i chunk Hi) as [n Hn]. eauto 6. }
  apply Forall_exists_Forall2 in Hall as [prov Hprov].
  exists prov.
  assert (Hp : Forall2 Spec.provenance chunks prov).
  { eapply Forall2_impl; [exact Hprov|]. intros ? ? [H _]. exact H. }
  split; [exact Hp|]. split.
  - apply (ids_distinct_by_index chunks prov Hp). intros i chunk Hi.
    destruct (Hfile i chunk Hi) as [n (_ & _ & Hidx)]. exact Hidx.
  - apply Forall_forall. intros p Hin.
    apply list_elem_of_lookup in Hin as [i Hi].
    destruct (Forall2_lookup_r _ _ _ _ _ Hprov Hi) as (chunk & _ & _ & H).
    exact H.
Qed.

Lemma files_ids_distinct (names : list pystr) (chunk_lists : list (list Doc.t)) :
  Forall2 chunks_of_file names chunk_lists -> NoDup names ->
  exists prov,
    Forall2 Spec.provenance (concat chunk_lists) prov
    /\ NoDup (map Spec.id_of prov)
    /\ Forall (fun p => exists (name : pystr) (n i : Z),
                 name ∈ names /\ p = (MStr name, MInt n, MInt i)) prov.
Proof.
  induction 1 as [|name chunks names chunk_lists Hfile _ IH]; intros Hnd.
  - exists []. repeat split; constructor.
  - apply NoDup_cons in Hnd as [Hfresh Hnd].
    destruct (IH Hnd) as (prov' & Hprov' & Hnd' & Hnames').
    destruct (chunks_of_file_ids name chunks Hfile) as (prov0 & Hprov0 & Hnd0 & Hname0).
    exists (prov0 ++ prov'). split; [|split].
    + simpl. apply Forall2_app; assumption.
    + rewrite map_app. apply NoDup_app. split; [exact Hnd0|]. split; [|exact Hnd'].
      intros id Hin0 Hin'.
      apply list_elem_of_fmap in Hin0 as (p0 & -> & Hp0).
      apply list_elem_of_fmap in Hin' as (p' & Heq & Hp').
      rewrite Forall_forall in Hname0, Hnames'.
      destruct (Hname0 p0 Hp0) as (n0 & i0 & ->).
      destruct (Hnames' p' Hp') as (name' & n' & i' & Hin & ->).
      apply record_id_inj in Heq as [-> _]. contradiction.
    + apply Forall_app. split.
      * eapply Forall_impl; [exact Hname0|]. intros p (n & i & ->).
        exists name, n, i. split; [left | reflexivity].
      * eapply Forall_impl; [exact Hnames'|]. intros p (name' & n & i & Hin & ->).
        exists name', n, i. split; [right; exact Hin | reflexivity].
Qed.

(** X14. With the processor constructed, a directory that exists and
    lists its files is processed file by file: the result is the chunks
    of the PDF files followed by the chunks of the HTML files, each
    file's chunks as [process_pdf] or [process_html] returns them for
    that file alone, so [chunk_index] starts again at 0 in every file
    and a file that cannot be read adds nothing. *)
Theorem directory_chunks_file_by_file (chunk_size chunk_overlap : Z)
  (self : DocumentProcessor.t) path_name fitz_open read_file soup_get_text
  path_exists glob (directory_path : pystr) (pdf_files html_files : list pystr) :
  DocumentProcessor.__init__ chunk_size chunk_overlap = Ok self ->
  path_exists directory_path = Ok true ->
  glob directory_path (lit "*.pdf") = Ok pdf_files ->
  glob directory_path (lit "*.html") = Ok html_files ->
  exists pdf_chunks html_chunks,
    Forall2 (fun file chunks =>
               DocumentProcessor.process_pdf path_name fitz_open self file = Ok chunks
               /\ chunks_of_file (path_name file) chunks)
      pdf_files pdf_chunks
    /\ Forall2 (fun file chunks =>
                  DocumentProcessor.process_html path_name read_file soup_get_text
                    self file = Ok chunks
                  /\ chunks_of_file (path_name file) chunks)
         html_files html_chunks
    /\ Directory.process_directory path_name fitz_open read_file soup_get_text
         path_exists glob self directory_path
       = Ok (concat pdf_chunks ++ concat html_chunks).
Proof. intros Hinit. apply (process_directory_run _ _ _ Hinit). Qed.

(** X15. When the files of the directory have different names, all the
    chunks [process_directory] returns get different ids, although the
    chunk index starts again in every file: the batch made of a whole
    directory passes the collection's check for repeated ids. *)
Theorem directory_ids_distinct (chunk_size chunk_overlap : Z)
  (self : DocumentProcessor.t) path_name fitz_open read_file soup_get_text
  path_exists glob (directory_path : pystr) (pdf_files html_files : list pystr) :
  DocumentProcessor.__init__ chunk_size chunk_overlap = Ok self ->
  path_exists directory_path = Ok true ->
  glob directory_path (lit "*.pdf") = Ok pdf_files ->
  glob directory_path (lit "*.html") = Ok html_files ->
  NoDup (map path_name (pdf_files ++ html_files)) ->
  exists all_chunks ids,
    Directory.process_directory path_name fitz_open read_file soup_get_text
      path_exists glob self directory_path = Ok all_chunks
    /\ traverse ChromaManager.chunk_id all_chunks = Ok ids
    /\ NoDup ids.
Proof.
  intros Hinit Hexists Hpdf Hhtml Hnames.
  destruct (process_directory_run _ _ _ Hinit path_name fitz_open read_file
              soup_get_text path_exists glob directory_path pdf_files html_files
              Hexists Hpdf Hhtml) as (pdf_chunks & html_chunks & Hpc & Hhc & Hrun).
  assert (Hfiles : Forall2 chunks_of_file (map path_name (pdf_files ++ html_files))
                     (pdf_chunks ++ html_chunks)).
  { rewrite map_app. apply Forall2_app; apply Forall2_fmap_l.
    - eapply Forall2_impl; [exact Hpc|]. intros ? ? [_ H]. exact H.
    - eapply Forall2_impl; [exact Hhc|]. intros ? ? [_ H]. exact H. }
  destruct (files_ids_distinct _ _ Hfiles Hnames) as (prov & Hprov & Hnd & _).
  exists (concat pdf_chunks ++ concat html_chunks), (map Spec.id_of prov).
  split; [exact Hrun|]. split; [|exact Hnd].
  apply traverse_chunk_id. rewrite <- concat_app. exact Hprov.
Qed.

Lemma directory_chunks_file_by_file_witness :
  exists pdf_chunks html_chunks,
    Forall2 (fun file chunks =>
               DocumentProcessor.process_pdf (fun p => p) Demo.fitz_open
                 (DocumentProcessor.constructed 500 100) file = Ok chunks
               /\ chunks_of_file file chunks)
      [lit "rules.pdf"] pdf_chunks
    /\ Forall2 (fun file chunks =>
                  DocumentProcessor.process_html (fun p => p) Sample.read_file
                    Sample.soup_get_text (DocumentProcessor.constructed 500 100)
                    file = Ok chunks
                  /\ chunks_of_file file chunks)
         [lit "flow.html"] html_chunks
    /\ Directory.process_directory (fun p => p) Demo.fitz_open Sample.read_file
         Sample.soup_get_text Sample.path_exists Sample.glob
         (DocumentProcessor.constructed 500 100) (lit "data/documents")
       = Ok (concat pdf_chunks ++ concat html_chunks).
Proof.
  apply (directory_chunks_file_by_file 500 100
           (DocumentProcessor.constructed 500 100) (fun p => p) Demo.fitz_open
           Sample.read_file Sample.soup_get_text Sample.path_exists Sample.glob
           (lit "data/documents") [lit "rules.pdf"] [lit "flow.html"]);
    vm_compute; reflexivity.
Defined.

(** Both files start at chunk index 0. *)
Example directory_example :
  Directory.process_directory (fun p => p) Demo.fitz_open Sample.read_file
    Sample.soup_get_text Sample.path_exists Sample.glob
    (DocumentProcessor.constructed 500 100) (lit "data/documents")
  = Ok [Demo.chunk "rules.pdf" 1 0 "審査の流れ"; Demo.chunk "rules.pdf" 2 1 "書類不備";
        Demo.chunk "flow.html" 1 0 "審査の流れ"].
Proof. vm_compute. reflexivity. Qed.

Lemma directory_ids_distinct_witness :
  exists all_chunks ids,
    Directory.process_directory (fun p => p) Demo.fitz_open Sample.read_file
      Sample.soup_get_text Sample.path_exists Sample.glob
      (DocumentProcessor.constructed 500 100) (lit "data/documents") = Ok all_chunks
    /\ traverse ChromaManager.chunk_id all_chunks = Ok ids
    /\ NoDup ids.
Proof.
  apply (directory_ids_distinct 500 100
           (DocumentProcessor.constructed 500 100) (fun p => p) Demo.fitz_open
           Sample.read_file Sample.soup_get_text Sample.path_exists Sample.glob
           (lit "data/documents") [lit "rules.pdf"] [lit "flow.html"]);
    try (vm_compute; reflexivity).
  apply (bool_decide_unpack _). vm_compute. exact I.
Defined.

(** ** Ingesting the directory and reloading *)

(** X16. When the documents directory does not exist, or holds neither a
    PDF nor an HTML file, [process_all_pdfs] returns [False] and nothing
    has happened: the collection and the list of calls are as before. *)
Theorem nothing_to_ingest (B : Backend) path_name fitz_open read_file
  soup_get_text path_exists glob (self : RAGManager.t) (w : World) :
  path_exists (RAGManager.documents_dir self) = Ok false
  \/ (path_exists (RAGManager.documents_dir self) = Ok true
      /\ glob (RAGManager.documents_dir self) (lit "*.pdf") = Ok []
      /\ glob (RAGManager.documents_dir self) (lit "*.html") = Ok []) ->
  Pipeline.process_all_pdfs B path_name fitz_open read_file soup_get_text
    path_exists glob self w
  = (Ok false, w).
Proof.
  intros H. unfold Pipeline.process_all_pdfs, Directory.process_directory.
  rewrite M_bind_unfold. unfold lift at 1.
  destruct H as [-> | (-> & -> & ->)]; reflexivity.
Qed.

Lemma nothing_to_ingest_witness :
  Pipeline.process_all_pdfs (Demo.backend Demo.near Demo.far) (fun p => p)
    Demo.fitz_open Sample.read_file Sample.soup_get_text
    (fun _ => Ok false) Sample.glob (Demo.manager 0.5%float) Demo.world_old
  = (Ok false, Demo.world_old).
Proof.
  apply (nothing_to_ingest (Demo.backend Demo.near Demo.far) (fun p => p)
           Demo.fitz_open Sample.read_file Sample.soup_get_text
           (fun _ => Ok false) Sample.glob (Demo.manager 0.5%float)
           Demo.world_old).
  left. reflexivity.
Defined.






(** The record from before the reload is gone. *)
Example reload_example :
  collection Sample.reloaded !! lit "rules.pdf_3_0" = None
  /\ document <$> collection Sample.reloaded !! lit "rules.pdf_1_0"
     = Some (lit "審査の流れ").
Proof. split; vm_compute; reflexivity. Qed.

(** X18. [reload_documents] does not look at what [clear_collection]
    returned: when deleting the collection fails and leaves the records
    in place, the reload goes on and gives exactly what
    [process_all_pdfs] gives on the collection that was not cleared. *)
Theorem reload_after_failed_clear (B : Backend) (A : Admin) path_name fitz_open
  read_file soup_get_text path_exists glob (chroma_manager : Store.t)
  (self : RAGManager.t) (w : World) (e : exn) :
  client_delete_collection A w (Store.collection_name chroma_manager)
  = (Raise e, collection w) ->
  Pipeline.reload_documents B A path_name fitz_open read_file soup_get_text
    path_exists glob chroma_manager self w
  = Pipeline.process_all_pdfs B path_name fitz_open read_file soup_get_text
      path_exists glob self w.
Proof.
  intros Hfail. unfold Pipeline.reload_documents. rewrite M_bind_unfold.
  unfold Store.clear_collection, try_catch. rewrite M_bind_unfold.
  unfold Store.call at 1. rewrite Hfail. destruct w. reflexivity.
Qed.

Lemma reload_after_failed_clear_witness :
  Pipeline.reload_documents (Demo.backend Demo.near Demo.far)
    (Build_Admin (fun w => ChromaAdmin.get (collection w))
       (fun w => ChromaAdmin.delete (collection w))
       (fun w _ => (Raise (ServiceError 500), collection w))
       (fun w _ => (Ok tt, ∅)))
    (fun p => p) Demo.fitz_open Sample.read_file Sample.soup_get_text
    Sample.path_exists Sample.glob Sample.store (Demo.manager 0.5%float)
    Demo.world_old
  = Pipeline.process_all_pdfs (Demo.backend Demo.near Demo.far)
      (fun p => p) Demo.fitz_open Sample.read_file Sample.soup_get_text
      Sample.path_exists Sample.glob (Demo.manager 0.5%float) Demo.world_old.
Proof.
  apply (reload_after_failed_clear (Demo.backend Demo.near Demo.far)
           (Build_Admin (fun w => ChromaAdmin.get (collection w))
              (fun w => ChromaAdmin.delete (collection w))
              (fun w _ => (Raise (ServiceError 500), collection w))
              (fun w _ => (Ok tt, ∅)))
           (fun p => p) Demo.fitz_open Sample.read_file Sample.soup_get_text
           Sample.path_exists Sample.glob Sample.store (Demo.manager 0.5%float)
           Demo.world_old (ServiceError 500)).
  reflexivity.
Defined.

(** ** Deleting a source and listing the sources *)


(** The record of [rules.pdf] goes, the record of [flow.html] stays. *)
Example delete_by_source_example :
  dom (collection (Store.delete_by_source ChromaAdmin.admin (lit "rules.pdf")
                     Sample.reloaded).2)
  = {[ lit "flow.html_1_0" ]}.
Proof.
  apply (bool_decide_unpack _). vm_compute. exact I.
Qed.

Lemma str_ltb_asym (a b : pystr) : str_ltb a b = true -> str_ltb b a = false.
Proof.
  revert b. induction a as [|x a IH]; intros [|y b]; simpl; try discriminate;
    [reflexivity|].
  destruct (N.ltb_spec x y) as [Hxy|Hxy].
  - intros _. destruct (N.ltb_spec y x); [lia|].
    destruct (N.eqb_spec y x); [lia | reflexivity].
  - destruct (N.eqb_spec x y) as [->|Hne]; [|discriminate].
    rewrite N.ltb_irrefl, N.eqb_refl. apply IH.
Qed.

Lemma str_le_total : Total str_le.
Proof.
  intros a b. unfold str_le.
  destruct (str_ltb b a) eqn:E; [right; apply str_ltb_asym, E | left; reflexivity].
Qed.

Lemma add_sources_elem (ms : list Metadata) (acc : gset MetaValue) (v : MetaValue) :
  v ∈ fold_left Store.add_source ms acc
  <-> v ∈ acc \/ (truthy v = true /\ exists m, m ∈ ms /\ m !! "source" = Some v).
Proof.
  revert acc. induction ms as [|m ms IH]; intros acc; simpl.
  - split; [auto|]. intros [H|(_ & m & Hm & _)]; [exact H | inversion Hm].
  - rewrite IH. unfold Store.add_source.
    destruct (m !! "source") as [source|] eqn:Hs.
    + destruct (truthy source) eqn:Ht.
      * rewrite elem_of_union, elem_of_singleton. split.
        -- intros [[H| ->]|(Hv & m' & Hm' & Hsrc)]; [auto| |].
           ++ right. split; [exact Ht|]. exists m. split; [left | exact Hs].
           ++ right. split; [exact Hv|]. exists m'. split; [right|]; assumption.
        -- intros [H|(Hv & m' & Hm' & Hsrc)]; [auto|].
           apply elem_of_cons in Hm' as [->|Hm'].
           ++ left. right. congruence.
           ++ right. eauto.
      * split.
        -- intros [H|(Hv & m' & Hm' & Hsrc)]; [auto|].
           right. split; [exact Hv|]. exists m'. split; [right|]; assumption.
        -- intros [H|(Hv & m' & Hm' & Hsrc)]; [auto|].
           apply elem_of_cons in Hm' as [->|Hm'].
           ++ congruence.
           ++ right. eauto.
    + split.
      * intros [H|(Hv & m' & Hm' & Hsrc)]; [auto|].
        right. split; [exact Hv|]. exists m'. split; [right|]; assumption.
      * intros [H|(Hv & m' & Hm' & Hsrc)]; [auto|].
        apply elem_of_cons in Hm' as [->|Hm'].
        -- congruence.
        -- right. eauto.
Qed.

Lemma gather_sources_elem (ms : list Metadata) (v : MetaValue) :
  v ∈ Store.gather_sources (Some ms)
  <-> truthy v = true /\ exists m, m ∈ ms /\ m !! "source" = Some v.
Proof.
  unfold Store.gather_sources. destruct ms as [|m ms].
  - split; [intros H; inversion H|]. intros (_ & m & Hm & _). inversion Hm.
  - rewrite add_sources_elem. split; [intros [H|H]; [inversion H | exact H] | auto].
Qed.

Lemma add_sources_size (ms : list Metadata) (acc : gset MetaValue) :
  (size (fold_left Store.add_source ms acc) <= size acc + length ms)%nat.
Proof.
  revert acc. induction ms as [|m ms IH]; intros acc; simpl; [lia|].
  etrans; [apply IH|].
  assert (size (Store.add_source acc m) <= size acc + 1)%nat; [|lia].
  unfold Store.add_source. destruct (m !! "source") as [source|]; [|lia].
  destruct (truthy source); [|lia].
  rewrite size_union_alt.
  assert (size ({[source]} ∖ acc : gset MetaValue) <= 1)%nat; [|lia].
  rewrite <- (size_singleton (C := gset MetaValue) source).
  apply subseteq_size. set_solver.
Qed.

Lemma gather_sources_size (ms : list Metadata) :
  (size (Store.gather_sources (Some ms)) <= length ms)%nat.
Proof.
  unfold Store.gather_sources. destruct ms as [|m ms]; [rewrite size_empty; lia|].
  etrans; [apply add_sources_size|]. rewrite size_empty. lia.
Qed.

Lemma strings_of_Some (l : list MetaValue) :
  Forall (fun v => exists s, v = MStr s) l ->
  exists ss, strings_of l = Some ss /\ l = MStr <$> ss.
Proof.
  induction 1 as [|v l [s ->] _ (ss & Hss & ->)].
  - exists []. split; reflexivity.
  - exists (s :: ss). split; [|reflexivity].
    unfold strings_of in *. cbn [mapM]. rewrite Hss. reflexivity.
Qed.

(** The metadata of the records, as [collection.get] lists them. *)
Lemma collection_metadata_elem (c : Collection) (m : Metadata) :
  m ∈ record_metadata <$> (map_to_list c).*2
  <-> exists id r, c !! id = Some r /\ record_metadata r = m.
Proof.
  rewrite list_elem_of_fmap. split.
  - intros (r & -> & Hr). apply list_elem_of_fmap in Hr as ([id r'] & -> & Hin).
    apply elem_of_map_to_list in Hin. eauto.
  - intros (id & r & Hr & <-). exists r. split; [reflexivity|].
    apply list_elem_of_fmap. exists (id, r). split; [reflexivity|].
    apply elem_of_map_to_list, Hr.
Qed.

Section Sources.
Variable ed : World -> list pystr -> result (list Embedding).
Variable eq : World -> pystr -> result Embedding.
Variable cq : World -> Embedding -> Z -> result QueryResult.

Lemma source_list_run (w : World) :
  (forall id r v, collection w !! id = Some r ->
     record_metadata r !! "source" = Some v -> exists s, v = MStr s) ->
  exists names,
    (Store.get_source_list (Chroma.backend ed eq cq) ChromaAdmin.admin w).1
    = Ok (MStr <$> names)
    /\ Sorted str_le names
    /\ NoDup names
    /\ (forall s, s ∈ names <->
          s <> [] /\ exists id r, collection w !! id = Some r
                      /\ record_metadata r !! "source" = Some (MStr s))
    /\ (Store.get_unique_sources_count (Chroma.backend ed eq cq)
          ChromaAdmin.admin w).1
       = Ok (Z.of_nat (length names)).
Proof.
  intros Hstr.
  unfold Store.get_source_list, Store.get_unique_sources_count, try_catch.
  rewrite !M_bind_unfold. unfold ChromaManager.call_collection_count.
  cbn [collection_count Chroma.backend].
  destruct (Z.of_nat (size (collection w)) =? 0) eqn:Hzero.
  - exists []. cbn [fst]. split; [reflexivity|]. split; [constructor|].
    split; [constructor|]. split; [|reflexivity].
    apply Z.eqb_eq in Hzero.
    assert (Hempty : collection w = ∅) by (apply map_size_empty_inv; lia).
    intros s. split; [intros H; inversion H|].
    intros (_ & id & r & Hr & _). rewrite Hempty in Hr. discriminate.
  - rewrite !M_bind_unfold. unfold Store.call_collection_get.
    cbn [collection_get ChromaAdmin.admin ChromaAdmin.get collection record].
    set (ms := record_metadata <$> (map_to_list (collection w)).*2).
    set (S := Store.gather_sources (Some ms)).
    assert (Hall : Forall (fun v => exists s, v = MStr s) (elements S)).
    { apply Forall_forall. intros v Hv. apply elem_of_elements in Hv.
      apply gather_sources_elem in Hv as (_ & m & Hm & Hsrc).
      apply collection_metadata_elem in Hm as (id & r & Hr & <-).
      exact (Hstr id r v Hr Hsrc). }
    destruct (strings_of_Some _ Hall) as (ss & Hss & Hel).
    exists (merge_sort str_le ss). unfold lift, sorted. rewrite Hss. cbn [fst].
    split; [reflexivity|]. split; [apply Sorted_merge_sort, str_le_total|].
    assert (Hnd : NoDup ss).
    { apply (NoDup_fmap_1 MStr). rewrite <- Hel. apply NoDup_elements. }
    split; [rewrite merge_sort_Permutation; exact Hnd|]. split.
    + intros s. rewrite merge_sort_Permutation.
      assert (Hs : s ∈ ss <-> MStr s ∈ S).
      { rewrite <- elem_of_elements, Hel. split.
        - intros H. apply list_elem_of_fmap. eauto.
        - intros H. apply list_elem_of_fmap in H as (s' & [= ->] & H). exact H. }
      rewrite Hs. unfold S. rewrite gather_sources_elem. split.
      * intros (Ht & m & Hm & Hsrc).
        apply collection_metadata_elem in Hm as (id & r & Hr & <-).
        split; [destruct s; [discriminate|congruence] | eauto].
      * intros (Hne & id & r & Hr & Hsrc). split; [destruct s; [congruence|reflexivity]|].
        exists (record_metadata r). split; [|exact Hsrc].
        apply collection_metadata_elem. eauto.
    + do 2 f_equal. rewrite merge_sort_Permutation.
      change (size S) with (length (elements S)). rewrite Hel, length_fmap.
      reflexivity.
Qed.


(** X21. On the Chroma collection [get_collection_info] returns the
    configured name and directory, the number of records as
    [chunk_count], and a [file_count] between 0 and [chunk_count]. *)
Theorem collection_info_counts (self : Store.t) (w : World) :
  exists info,
    (Store.get_collection_info (Chroma.backend ed eq cq) ChromaAdmin.admin self w).1
    = Ok info
    /\ CollectionInfo.name info = Store.collection_name self
    /\ CollectionInfo.persist_directory info = Store.persist_directory self
    /\ CollectionInfo.chunk_count info = Z.of_nat (size (collection w))
    /\ 0 <= CollectionInfo.file_count info <= CollectionInfo.chunk_count info.
Proof.
  unfold Store.get_collection_info. rewrite M_bind_unfold.
  unfold ChromaManager.call_collection_count at 1.
  cbn [collection_count Chroma.backend]. rewrite M_bind_unfold.
  unfold Store.get_unique_sources_count, try_catch. rewrite M_bind_unfold.
  unfold ChromaManager.call_collection_count at 1.
  cbn [collection_count Chroma.backend collection record].
  destruct (Z.of_nat (size (collection w)) =? 0) eqn:Hzero.
  - eexists. cbn [fst mret]. split; [reflexivity|].
    cbn [CollectionInfo.name CollectionInfo.persist_directory
         CollectionInfo.chunk_count CollectionInfo.file_count].
    repeat split; lia.
  - rewrite M_bind_unfold. unfold Store.call_collection_get.
    cbn [collection_get ChromaAdmin.admin ChromaAdmin.get collection record].
    eexists. cbn [fst mret]. split; [reflexivity|].
    cbn [CollectionInfo.name CollectionInfo.persist_directory
         CollectionInfo.chunk_count CollectionInfo.file_count].
    repeat split; [lia|].
    pose proof (gather_sources_size
                  (record_metadata <$> (map_to_list (collection w)).*2)) as H.
    rewrite !length_fmap, length_map_to_list in H. lia.
Qed.

End Sources.


(** Three records of two files: two names, in order. *)
Example source_list_example :
  (Store.get_source_list (Demo.backend Demo.near Demo.far) ChromaAdmin.admin
     Sample.reloaded).1
  = Ok [MStr (lit "flow.html"); MStr (lit "rules.pdf")]
  /\ (Store.get_unique_sources_count (Demo.backend Demo.near Demo.far)
        ChromaAdmin.admin Sample.reloaded).1 = Ok 2.
Proof. split; vm_compute; reflexivity. Qed.

(** ** Whether RAG is enabled *)

(** X22. [get_collection_info] reads [count()] outside any [try]: when
    the collection's [count()] raises, the exception leaves
    [get_collection_info], [get_status] and [is_rag_enabled], while
    [get_unique_sources_count] and [get_source_list] catch it and
    return 0 and the empty list. *)
Theorem count_failure_escapes (B : Backend) (A : Admin) (store : Store.t)
  (rag : RAGManager.t) (w : World) (e : exn) :
  collection_count B w = Raise e ->
  (Store.get_collection_info B A store w).1 = Raise e
  /\ (Pipeline.get_status B A store rag w).1 = Raise e
  /\ (ChatManager.is_rag_enabled B A (Some (rag, store)) w).1 = Raise e
  /\ (Store.get_unique_sources_count B A w).1 = Ok 0
  /\ (Store.get_source_list B A w).1 = Ok [].
Proof.
  intros Hcount.
  assert (Hinfo : (Store.get_collection_info B A store w).1 = Raise e).
  { unfold Store.get_collection_info. rewrite M_bind_unfold.
    unfold ChromaManager.call_collection_count at 1. rewrite Hcount. reflexivity. }
  assert (Hstatus : (Pipeline.get_status B A store rag w).1 = Raise e).
  { unfold Pipeline.get_status. rewrite M_bind_unfold.
    destruct (Store.get_collection_info B A store w) as [[info|e'] w'];
      simpl in Hinfo; [discriminate|]. simpl. congruence. }
  split; [exact Hinfo|]. split; [exact Hstatus|]. split; [|split].
  - unfold ChatManager.is_rag_enabled. rewrite M_bind_unfold.
    destruct (Pipeline.get_status B A store rag w) as [[status|e'] w'];
      simpl in Hstatus; [discriminate|]. simpl. congruence.
  - unfold Store.get_unique_sources_count, try_catch. rewrite M_bind_unfold.
    unfold ChromaManager.call_collection_count at 1. rewrite Hcount. reflexivity.
  - unfold Store.get_source_list, try_catch. rewrite M_bind_unfold.
    unfold ChromaManager.call_collection_count at 1. rewrite Hcount. reflexivity.
Qed.

Lemma count_failure_escapes_witness :
  (ChatManager.is_rag_enabled
     (Build_Backend (fun _ texts => Ok (map (fun _ => [0%float]) texts))
        (fun _ _ => Ok [0%float]) (fun w => Chroma.add (collection w))
        (fun _ _ _ => Ok (Demo.answers Demo.near Demo.far))
        (fun _ => Raise (ServiceError 503)))
     ChromaAdmin.admin (Some (Demo.manager 0.5%float, Sample.store))
     Demo.world_old).1
  = Raise (ServiceError 503).
Proof.
  apply (count_failure_escapes
           (Build_Backend (fun _ texts => Ok (map (fun _ => [0%float]) texts))
              (fun _ _ => Ok [0%float]) (fun w => Chroma.add (collection w))
              (fun _ _ _ => Ok (Demo.answers Demo.near Demo.far))
              (fun _ => Raise (ServiceError 503)))
           ChromaAdmin.admin Sample.store (Demo.manager 0.5%float)
           Demo.world_old (ServiceError 503)).
  reflexivity.
Defined.

Lemma unique_sources_count_run ed eq cq (w : World) :
  exists n w',
    Store.get_unique_sources_count (Chroma.backend ed eq cq) ChromaAdmin.admin w
    = (Ok n, w')
    /\ collection w' = collection w.
Proof.
  unfold Store.get_unique_sources_count, try_catch. rewrite M_bind_unfold.
  unfold ChromaManager.call_collection_count at 1.
  cbn [collection_count Chroma.backend].
  destruct (_ =? 0); [eexists _, _; split; reflexivity|].
  rewrite M_bind_unfold. unfold Store.call_collection_get.
  cbn [collection_get ChromaAdmin.admin ChromaAdmin.get].
  eexists _, _. split; reflexivity.
Qed.

Lemma collection_info_run ed eq cq (store : Store.t) (w : World) :
  exists n w',
    Store.get_collection_info (Chroma.backend ed eq cq) ChromaAdmin.admin store w
    = (Ok {| CollectionInfo.name := Store.collection_name store;
             CollectionInfo.chunk_count := Z.of_nat (size (collection w));
             CollectionInfo.file_count := n;
             CollectionInfo.persist_directory := Store.persist_directory store |},
       w')
    /\ collection w' = collection w.
Proof.
  unfold Store.get_collection_info. rewrite M_bind_unfold.
  unfold ChromaManager.call_collection_count at 1.
  cbn [collection_count Chroma.backend]. rewrite M_bind_unfold.
  destruct (unique_sources_count_run ed eq cq (record CollectionCount w))
    as (n & w' & -> & Hw').
  exists n, w'. split; [reflexivity | exact Hw'].
Qed.

(** X23. On the Chroma collection [is_rag_enabled] answers [False]
    without a manager and otherwise whether the collection holds at
    least one record; it leaves the collection as it is. *)
Theorem rag_enabled_iff_records ed eq cq
  (rag_manager : option (RAGManager.t * Store.t)) (w : World) :
  exists w',
    ChatManager.is_rag_enabled (Chroma.backend ed eq cq) ChromaAdmin.admin
      rag_manager w
    = (Ok (match rag_manager with
           | None => false
           | Some _ => bool_decide (collection w <> ∅)
           end), w')
    /\ collection w' = collection w.
Proof.
  destruct rag_manager as [[rag store]|]; [|exists w; split; reflexivity].
  unfold ChatManager.is_rag_enabled, Pipeline.get_status.
  rewrite !M_bind_unfold.
  destruct (collection_info_run ed eq cq store w) as (n & w' & -> & Hw').
  exists w'. split; [|exact Hw'].
  assert (Hflag : (0 <? Z.of_nat (size (collection w)))
                  = bool_decide (collection w <> ∅)).
  { destruct (decide (collection w = ∅)) as [Hempty|Hne].
    - rewrite Hempty, map_size_empty, bool_decide_eq_false_2 by auto. reflexivity.
    - rewrite bool_decide_eq_true_2 by exact Hne.
      apply Z.ltb_lt. pose proof (map_size_non_empty_iff (collection w)) as H.
      assert (size (collection w) <> 0)%nat by (apply H, Hne). lia. }
  rewrite <- Hflag. reflexivity.
Qed.

(** ** A threshold that is not a number *)

Lemma SFleb_right_number a b : SFleb a b = true -> SFeqb b b = true.
Proof.
  unfold SFleb, SFeqb.
  destruct a as [[]|[]| |[] ma ea], b as [[]|[]| |[] mb eb];
    simpl; try reflexivity; try discriminate;
    change (Pos.compare_cont Eq) with Pos.compare; intros H1; cmp_cases.
Qed.

Lemma float_leb_right_number (a b : float) :
  PrimFloat.leb a b = true -> PrimFloat.eqb b b = true.
Proof. rewrite leb_spec, FloatAxioms.eqb_spec. apply SFleb_right_number. Qed.

(** X24. With a threshold that is not a number (NaN) the comparison
    [best_distance <= threshold] is never true: [search_with_threshold]
    answers with no results and [False] whatever the search finds. *)
Theorem nan_threshold_never_grounds (B : Backend) (query : pystr)
  (threshold : float) (n_results : Z) (w : World) :
  PrimFloat.is_nan threshold = true ->
  exists w',
    ChromaManager.search_with_threshold B query threshold n_results w
    = (Ok ([], false), w').
Proof.
  intros Hnan.
  destruct (search_returns B query n_results w) as (rs & w1 & Hsearch).
  exists w1. rewrite (search_with_threshold_unfold _ _ _ _ _ _ _ Hsearch).
  destruct rs as [|r0 rest]; [reflexivity|].
  destruct (PrimFloat.leb (SearchResult.distance r0) threshold) eqn:Hle;
    [|reflexivity].
  apply float_leb_right_number in Hle. unfold PrimFloat.is_nan in Hnan.
  rewrite Hle in Hnan. discriminate.
Qed.

Lemma nan_threshold_never_grounds_witness :
  exists w',
    ChromaManager.search_with_threshold (Demo.backend Demo.near Demo.far)
      Sample.question PrimFloat.nan 3 Demo.world0
    = (Ok ([], false), w').
Proof.
  apply (nan_threshold_never_grounds (Demo.backend Demo.near Demo.far)
           Sample.question PrimFloat.nan 3 Demo.world0).
  reflexivity.
Defined.

(** ** [False] after the batch was written *)

(** X25. The last thing [add_documents] does inside its [try] is read
    [count()] for a message. When the batch has been embedded and added
    and that [count()] raises, [add_documents] returns [False] although
    the collection is the one [collection.add] left, with the batch in
    it. *)
Theorem add_documents_false_after_write (B : Backend) (chunks : list Doc.t)
  (prov : list (MetaValue * MetaValue * MetaValue)) (w : World)
  (embeddings : list Embedding) (c : Collection) (e : exn) :
  chunks <> [] ->
  Forall2 Spec.provenance chunks prov ->
  embed_documents B w (map Doc.text chunks) = Ok embeddings ->
  collection_add B (record (EmbedDocuments (map Doc.text chunks)) w)
    (map Spec.id_of prov) embeddings (map Doc.text chunks)
    (map Doc.metadata chunks) = (Ok tt, c) ->
  (forall w1, collection w1 = c -> collection_count B w1 = Raise e) ->
  (ChromaManager.add_documents B chunks w).1 = Ok false
  /\ collection (ChromaManager.add_documents B chunks w).2 = c.
Proof.
  intros Hne Hprov Hembed Hadd Hcount.
  assert (Hrun : exists w', ChromaManager.add_documents B chunks w = (Ok false, w')
                            /\ collection w' = c).
  { unfold ChromaManager.add_documents.
    destruct chunks as [|c0 chunks0] eqn:Hchunks; [congruence|].
    cbn [nonempty negb]. rewrite <- Hchunks in *. clear Hchunks.
    unfold try_catch. rewrite M_bind_unfold. unfold lift at 1.
    rewrite (traverse_chunk_id _ _ Hprov).
    rewrite M_bind_unfold. unfold ChromaManager.call_embed_documents at 1.
    rewrite Hembed. rewrite M_bind_unfold.
    unfold ChromaManager.call_collection_add at 1. rewrite Hadd.
    rewrite M_bind_unfold. unfold ChromaManager.call_collection_count at 1.
    rewrite Hcount by reflexivity.
    eexists. split; reflexivity. }
  destruct Hrun as (w' & -> & Hw'). split; [reflexivity | exact Hw'].
Qed.

(** ** The chunk records kept with an answer *)

(** X26. The GUI builds the [chunk_id] it keeps with an answer from the
    metadata of the search result, in the format of the store: for a
    result whose metadata has [source], [page] and [chunk_index] it is
    the id under which [add_documents] stored the chunk with that
    metadata. *)
Theorem saved_chunk_id_is_record_id (doc : SearchResult.t) (text : pystr)
  (id : pystr) :
  ChromaManager.chunk_id {| Doc.text := text;
                            Doc.metadata := SearchResult.metadata doc |} = Ok id ->
  GUI.chunk_id (GUI.saved_chunk doc) = id.
Proof.
  unfold ChromaManager.chunk_id, ChromaManager.getitem, GUI.saved_chunk, GUI.get.
  cbn [Doc.metadata GUI.chunk_id].
  destruct (SearchResult.metadata doc !! "source"); [|discriminate].
  destruct (SearchResult.metadata doc !! "page"); [|discriminate].
  destruct (SearchResult.metadata doc !! "chunk_index"); [|discriminate].
  intros [= <-]. reflexivity.
Qed.

Lemma saved_chunk_id_is_record_id_witness :
  GUI.chunk_id
    (GUI.saved_chunk
       {| SearchResult.text := lit "書類不備";
          SearchResult.metadata :=
            <["chunk_index" := MInt 1]> (Demo.meta "rules.pdf" 4);
          SearchResult.distance := Demo.near |})
  = lit "rules.pdf_4_1".
Proof.
  apply (saved_chunk_id_is_record_id
           {| SearchResult.text := lit "書類不備";
              SearchResult.metadata :=
                <["chunk_index" := MInt 1]> (Demo.meta "rules.pdf" 4);
              SearchResult.distance := Demo.near |}
           (lit "書類不備")).
  vm_compute. reflexivity.
Defined.

(** Without the keys the id degenerates to two underscores. *)
Example saved_chunk_without_metadata :
  GUI.chunk_id (GUI.saved_chunk {| SearchResult.text := lit "書類不備";
                                   SearchResult.metadata := ∅;
                                   SearchResult.distance := Demo.near |})
  = lit "__".
Proof. reflexivity. Qed.

Lemma add_documents_false_after_write_witness :
  (ChromaManager.add_documents
     (Build_Backend (fun _ texts => Ok (map (fun _ => [0%float]) texts))
        (fun _ _ => Ok [0%float]) (fun w => Chroma.add (collection w))
        (fun _ _ _ => Ok (Demo.answers Demo.near Demo.far))
        (fun _ => Raise (ServiceError 503)))
     Demo.batch Demo.world0).1 = Ok false
  /\ collection
       (ChromaManager.add_documents
          (Build_Backend (fun _ texts => Ok (map (fun _ => [0%float]) texts))
             (fun _ _ => Ok [0%float]) (fun w => Chroma.add (collection w))
             (fun _ _ _ => Ok (Demo.answers Demo.near Demo.far))
             (fun _ => Raise (ServiceError 503)))
          Demo.batch Demo.world0).2
     = collection Demo.after_first.
Proof.
  apply (add_documents_false_after_write
           (Build_Backend (fun _ texts => Ok (map (fun _ => [0%float]) texts))
              (fun _ _ => Ok [0%float]) (fun w => Chroma.add (collection w))
              (fun _ _ _ => Ok (Demo.answers Demo.near Demo.far))
              (fun _ => Raise (ServiceError 503)))
           Demo.batch
           [(MStr (lit "rules.pdf"), MInt 3, MInt 0);
            (MStr (lit "rules.pdf"), MInt 4, MInt 1)]
           Demo.world0 [[0%float]; [0%float]] (collection Demo.after_first)
           (ServiceError 503)).
  - discriminate.
  - repeat constructor; vm_compute; reflexivity.
  - reflexivity.
  - vm_compute. reflexivity.
  - intros w1 _. reflexivity.
Defined.

(** ** Deleting, then listing *)

(** X27. On the Chroma collection, with every stored source a string,
    the sources listed after [delete_by_source] are the sources listed
    before without the deleted name: the deleted file is no longer
    listed and every other file still is. *)
Theorem deleted_source_not_listed ed eq cq (source_name : pystr) (w : World) :
  (forall id r v, collection w !! id = Some r ->
     record_metadata r !! "source" = Some v -> exists s, v = MStr s) ->
  exists names names',
    (Store.get_source_list (Chroma.backend ed eq cq) ChromaAdmin.admin w).1
    = Ok (MStr <$> names)
    /\ (Store.get_source_list (Chroma.backend ed eq cq) ChromaAdmin.admin
          (Store.delete_by_source ChromaAdmin.admin source_name w).2).1
       = Ok (MStr <$> names')
    /\ forall s, s ∈ names' <-> s ∈ names /\ s <> source_name.
Proof.
  intros Hstr.
  destruct (source_list_run ed eq cq w Hstr) as (names & Hrun & _ & _ & Hin & _).
  set (w2 := (Store.delete_by_source ChromaAdmin.admin source_name w).2).
  assert (Hw2 : forall id r, collection w2 !! id = Some r
                  <-> collection w !! id = Some r
                      /\ record_metadata r !! "source" <> Some (MStr source_name)).
  { intros id r. apply map_lookup_filter_Some. }
  destruct (source_list_run ed eq cq w2) as (names' & Hrun' & _ & _ & Hin' & _).
  { intros id r v Hr Hv. apply Hw2 in Hr as [Hr _]. exact (Hstr id r v Hr Hv). }
  exists names, names'. split; [exact Hrun|]. split; [exact Hrun'|].
  intros s. rewrite Hin', Hin. split.
  - intros (Hne & id & r & Hr & Hs). apply Hw2 in Hr as [Hr Hsrc].
    split; [eauto|]. intros ->. contradiction.
  - intros ((Hne & id & r & Hr & Hs) & Hdiff). split; [exact Hne|].
    exists id, r. split; [|exact Hs]. apply Hw2. split; [exact Hr|].
    rewrite Hs. intros [= ->]. contradiction.
Qed.

Lemma deleted_source_not_listed_witness :
  exists names names',
    (Store.get_source_list (Demo.backend Demo.near Demo.far) ChromaAdmin.admin
       Demo.world_old).1 = Ok (MStr <$> names)
    /\ (Store.get_source_list (Demo.backend Demo.near Demo.far) ChromaAdmin.admin
          (Store.delete_by_source ChromaAdmin.admin (lit "rules.pdf")
             Demo.world_old).2).1
       = Ok (MStr <$> names')
    /\ forall s, s ∈ names' <-> s ∈ names /\ s <> lit "rules.pdf".
Proof.
  apply (deleted_source_not_listed
           (fun _ texts => Ok (map (fun _ => [0%float]) texts))
           (fun _ _ => Ok [0%float])
           (fun _ _ _ => Ok (Demo.answers Demo.near Demo.far))
           (lit "rules.pdf") Demo.world_old).
  intros id r v Hr Hv.
  change (collection Demo.world_old)
    with ({[ lit "rules.pdf_3_0" := Demo.old_record ]} : Collection) in Hr.
  apply lookup_singleton_Some in Hr as [_ <-].
  vm_compute in Hv. injection Hv as <-. eexists. reflexivity.
Defined.

(** ** A PDF that cannot be read *)

(** X28. When the PDF cannot be opened, or one of its pages cannot be
    read, or it cannot be closed, [process_and_store_pdf] returns
    [False] and nothing has happened: no text is embedded, the
    collection is not called and holds what it held. *)
Theorem unreadable_pdf_not_stored (B : Backend) (self : RAGManager.t)
  path_name fitz_open (pdf_path : pystr) (w : World) :
  (exists e, fitz_open pdf_path = Raise e)
  \/ (exists doc e, fitz_open pdf_path = Ok doc
        /\ (In (Raise e) (get_text doc) \/ close doc = Raise e)) ->
  RAGManager.process_and_store_pdf B self path_name fitz_open pdf_path w
  = (Ok false, w).
Proof.
  intros H. rewrite process_and_store_pdf_unfold.
  assert (Hpages : DocumentProcessor.extract_text_from_pdf path_name fitz_open
                     pdf_path = Ok []).
  { destruct H as [[e He]|(doc & e & Hopen & [Hpage|Hclose])].
    - apply (extract_text_from_pdf_open_fails _ _ _ _ He).
    - apply (extract_text_from_pdf_page_fails _ _ _ _ _ Hopen Hpage).
    - apply (extract_text_from_pdf_close_fails _ _ _ _ _ Hopen Hclose). }
  unfold DocumentProcessor.process_pdf. rewrite Hpages. reflexivity.
Qed.

Lemma unreadable_pdf_not_stored_witness :
  RAGManager.process_and_store_pdf (Demo.backend Demo.near Demo.far)
    (Demo.manager 0.5%float) (fun p => p)
    (fun _ => Ok {| get_text := [Ok (lit "審査の流れ"); Raise (ValueError "bad page")];
                    close := Ok tt |})
    (lit "rules.pdf") Demo.world_old
  = (Ok false, Demo.world_old).
Proof.
  apply (unreadable_pdf_not_stored (Demo.backend Demo.near Demo.far)
           (Demo.manager 0.5%float) (fun p => p)
           (fun _ => Ok {| get_text := [Ok (lit "審査の流れ");
                                        Raise (ValueError "bad page")];
                           close := Ok tt |})
           (lit "rules.pdf") Demo.world_old).
  right.
  exists {| get_text := [Ok (lit "審査の流れ"); Raise (ValueError "bad page")];
            close := Ok tt |}, (ValueError "bad page").
  split; [reflexivity|]. left. simpl. right. left. reflexivity.
Defined.

(** ** Links to the source files *)

(** X29. [get_google_drive_link] never fails: it gives a non-empty link
    for the three file names of [GOOGLE_DRIVE_LINKS] and the empty
    string for every other name. *)
Theorem drive_link_known_files (filename : pystr) :
  Pipeline.get_google_drive_link filename <> []
  <-> filename ∈ [lit "acom_customer_record_rules.pdf";
                  lit "acom_documents_mapping.pdf";
                  lit "acom_workflow_rag.pdf"].
Proof.
  unfold Pipeline.get_google_drive_link, GOOGLE_DRIVE_LINKS.
  destruct (decide (filename = lit "acom_customer_record_rules.pdf")) as [->|H1].
  { rewrite lookup_insert_eq. split; [intros _; left | intros _; discriminate]. }
  rewrite lookup_insert_ne by congruence.
  destruct (decide (filename = lit "acom_documents_mapping.pdf")) as [->|H2].
  { rewrite lookup_insert_eq.
    split; [intros _; right; left | intros _; discriminate]. }
  rewrite lookup_insert_ne by congruence.
  destruct (decide (filename = lit "acom_workflow_rag.pdf")) as [->|H3].
  { rewrite lookup_insert_eq.
    split; [intros _; right; right; left | intros _; discriminate]. }
  rewrite lookup_insert_ne by congruence. rewrite lookup_empty. simpl.
  split; [congruence|]. intros Hin.
  repeat (apply elem_of_cons in Hin as [->|Hin]; [congruence|]).
  inversion Hin.
Qed.
